(** * ImposterCli: the session state machine of [main.py], embedded and verified

    The program is a single Python module that keeps its whole state in
    module-level singletons ([ui_state], [scroll_state], [message_box],
    [box_style]) and mutates them from small procedures.  The embedding
    follows that shape:

    - Python [str] is [string], [int] is [Z], [float] time stamps are exact
      rationals [Q] (rounding of binary floating point is not modelled),
      [Optional[T]] is [option T];
    - the singletons are the fields of one record [State], threaded through
      a state monad [M]; a Python exception ends the computation with
      [Raised], keeping the state reached so far;
    - [random] and [time.monotonic] are answered from tapes held in the
      state, so every procedure is an executable function and a theorem
      quantified over the state covers every behaviour of the generator and
      of the clock;
    - drawing on the terminal is not modelled; what [render] and the key
      dispatch of [run] write to the module state is. *)

From Stdlib Require Import ZArith QArith Qround List String Ascii Bool Lia DecimalString.
Import ListNotations.

Local Open Scope string_scope.
Local Open Scope Z_scope.

(** ** Python built-ins used by the program *)

Module Py.

(** [len(s)] *)
Definition len (s : string) : Z := Z.of_nat (String.length s).

(** Truth value of a string: the empty string is false. *)
Definition truthy (s : string) : bool :=
  match s with EmptyString => false | String _ _ => true end.

(** [a or b] on strings. *)
Definition or_else (a b : string) : string := if truthy a then a else b.

Definition lower_char (c : ascii) : ascii :=
  let n := nat_of_ascii c in
  if ((65 <=? n) && (n <=? 90))%nat then ascii_of_nat (n + 32) else c.

Definition upper_char (c : ascii) : ascii :=
  let n := nat_of_ascii c in
  if ((97 <=? n) && (n <=? 122))%nat then ascii_of_nat (n - 32) else c.

Fixpoint map_chars (f : ascii -> ascii) (s : string) : string :=
  match s with
  | EmptyString => EmptyString
  | String c s' => String (f c) (map_chars f s')
  end.

(** [s.lower()] and [s.upper()], on the ASCII letters; every other
    character is left as it is. *)
Definition lower (s : string) : string := map_chars lower_char s.
Definition upper (s : string) : string := map_chars upper_char s.

(** [s[-k:]] for [1 <= k]: the last [k] characters ([s] itself when
    [k] exceeds its length). *)
Definition last_chars (k : nat) (s : string) : string :=
  substring (String.length s - k) k s.

(** [w.startswith(x)] *)
Definition startswith (w x : string) : bool := String.prefix x w.

(** [x in w] for strings: [x] occurs as a contiguous block of [w]. *)
Fixpoint contains (x w : string) : bool :=
  String.prefix x w ||
  match w with
  | EmptyString => false
  | String _ w' => contains x w'
  end.

Fixpoint find_at (w : string) (ch : ascii) (skip : nat) (pos : Z) : Z :=
  match w with
  | EmptyString => -1
  | String c w' =>
      match skip with
      | O => if Ascii.eqb c ch then pos else find_at w' ch O (pos + 1)
      | S k => find_at w' ch k (pos + 1)
      end
  end.

(** [w.find(ch, idx)] for a one-character [ch] and [0 <= idx]: the least
    position [>= idx] holding [ch], or [-1]. *)
Definition find (w : string) (ch : ascii) (idx : Z) : Z :=
  find_at w ch (Z.to_nat idx) 0.

(** [str(n)] and the [{n}] of an f-string. *)
Definition str (n : Z) : string := NilZero.string_of_int (Z.to_int n).

(** [sep.join(xs)] *)
Fixpoint join (sep : string) (xs : list string) : string :=
  match xs with
  | [] => ""
  | [x] => x
  | x :: rest => x ++ sep ++ join sep rest
  end.

(** [max(xs, key=...)] on a non-empty sequence [x :: xs]: the running
    best is replaced only by an item whose key is strictly greater, so
    the first maximal item wins. *)
Definition max_by {A K : Type} (gt : K -> K -> bool) (key : A -> K)
           (x : A) (xs : list A) : A :=
  fold_left (fun best w => if gt (key w) (key best) then w else best) xs x.

(** *** [int(s)] on a string

    The text is stripped of surrounding white space; an optional sign is
    followed by decimal digits, in which single underscores may separate
    digits.  [None] stands for [ValueError].  (Digits outside ASCII and
    the interpreter's limit on the number of digits are not modelled.) *)

Definition is_space (c : ascii) : bool :=
  let n := nat_of_ascii c in
  (((9 <=? n) && (n <=? 13)) || ((28 <=? n) && (n <=? 32)))%nat.

Fixpoint lstrip (s : string) : string :=
  match s with
  | EmptyString => EmptyString
  | String c s' => if is_space c then lstrip s' else s
  end.

Definition reverse (s : string) : string :=
  string_of_list_ascii (List.rev (list_ascii_of_string s)).

Definition strip (s : string) : string :=
  reverse (lstrip (reverse (lstrip s))).

Definition digit_val (c : ascii) : option Z :=
  let n := nat_of_ascii c in
  if ((48 <=? n) && (n <=? 57))%nat then Some (Z.of_nat (n - 48)) else None.

(** [after_digit] tells whether the previous character was a digit: an
    underscore is accepted only there, and the text may end only there. *)
Fixpoint digits (s : string) (acc : Z) (after_digit : bool) : option Z :=
  match s with
  | EmptyString => if after_digit then Some acc else None
  | String c s' =>
      match digit_val c with
      | Some d => digits s' (10 * acc + d) true
      | None =>
          if Ascii.eqb c "_" && after_digit then digits s' acc false
          else None
      end
  end.

Definition int_of_string (s : string) : option Z :=
  match strip s with
  | String "+" r => digits r 0 false
  | String "-" r => option_map Z.opp (digits r 0 false)
  | t => digits t 0 false
  end.

End Py.

(** ** FuzzyMatcher: the local functions of [best_random_choice] *)

Module Fuzzy.

(** The key of [max]: a 5-tuple of integers. *)
Definition Score : Type := Z * Z * Z * Z * Z.

(** Python's [a > b] on two 5-tuples of integers: the first position
    where they differ decides. *)
Definition gtb (a b : Score) : bool :=
  let '(a1, a2, a3, a4, a5) := a in
  let '(b1, b2, b3, b4, b5) := b in
  if negb (a1 =? b1) then b1 <? a1
  else if negb (a2 =? b2) then b2 <? a2
  else if negb (a3 =? b3) then b3 <? a3
  else if negb (a4 =? b4) then b4 <? a4
  else b5 <? a5.

(** [for k in range(limit, 0, -1): if w.startswith(f[-k:]): return k] *)
Fixpoint tail_prefix_loop (f w : string) (k : nat) : nat :=
  match k with
  | O => O
  | S k' => if Py.startswith w (Py.last_chars k f) then k
            else tail_prefix_loop f w k'
  end.

Definition tail_prefix_len (f w : string) : Z :=
  let limit := Nat.min (String.length f) (String.length w) in
  Z.of_nat (tail_prefix_loop f w limit).

(** [for k in range(limit, 0, -1): if f[-k:] in w: return k] *)
Fixpoint tail_any_loop (f w : string) (k : nat) : nat :=
  match k with
  | O => O
  | S k' => if Py.contains (Py.last_chars k f) w then k
            else tail_any_loop f w k'
  end.

Definition tail_any_len (f w : string) : Z :=
  let limit := Nat.min (String.length f) (String.length w) in
  Z.of_nat (tail_any_loop f w limit).

(** The subsequence loop of [score]: [idx] and [sub] are its two local
    variables, [f] the characters of the filter still to visit. *)
Fixpoint sub_loop (f w : string) (idx sub : Z) : Z :=
  match f with
  | EmptyString => sub
  | String ch f' =>
      let found := Py.find w ch idx in
      if found =? -1 then sub_loop f' w idx sub
      else sub_loop f' w (found + 1) (sub + 1)
  end.

(** The prefix loop of [score], over [zip(filt, w)], left at the first
    mismatch. *)
Fixpoint prefix_loop (f w : string) (prefix : Z) : Z :=
  match f, w with
  | String a f', String b w' =>
      if Ascii.eqb a b then prefix_loop f' w' (prefix + 1) else prefix
  | _, _ => prefix
  end.

Definition score (filt : string) (word : string) : Score :=
  let w := Py.lower word in
  let tail_pref := tail_prefix_len filt w in
  let tail_any := tail_any_len filt w in
  let sub := sub_loop filt w 0 0 in
  let prefix := prefix_loop filt w 0 in
  (tail_pref, tail_any, prefix, sub, - Py.len word).

(** [best_random_choice] once [candidates] is known to be the non-empty
    list [c :: cs]; [random_filter] is the raw filter of the session. *)
Definition best (c : string) (cs : list string) (random_filter : string) : string :=
  let filt := Py.lower random_filter in
  if negb (Py.truthy filt) then c
  else Py.max_by gtb (fun w => score filt w) c cs.

End Fuzzy.

(** ** Data model: the dataclasses of [main.py] *)

Record MessageBox : Type := mkMessageBox {
  title : string;
  text : string
}.

Definition set_title (v : string) (m : MessageBox) : MessageBox :=
  mkMessageBox v (text m).
Definition set_text (v : string) (m : MessageBox) : MessageBox :=
  mkMessageBox (title m) v.

Record BoxStyle : Type := mkBoxStyle {
  fill_pair : Z;
  text_pair : Z;
  border_pair : Z
}.

Definition set_fill_pair (v : Z) (b : BoxStyle) : BoxStyle :=
  mkBoxStyle v (text_pair b) (border_pair b).
Definition set_text_pair (v : Z) (b : BoxStyle) : BoxStyle :=
  mkBoxStyle (fill_pair b) v (border_pair b).
Definition set_border_pair (v : Z) (b : BoxStyle) : BoxStyle :=
  mkBoxStyle (fill_pair b) (text_pair b) v.

Record GameMode : Type := mkGameMode {
  name : string;
  description : string;
  style : BoxStyle;
  source : string
}.

Record ScrollState : Type := mkScrollState {
  active : bool;
  last_time : Q;
  last_direction : option string;
  last_trigger_time : Q
}.

Definition set_active (v : bool) (c : ScrollState) : ScrollState :=
  mkScrollState v (last_time c) (last_direction c) (last_trigger_time c).
Definition set_last_time (v : Q) (c : ScrollState) : ScrollState :=
  mkScrollState (active c) v (last_direction c) (last_trigger_time c).
Definition set_last_direction (v : option string) (c : ScrollState) : ScrollState :=
  mkScrollState (active c) (last_time c) v (last_trigger_time c).
Definition set_last_trigger_time (v : Q) (c : ScrollState) : ScrollState :=
  mkScrollState (active c) (last_time c) (last_direction c) v.


(** [UIState]: the screen is one of the strings idle, player_input,
    word_count, imposter_percent, confirm, mode_select, word_entry,
    random_pick, random_simple, wait_scroll, reveal, handoff, done. *)
Record UIState : Type := mkUIState {
  screen : string;
  input_buffer : string;
  word_count_buffer : string;
  imposter_percent_buffer : string;
  player_count : Z;
  word_options_count : Z;
  word_buffer : string;
  chosen_word : string;
  mode_index : Z;
  selected_mode : option GameMode;
  imposter_index : option Z;
  current_player : Z;
  countdown_until : Q;
  reveal_until : Q;
  handoff_until : Q;
  handoff_advance : bool;
  handoff_pending_action : string;
  imposter_all_chance : Z;
  all_imposter_except_first : bool;
  random_candidates : option (list string);
  random_filter : string;
  scroll_block_until : Q;
  simple_candidates : option (list string);
  simple_index : Z;
  simple_hold_started : bool;
  simple_hold_until : Q
}.

Definition set_screen (v : string) (u : UIState) : UIState :=
  mkUIState v (input_buffer u) (word_count_buffer u)
  (imposter_percent_buffer u) (player_count u) (word_options_count u)
  (word_buffer u) (chosen_word u) (mode_index u) (selected_mode u)
  (imposter_index u) (current_player u) (countdown_until u) (reveal_until u)
  (handoff_until u) (handoff_advance u) (handoff_pending_action u)
  (imposter_all_chance u) (all_imposter_except_first u) (random_candidates u)
  (random_filter u) (scroll_block_until u) (simple_candidates u)
  (simple_index u) (simple_hold_started u) (simple_hold_until u).
Definition set_input_buffer (v : string) (u : UIState) : UIState :=
  mkUIState (screen u) v (word_count_buffer u) (imposter_percent_buffer u)
  (player_count u) (word_options_count u) (word_buffer u) (chosen_word u)
  (mode_index u) (selected_mode u) (imposter_index u) (current_player u)
  (countdown_until u) (reveal_until u) (handoff_until u) (handoff_advance u)
  (handoff_pending_action u) (imposter_all_chance u)
  (all_imposter_except_first u) (random_candidates u) (random_filter u)
  (scroll_block_until u) (simple_candidates u) (simple_index u)
  (simple_hold_started u) (simple_hold_until u).
Definition set_word_count_buffer (v : string) (u : UIState) : UIState :=
  mkUIState (screen u) (input_buffer u) v (imposter_percent_buffer u)
  (player_count u) (word_options_count u) (word_buffer u) (chosen_word u)
  (mode_index u) (selected_mode u) (imposter_index u) (current_player u)
  (countdown_until u) (reveal_until u) (handoff_until u) (handoff_advance u)
  (handoff_pending_action u) (imposter_all_chance u)
  (all_imposter_except_first u) (random_candidates u) (random_filter u)
  (scroll_block_until u) (simple_candidates u) (simple_index u)
  (simple_hold_started u) (simple_hold_until u).
Definition set_imposter_percent_buffer (v : string) (u : UIState) : UIState :=
  mkUIState (screen u) (input_buffer u) (word_count_buffer u) v
  (player_count u) (word_options_count u) (word_buffer u) (chosen_word u)
  (mode_index u) (selected_mode u) (imposter_index u) (current_player u)
  (countdown_until u) (reveal_until u) (handoff_until u) (handoff_advance u)
  (handoff_pending_action u) (imposter_all_chance u)
  (all_imposter_except_first u) (random_candidates u) (random_filter u)
  (scroll_block_until u) (simple_candidates u) (simple_index u)
  (simple_hold_started u) (simple_hold_until u).
Definition set_player_count (v : Z) (u : UIState) : UIState :=
  mkUIState (screen u) (input_buffer u) (word_count_buffer u)
  (imposter_percent_buffer u) v (word_options_count u) (word_buffer u)
  (chosen_word u) (mode_index u) (selected_mode u) (imposter_index u)
  (current_player u) (countdown_until u) (reveal_until u) (handoff_until u)
  (handoff_advance u) (handoff_pending_action u) (imposter_all_chance u)
  (all_imposter_except_first u) (random_candidates u) (random_filter u)
  (scroll_block_until u) (simple_candidates u) (simple_index u)
  (simple_hold_started u) (simple_hold_until u).
Definition set_word_options_count (v : Z) (u : UIState) : UIState :=
  mkUIState (screen u) (input_buffer u) (word_count_buffer u)
  (imposter_percent_buffer u) (player_count u) v (word_buffer u)
  (chosen_word u) (mode_index u) (selected_mode u) (imposter_index u)
  (current_player u) (countdown_until u) (reveal_until u) (handoff_until u)
  (handoff_advance u) (handoff_pending_action u) (imposter_all_chance u)
  (all_imposter_except_first u) (random_candidates u) (random_filter u)
  (scroll_block_until u) (simple_candidates u) (simple_index u)
  (simple_hold_started u) (simple_hold_until u).
Definition set_word_buffer (v : string) (u : UIState) : UIState :=
  mkUIState (screen u) (input_buffer u) (word_count_buffer u)
  (imposter_percent_buffer u) (player_count u) (word_options_count u) v
  (chosen_word u) (mode_index u) (selected_mode u) (imposter_index u)
  (current_player u) (countdown_until u) (reveal_until u) (handoff_until u)
  (handoff_advance u) (handoff_pending_action u) (imposter_all_chance u)
  (all_imposter_except_first u) (random_candidates u) (random_filter u)
  (scroll_block_until u) (simple_candidates u) (simple_index u)
  (simple_hold_started u) (simple_hold_until u).
Definition set_chosen_word (v : string) (u : UIState) : UIState :=
  mkUIState (screen u) (input_buffer u) (word_count_buffer u)
  (imposter_percent_buffer u) (player_count u) (word_options_count u)
  (word_buffer u) v (mode_index u) (selected_mode u) (imposter_index u)
  (current_player u) (countdown_until u) (reveal_until u) (handoff_until u)
  (handoff_advance u) (handoff_pending_action u) (imposter_all_chance u)
  (all_imposter_except_first u) (random_candidates u) (random_filter u)
  (scroll_block_until u) (simple_candidates u) (simple_index u)
  (simple_hold_started u) (simple_hold_until u).
Definition set_mode_index (v : Z) (u : UIState) : UIState :=
  mkUIState (screen u) (input_buffer u) (word_count_buffer u)
  (imposter_percent_buffer u) (player_count u) (word_options_count u)
  (word_buffer u) (chosen_word u) v (selected_mode u) (imposter_index u)
  (current_player u) (countdown_until u) (reveal_until u) (handoff_until u)
  (handoff_advance u) (handoff_pending_action u) (imposter_all_chance u)
  (all_imposter_except_first u) (random_candidates u) (random_filter u)
  (scroll_block_until u) (simple_candidates u) (simple_index u)
  (simple_hold_started u) (simple_hold_until u).
Definition set_selected_mode (v : option GameMode) (u : UIState) : UIState :=
  mkUIState (screen u) (input_buffer u) (word_count_buffer u)
  (imposter_percent_buffer u) (player_count u) (word_options_count u)
  (word_buffer u) (chosen_word u) (mode_index u) v (imposter_index u)
  (current_player u) (countdown_until u) (reveal_until u) (handoff_until u)
  (handoff_advance u) (handoff_pending_action u) (imposter_all_chance u)
  (all_imposter_except_first u) (random_candidates u) (random_filter u)
  (scroll_block_until u) (simple_candidates u) (simple_index u)
  (simple_hold_started u) (simple_hold_until u).
Definition set_imposter_index (v : option Z) (u : UIState) : UIState :=
  mkUIState (screen u) (input_buffer u) (word_count_buffer u)
  (imposter_percent_buffer u) (player_count u) (word_options_count u)
  (word_buffer u) (chosen_word u) (mode_index u) (selected_mode u) v
  (current_player u) (countdown_until u) (reveal_until u) (handoff_until u)
  (handoff_advance u) (handoff_pending_action u) (imposter_all_chance u)
  (all_imposter_except_first u) (random_candidates u) (random_filter u)
  (scroll_block_until u) (simple_candidates u) (simple_index u)
  (simple_hold_started u) (simple_hold_until u).
Definition set_current_player (v : Z) (u : UIState) : UIState :=
  mkUIState (screen u) (input_buffer u) (word_count_buffer u)
  (imposter_percent_buffer u) (player_count u) (word_options_count u)
  (word_buffer u) (chosen_word u) (mode_index u) (selected_mode u)
  (imposter_index u) v (countdown_until u) (reveal_until u) (handoff_until u)
  (handoff_advance u) (handoff_pending_action u) (imposter_all_chance u)
  (all_imposter_except_first u) (random_candidates u) (random_filter u)
  (scroll_block_until u) (simple_candidates u) (simple_index u)
  (simple_hold_started u) (simple_hold_until u).
Definition set_countdown_until (v : Q) (u : UIState) : UIState :=
  mkUIState (screen u) (input_buffer u) (word_count_buffer u)
  (imposter_percent_buffer u) (player_count u) (word_options_count u)
  (word_buffer u) (chosen_word u) (mode_index u) (selected_mode u)
  (imposter_index u) (current_player u) v (reveal_until u) (handoff_until u)
  (handoff_advance u) (handoff_pending_action u) (imposter_all_chance u)
  (all_imposter_except_first u) (random_candidates u) (random_filter u)
  (scroll_block_until u) (simple_candidates u) (simple_index u)
  (simple_hold_started u) (simple_hold_until u).
Definition set_reveal_until (v : Q) (u : UIState) : UIState :=
  mkUIState (screen u) (input_buffer u) (word_count_buffer u)
  (imposter_percent_buffer u) (player_count u) (word_options_count u)
  (word_buffer u) (chosen_word u) (mode_index u) (selected_mode u)
  (imposter_index u) (current_player u) (countdown_until u) v
  (handoff_until u) (handoff_advance u) (handoff_pending_action u)
  (imposter_all_chance u) (all_imposter_except_first u) (random_candidates u)
  (random_filter u) (scroll_block_until u) (simple_candidates u)
  (simple_index u) (simple_hold_started u) (simple_hold_until u).
Definition set_handoff_until (v : Q) (u : UIState) : UIState :=
  mkUIState (screen u) (input_buffer u) (word_count_buffer u)
  (imposter_percent_buffer u) (player_count u) (word_options_count u)
  (word_buffer u) (chosen_word u) (mode_index u) (selected_mode u)
  (imposter_index u) (current_player u) (countdown_until u) (reveal_until u)
  v (handoff_advance u) (handoff_pending_action u) (imposter_all_chance u)
  (all_imposter_except_first u) (random_candidates u) (random_filter u)
  (scroll_block_until u) (simple_candidates u) (simple_index u)
  (simple_hold_started u) (simple_hold_until u).
Definition set_handoff_advance (v : bool) (u : UIState) : UIState :=
  mkUIState (screen u) (input_buffer u) (word_count_buffer u)
  (imposter_percent_buffer u) (player_count u) (word_options_count u)
  (word_buffer u) (chosen_word u) (mode_index u) (selected_mode u)
  (imposter_index u) (current_player u) (countdown_until u) (reveal_until u)
  (handoff_until u) v (handoff_pending_action u) (imposter_all_chance u)
  (all_imposter_except_first u) (random_candidates u) (random_filter u)
  (scroll_block_until u) (simple_candidates u) (simple_index u)
  (simple_hold_started u) (simple_hold_until u).
Definition set_handoff_pending_action (v : string) (u : UIState) : UIState :=
  mkUIState (screen u) (input_buffer u) (word_count_buffer u)
  (imposter_percent_buffer u) (player_count u) (word_options_count u)
  (word_buffer u) (chosen_word u) (mode_index u) (selected_mode u)
  (imposter_index u) (current_player u) (countdown_until u) (reveal_until u)
  (handoff_until u) (handoff_advance u) v (imposter_all_chance u)
  (all_imposter_except_first u) (random_candidates u) (random_filter u)
  (scroll_block_until u) (simple_candidates u) (simple_index u)
  (simple_hold_started u) (simple_hold_until u).
Definition set_imposter_all_chance (v : Z) (u : UIState) : UIState :=
  mkUIState (screen u) (input_buffer u) (word_count_buffer u)
  (imposter_percent_buffer u) (player_count u) (word_options_count u)
  (word_buffer u) (chosen_word u) (mode_index u) (selected_mode u)
  (imposter_index u) (current_player u) (countdown_until u) (reveal_until u)
  (handoff_until u) (handoff_advance u) (handoff_pending_action u) v
  (all_imposter_except_first u) (random_candidates u) (random_filter u)
  (scroll_block_until u) (simple_candidates u) (simple_index u)
  (simple_hold_started u) (simple_hold_until u).
Definition set_all_imposter_except_first (v : bool) (u : UIState) : UIState :=
  mkUIState (screen u) (input_buffer u) (word_count_buffer u)
  (imposter_percent_buffer u) (player_count u) (word_options_count u)
  (word_buffer u) (chosen_word u) (mode_index u) (selected_mode u)
  (imposter_index u) (current_player u) (countdown_until u) (reveal_until u)
  (handoff_until u) (handoff_advance u) (handoff_pending_action u)
  (imposter_all_chance u) v (random_candidates u) (random_filter u)
  (scroll_block_until u) (simple_candidates u) (simple_index u)
  (simple_hold_started u) (simple_hold_until u).
Definition set_random_candidates (v : option (list string)) (u : UIState) : UIState :=
  mkUIState (screen u) (input_buffer u) (word_count_buffer u)
  (imposter_percent_buffer u) (player_count u) (word_options_count u)
  (word_buffer u) (chosen_word u) (mode_index u) (selected_mode u)
  (imposter_index u) (current_player u) (countdown_until u) (reveal_until u)
  (handoff_until u) (handoff_advance u) (handoff_pending_action u)
  (imposter_all_chance u) (all_imposter_except_first u) v (random_filter u)
  (scroll_block_until u) (simple_candidates u) (simple_index u)
  (simple_hold_started u) (simple_hold_until u).
Definition set_random_filter (v : string) (u : UIState) : UIState :=
  mkUIState (screen u) (input_buffer u) (word_count_buffer u)
  (imposter_percent_buffer u) (player_count u) (word_options_count u)
  (word_buffer u) (chosen_word u) (mode_index u) (selected_mode u)
  (imposter_index u) (current_player u) (countdown_until u) (reveal_until u)
  (handoff_until u) (handoff_advance u) (handoff_pending_action u)
  (imposter_all_chance u) (all_imposter_except_first u) (random_candidates u)
  v (scroll_block_until u) (simple_candidates u) (simple_index u)
  (simple_hold_started u) (simple_hold_until u).
Definition set_scroll_block_until (v : Q) (u : UIState) : UIState :=
  mkUIState (screen u) (input_buffer u) (word_count_buffer u)
  (imposter_percent_buffer u) (player_count u) (word_options_count u)
  (word_buffer u) (chosen_word u) (mode_index u) (selected_mode u)
  (imposter_index u) (current_player u) (countdown_until u) (reveal_until u)
  (handoff_until u) (handoff_advance u) (handoff_pending_action u)
  (imposter_all_chance u) (all_imposter_except_first u) (random_candidates u)
  (random_filter u) v (simple_candidates u) (simple_index u)
  (simple_hold_started u) (simple_hold_until u).
Definition set_simple_candidates (v : option (list string)) (u : UIState) : UIState :=
  mkUIState (screen u) (input_buffer u) (word_count_buffer u)
  (imposter_percent_buffer u) (player_count u) (word_options_count u)
  (word_buffer u) (chosen_word u) (mode_index u) (selected_mode u)
  (imposter_index u) (current_player u) (countdown_until u) (reveal_until u)
  (handoff_until u) (handoff_advance u) (handoff_pending_action u)
  (imposter_all_chance u) (all_imposter_except_first u) (random_candidates u)
  (random_filter u) (scroll_block_until u) v (simple_index u)
  (simple_hold_started u) (simple_hold_until u).
Definition set_simple_index (v : Z) (u : UIState) : UIState :=
  mkUIState (screen u) (input_buffer u) (word_count_buffer u)
  (imposter_percent_buffer u) (player_count u) (word_options_count u)
  (word_buffer u) (chosen_word u) (mode_index u) (selected_mode u)
  (imposter_index u) (current_player u) (countdown_until u) (reveal_until u)
  (handoff_until u) (handoff_advance u) (handoff_pending_action u)
  (imposter_all_chance u) (all_imposter_except_first u) (random_candidates u)
  (random_filter u) (scroll_block_until u) (simple_candidates u) v
  (simple_hold_started u) (simple_hold_until u).
Definition set_simple_hold_started (v : bool) (u : UIState) : UIState :=
  mkUIState (screen u) (input_buffer u) (word_count_buffer u)
  (imposter_percent_buffer u) (player_count u) (word_options_count u)
  (word_buffer u) (chosen_word u) (mode_index u) (selected_mode u)
  (imposter_index u) (current_player u) (countdown_until u) (reveal_until u)
  (handoff_until u) (handoff_advance u) (handoff_pending_action u)
  (imposter_all_chance u) (all_imposter_except_first u) (random_candidates u)
  (random_filter u) (scroll_block_until u) (simple_candidates u)
  (simple_index u) v (simple_hold_until u).
Definition set_simple_hold_until (v : Q) (u : UIState) : UIState :=
  mkUIState (screen u) (input_buffer u) (word_count_buffer u)
  (imposter_percent_buffer u) (player_count u) (word_options_count u)
  (word_buffer u) (chosen_word u) (mode_index u) (selected_mode u)
  (imposter_index u) (current_player u) (countdown_until u) (reveal_until u)
  (handoff_until u) (handoff_advance u) (handoff_pending_action u)
  (imposter_all_chance u) (all_imposter_except_first u) (random_candidates u)
  (random_filter u) (scroll_block_until u) (simple_candidates u)
  (simple_index u) (simple_hold_started u) v.


(** The defaults of the dataclass declarations. *)
Definition MessageBox_default : MessageBox :=
  mkMessageBox "Nachrichten" "Zum Starten scrollen.".

Definition BoxStyle_default : BoxStyle := mkBoxStyle 3 6 4.

Definition ScrollState_default : ScrollState :=
  mkScrollState false 0%Q None 0%Q.

Definition UIState_default : UIState :=
  mkUIState "idle" "" "" "" 0 0 "" "" 0 None None 0 0%Q 0%Q 0%Q true "" 0
            false None "" 0%Q None 0 false 0%Q.

(** ** The module state

    The four singletons and the word list [WORDS] of the module, followed
    by the environment: [rand_tape] holds the numbers the generator of
    [random] will produce, [mono_tape] the successive readings of
    [time.monotonic()].  [gestures] is a ghost log: [on_direction] appends
    the direction it was called with, nothing else writes it and nothing
    reads it. *)
Record State : Type := mkState {
  ui_state : UIState;
  scroll_state : ScrollState;
  message_box : MessageBox;
  box_style : BoxStyle;
  WORDS : list string;
  rand_tape : list N;
  mono_tape : list Q;
  gestures : list string
}.

Definition with_ui_state (v : UIState) (s : State) : State :=
  mkState v (scroll_state s) (message_box s) (box_style s) (WORDS s)
  (rand_tape s) (mono_tape s) (gestures s).
Definition with_scroll_state (v : ScrollState) (s : State) : State :=
  mkState (ui_state s) v (message_box s) (box_style s) (WORDS s)
  (rand_tape s) (mono_tape s) (gestures s).
Definition with_message_box (v : MessageBox) (s : State) : State :=
  mkState (ui_state s) (scroll_state s) v (box_style s) (WORDS s)
  (rand_tape s) (mono_tape s) (gestures s).
Definition with_box_style (v : BoxStyle) (s : State) : State :=
  mkState (ui_state s) (scroll_state s) (message_box s) v (WORDS s)
  (rand_tape s) (mono_tape s) (gestures s).
Definition with_rand_tape (v : list N) (s : State) : State :=
  mkState (ui_state s) (scroll_state s) (message_box s) (box_style s)
  (WORDS s) v (mono_tape s) (gestures s).
Definition with_mono_tape (v : list Q) (s : State) : State :=
  mkState (ui_state s) (scroll_state s) (message_box s) (box_style s)
  (WORDS s) (rand_tape s) v (gestures s).
Definition with_gestures (v : list string) (s : State) : State :=
  mkState (ui_state s) (scroll_state s) (message_box s) (box_style s)
  (WORDS s) (rand_tape s) (mono_tape s) v.


(** ** The monad of the module's procedures *)

Inductive Exn : Type := ValueError | IndexError.

Inductive Outcome (A : Type) : Type :=
| Done (a : A)
| Raised (e : Exn).

Arguments Done {A} a.
Arguments Raised {A} e.

Definition M (A : Type) : Type := State -> Outcome A * State.

Definition ret {A : Type} (a : A) : M A := fun s => (Done a, s).

Definition bind {A B : Type} (m : M A) (k : A -> M B) : M B :=
  fun s =>
    match m s with
    | (Done a, s') => k a s'
    | (Raised e, s') => (Raised e, s')
    end.

Definition raise {A : Type} (e : Exn) : M A := fun s => (Raised e, s).

Definition read {A : Type} (f : State -> A) : M A := fun s => (Done (f s), s).

Definition update (f : State -> State) : M unit := fun s => (Done tt, f s).

Declare Scope monad_scope.
Delimit Scope monad_scope with monad.
Notation "x <- m ;; k" := (bind m (fun x => k))
  (at level 61, m at next level, right associativity) : monad_scope.
Notation "m ;; k" := (bind m (fun _ => k))
  (at level 61, right associativity) : monad_scope.
Local Open Scope monad_scope.

(** [a == b] on strings. *)
Notation "a == b" := (String.eqb a b) (at level 70, no associativity).

(** The state a computation ends in, whether it returned or raised. *)
Definition final {A : Type} (r : Outcome A * State) : State := snd r.

(** Reading and assigning the fields of the singletons. *)
Definition ui : M UIState := read ui_state.

Definition ui_assign {T : Type} (set : T -> UIState -> UIState) (v : T) : M unit :=
  update (fun s => with_ui_state (set v (ui_state s)) s).

Definition scroll_assign {T : Type} (set : T -> ScrollState -> ScrollState) (v : T) : M unit :=
  update (fun s => with_scroll_state (set v (scroll_state s)) s).

Definition box_assign {T : Type} (set : T -> BoxStyle -> BoxStyle) (v : T) : M unit :=
  update (fun s => with_box_style (set v (box_style s)) s).

(** Ghost: append to the gesture log. *)
Definition gesture (direction : string) : M unit :=
  update (fun s => with_gestures (gestures s ++ [direction])%list s).

(** *** The environment: [random] and [time] *)

(** The next number of the generator (0 once the tape is used up). *)
Definition next_rand : M N :=
  fun s =>
    match rand_tape s with
    | [] => (Done 0%N, s)
    | n :: t => (Done n, with_rand_tape t s)
    end.

(** [random.randint(a, b)]: an integer of [a..b]; [ValueError] on an
    empty range. *)
Definition randint (a b : Z) : M Z :=
  if b <? a then raise ValueError
  else n <- next_rand ;; ret (a + Z.of_N n mod (b - a + 1)).

(** [random.choice(pool)]: [IndexError] on an empty sequence. *)
Definition choice (pool : list string) : M string :=
  match pool with
  | [] => raise IndexError
  | _ :: _ =>
      n <- next_rand ;;
      ret (nth (N.to_nat n mod List.length pool) pool "")
  end.

Definition remove_at {A : Type} (i : nat) (xs : list A) : list A :=
  (firstn i xs ++ skipn (S i) xs)%list.

Fixpoint sample_loop (pool : list string) (k : nat) : M (list string) :=
  match k with
  | O => ret []
  | S k' =>
      n <- next_rand ;;
      let i := (N.to_nat n mod List.length pool)%nat in
      rest <- sample_loop (remove_at i pool) k' ;;
      ret (nth i pool "" :: rest)
  end.

(** [random.sample(pool, k)]: [k] items drawn without replacement;
    [ValueError] when [k] is negative or exceeds the population. *)
Definition sample (pool : list string) (k : Z) : M (list string) :=
  if (k <? 0) || (Z.of_nat (List.length pool) <? k) then raise ValueError
  else sample_loop pool (Z.to_nat k).

(** [time.monotonic()]: the next reading of the clock. *)
Definition monotonic : M Q :=
  fun s =>
    match mono_tape s with
    | [] => (Done 0%Q, s)
    | t :: rest => (Done t, with_mono_tape rest s)
    end.

(** [xs[i]] on a list: negative indices count from the end,
    [IndexError] out of range. *)
Definition subscript {A : Type} (xs : list A) (i : Z) : M A :=
  let n := Z.of_nat (List.length xs) in
  let j := if i <? 0 then i + n else i in
  if (j <? 0) || (n <=? j) then raise IndexError
  else match nth_error xs (Z.to_nat j) with
       | Some x => ret x
       | None => raise IndexError
       end.

(** Comparisons of time stamps. *)
Definition Qltb (x y : Q) : bool := negb (Qle_bool y x).
Definition Qgeb (x y : Q) : bool := Qle_bool y x.

(** [int(x)] of a float: truncation towards zero. *)
Definition int_of_float (x : Q) : Z :=
  if Qle_bool 0 x then Qfloor x else Qceiling x.

(** ** Module constants *)

Definition GO_DIRECTION : string := "down".
Definition BACK_DIRECTION : string := "up".

Definition SCROLL_BUFFER_SECONDS : Q := 0.8.
Definition SCROLL_GAP_SECONDS : Q := SCROLL_BUFFER_SECONDS.
Definition MIN_SCROLL_INTERVAL : Q := SCROLL_BUFFER_SECONDS.

Definition DEFAULT_STYLE : BoxStyle := BoxStyle_default.
Definition IMPOSTER_STYLE : BoxStyle := mkBoxStyle 3 11 11.

Definition GAME_MODES : list GameMode :=
  [ mkGameMode "BACK" "Return to start." IMPOSTER_STYLE "back";
    mkGameMode "Player" "Spieler gibt Geheimwort ein." DEFAULT_STYLE "player";
    mkGameMode "Random" "Zufällige Wörter mit Suche." DEFAULT_STYLE "random";
    mkGameMode "Random Simple" "Wörter durchscrollen, unten wählen."
               DEFAULT_STYLE "random_simple" ].

(** The state at import time: the dataclass defaults, with the word list
    read from disk and the environment as given. *)
Definition initial_state (words : list string) (rand : list N) (mono : list Q) : State :=
  mkState UIState_default ScrollState_default MessageBox_default
          BoxStyle_default words rand mono [].

(** ** The procedures of [main.py] *)

Definition set_message_box_title (t : string) : M unit :=
  update (fun s => with_message_box (set_title t (message_box s)) s).

Definition set_message_box_text (t : string) : M unit :=
  update (fun s => with_message_box (set_text t (message_box s)) s).

Definition set_box_style (st : BoxStyle) : M unit :=
  box_assign set_fill_pair (fill_pair st) ;;
  box_assign set_text_pair (text_pair st) ;;
  box_assign set_border_pair (border_pair st).

Definition is_current_imposter : M bool :=
  u <- ui ;;
  if all_imposter_except_first u then
    if player_count u >? 1 then ret (negb (current_player u =? 0))
    else ret true
  else
    ret (match imposter_index u with
         | Some i => current_player u =? i
         | None => false
         end).

Definition update_scroll_state (now : Q) : M unit :=
  c <- read scroll_state ;;
  if active c && Qltb SCROLL_GAP_SECONDS (now - last_time c) then
    scroll_assign set_active false ;;
    scroll_assign set_last_direction None
  else ret tt.

Definition reset_idle : M unit :=
  ui_assign set_screen "idle" ;;
  ui_assign set_input_buffer "" ;;
  ui_assign set_word_count_buffer "" ;;
  ui_assign set_imposter_percent_buffer "" ;;
  ui_assign set_word_options_count 0 ;;
  ui_assign set_word_buffer "" ;;
  ui_assign set_player_count 0 ;;
  ui_assign set_chosen_word "" ;;
  ui_assign set_selected_mode None ;;
  ui_assign set_imposter_index None ;;
  ui_assign set_current_player 0 ;;
  ui_assign set_countdown_until 0%Q ;;
  ui_assign set_reveal_until 0%Q ;;
  ui_assign set_handoff_until 0%Q ;;
  ui_assign set_handoff_advance true ;;
  ui_assign set_handoff_pending_action "" ;;
  ui_assign set_imposter_all_chance 0 ;;
  ui_assign set_all_imposter_except_first false ;;
  ui_assign set_simple_hold_started false ;;
  ui_assign set_simple_hold_until 0%Q ;;
  ui_assign set_random_candidates (Some []) ;;
  ui_assign set_random_filter "" ;;
  set_box_style DEFAULT_STYLE ;;
  set_message_box_title "Imposter-CLI" ;;
  set_message_box_text "Zum Starten scrollen" ;;
  ui_assign set_simple_candidates (Some []) ;;
  ui_assign set_simple_index 0.

Definition enter_player_input : M unit :=
  ui_assign set_screen "player_input" ;;
  set_box_style DEFAULT_STYLE ;;
  u <- ui ;;
  let title := "Spieleranzahl eingeben" in
  let body := Py.or_else (input_buffer u) "Zahl tippen..." in
  set_message_box_title title ;;
  set_message_box_text body.

Definition enter_word_count_input : M unit :=
  ui_assign set_screen "word_count" ;;
  set_box_style DEFAULT_STYLE ;;
  u <- ui ;;
  let title := "Anzahl Wortoptionen" in
  let body := Py.or_else (word_count_buffer u) "Zahl tippen..." in
  set_message_box_title title ;;
  set_message_box_text body ;;
  u <- ui ;;
  ui_assign set_imposter_percent_buffer (Py.or_else (imposter_percent_buffer u) "").

Definition enter_imposter_percent_input : M unit :=
  ui_assign set_screen "imposter_percent" ;;
  set_box_style DEFAULT_STYLE ;;
  u <- ui ;;
  let title := "Prozent: alle sind Imposter" in
  let body := Py.or_else (imposter_percent_buffer u) "0-100 eingeben" in
  set_message_box_title title ;;
  set_message_box_text body.

(** Each [try: ... = f(int(buf)) except ValueError: ... = d] of
    [enter_confirm]. *)
Definition parse_or (buf : string) (f : Z -> Z) (d : Z) : Z :=
  match Py.int_of_string buf with
  | Some n => f n
  | None => d
  end.

Definition enter_confirm : M unit :=
  ui_assign set_screen "confirm" ;;
  u <- ui ;;
  ui_assign set_player_count
    (parse_or (input_buffer u) (fun n => Z.max 1 n) 1) ;;
  u <- ui ;;
  ui_assign set_word_options_count
    (parse_or (Py.or_else (word_count_buffer u) "0") (fun n => Z.max 0 n) 0) ;;
  u <- ui ;;
  ui_assign set_imposter_all_chance
    (parse_or (Py.or_else (imposter_percent_buffer u) "0")
              (fun n => Z.max 0 (Z.min 100 n)) 0) ;;
  set_box_style DEFAULT_STYLE ;;
  set_message_box_title "Passt" ;;
  u <- ui ;;
  set_message_box_text
    (Py.str (player_count u) ++ " Spieler, " ++
     Py.str (word_options_count u) ++ " Optionen, " ++
     Py.str (imposter_all_chance u) ++
     "% alle Imposter. Scrollen zum Start...").

Definition enter_word_entry : M unit :=
  ui_assign set_screen "word_entry" ;;
  set_box_style DEFAULT_STYLE ;;
  set_message_box_title "Geheimes Wort eingeben" ;;
  u <- ui ;;
  let display := if Py.truthy (word_buffer u) then word_buffer u
                 else "Wort tippen..." in
  set_message_box_text display.

Definition show_mode (index : Z) : M unit :=
  ui_assign set_mode_index (index mod Z.of_nat (List.length GAME_MODES)) ;;
  u <- ui ;;
  current <- subscript GAME_MODES (mode_index u) ;;
  set_box_style (style current) ;;
  set_message_box_title (name current) ;;
  set_message_box_text (description current).

Definition enter_modes : M unit :=
  ui_assign set_screen "mode_select" ;;
  u <- ui ;;
  (if mode_index u >=? Z.of_nat (List.length GAME_MODES)
   then ui_assign set_mode_index 0 else ret tt) ;;
  u <- ui ;;
  show_mode (mode_index u).

Definition start_handoff (now : Q) (advance_after : bool) (pending_action : string) : M unit :=
  ui_assign set_screen "handoff" ;;
  ui_assign set_handoff_until (now + 3)%Q ;;
  ui_assign set_handoff_advance advance_after ;;
  ui_assign set_handoff_pending_action pending_action ;;
  set_box_style DEFAULT_STYLE ;;
  set_message_box_title "Weitergeben" ;;
  set_message_box_text "Gebe das Gerät dem nächsten Spieler".

Definition select_mode : M unit :=
  u <- ui ;;
  current <- subscript GAME_MODES (mode_index u) ;;
  if source current == "back" then reset_idle
  else
    ui_assign set_selected_mode (Some current) ;;
    set_box_style (style current) ;;
    pending_action <-
      (if source current == "player" then
         ui_assign set_word_buffer "" ;; ret "enter_word_entry"
       else if source current == "random" then ret "start_random_flow"
       else if source current == "random_simple" then ret "start_random_simple"
       else ret "prepare_word_and_start") ;;
    now <- monotonic ;;
    start_handoff now false pending_action.

(** [xs or []] and the truth value of an optional list. *)
Definition or_empty (o : option (list string)) : list string :=
  match o with Some xs => xs | None => [] end.

Definition list_truthy (o : option (list string)) : bool :=
  match o with Some (_ :: _) => true | _ => false end.

Definition choose_word_for_source (source : string) : M string :=
  pool <- read WORDS ;;
  match pool with
  | [] => ret "mystery"
  | _ :: _ => choice pool
  end.

Definition mode_is (m : option GameMode) (src : string) : bool :=
  match m with Some g => source g == src | None => false end.

Definition assign_imposter : M unit :=
  u <- ui ;;
  if player_count u <=? 1 then
    ui_assign set_imposter_index None ;;
    ui_assign set_all_imposter_except_first false
  else
    ui_assign set_all_imposter_except_first false ;;
    roll <- randint 1 100 ;;
    u <- ui ;;
    if roll <=? imposter_all_chance u then
      ui_assign set_imposter_index None ;;
      ui_assign set_all_imposter_except_first true
    else if mode_is (selected_mode u) "player" then
      i <- randint 1 (player_count u - 1) ;;
      ui_assign set_imposter_index (Some i)
    else if mode_is (selected_mode u) "random" && (word_options_count u >? 1) then
      i <- randint 1 (player_count u - 1) ;;
      ui_assign set_imposter_index (Some i)
    else if mode_is (selected_mode u) "random_simple" && (word_options_count u >? 1) then
      i <- randint 1 (player_count u - 1) ;;
      ui_assign set_imposter_index (Some i)
    else
      i <- randint 0 (player_count u - 1) ;;
      ui_assign set_imposter_index (Some i).

Definition start_waiting : M unit :=
  ui_assign set_screen "wait_scroll" ;;
  u <- ui ;;
  let player_num := current_player u + 1 in
  set_box_style DEFAULT_STYLE ;;
  set_message_box_title "Wischen, um Wort zu erhalten" ;;
  set_message_box_text
    ("Spieler " ++ Py.str player_num ++ " von " ++ Py.str (player_count u)).

Definition start_reveal (now : Q) : M unit :=
  ui_assign set_screen "reveal" ;;
  ui_assign set_reveal_until (now + 3)%Q ;;
  imp <- is_current_imposter ;;
  if imp then
    set_box_style IMPOSTER_STYLE ;;
    set_message_box_title "Du bist der Imposter" ;;
    set_message_box_text "Lass dir nichts anmerken."
  else
    u <- ui ;;
    set_box_style (match selected_mode u with
                   | Some m => style m
                   | None => DEFAULT_STYLE
                   end) ;;
    set_message_box_title "Dein Wort" ;;
    set_message_box_text (Py.or_else (chosen_word u) "mystery").

Definition advance_player : M unit :=
  u <- ui ;;
  ui_assign set_current_player (current_player u + 1) ;;
  u <- ui ;;
  if current_player u >=? player_count u then
    ui_assign set_screen "done" ;;
    set_box_style DEFAULT_STYLE ;;
    set_message_box_title "Fertig" ;;
    set_message_box_text "Alle bereit – startet das Spiel!"
  else start_waiting.

Definition prepare_word_and_start : M unit :=
  u <- ui ;;
  match selected_mode u with
  | None => ret tt
  | Some mode =>
      (if source mode == "player" then
         ui_assign set_chosen_word (Py.or_else (word_buffer u) "mystery")
       else if (source mode == "random") && Py.truthy (chosen_word u) then ret tt
       else if (source mode == "random_simple") && Py.truthy (chosen_word u) then ret tt
       else
         w <- choose_word_for_source (source mode) ;;
         ui_assign set_chosen_word w) ;;
      ui_assign set_current_player 0 ;;
      assign_imposter ;;
      u <- ui ;;
      if (word_options_count u >? 1) && (player_count u >? 1)
         && (current_player u =? 0)
      then now <- monotonic ;; start_handoff now true ""
      else if word_options_count u >? 1
      then now <- monotonic ;; start_reveal now
      else start_waiting
  end.

Definition best_random_choice : M string :=
  u <- ui ;;
  match or_empty (random_candidates u) with
  | [] => choose_word_for_source "random"
  | c :: cs => ret (Fuzzy.best c cs (random_filter u))
  end.

Definition enter_random_pick : M unit :=
  ui_assign set_screen "random_pick" ;;
  set_box_style IMPOSTER_STYLE ;;
  top <- best_random_choice ;;
  u <- ui ;;
  let others := if list_truthy (random_candidates u)
                then Py.join " " (or_empty (random_candidates u))
                else "keine" in
  let title := if Py.truthy (random_filter u) then Py.upper top
               else "Start Typing" in
  set_message_box_title title ;;
  set_message_box_text others.

Definition start_random_flow : M unit :=
  u <- ui ;;
  if word_options_count u <=? 1 then
    w <- choose_word_for_source "random" ;;
    ui_assign set_chosen_word w ;;
    ui_assign set_random_candidates (Some []) ;;
    ui_assign set_random_filter "" ;;
    prepare_word_and_start
  else
    words <- read WORDS ;;
    cs <- sample words (Z.min (word_options_count u) (Z.of_nat (List.length words))) ;;
    ui_assign set_random_candidates (Some cs) ;;
    ui_assign set_random_filter "" ;;
    enter_random_pick.

Definition enter_random_simple (now : option Q) : M unit :=
  now <- match now with
         | None => monotonic
         | Some t => ret t
         end ;;
  ui_assign set_screen "random_simple" ;;
  set_box_style IMPOSTER_STYLE ;;
  u <- ui ;;
  word <- (if list_truthy (simple_candidates u)
           then subscript (or_empty (simple_candidates u)) (simple_index u)
           else ret "...") ;;
  set_message_box_title (Py.upper word) ;;
  u <- ui ;;
  if simple_hold_started u && Qltb 0 (simple_hold_until u) then
    let remaining :=
      Z.max 0 (int_of_float (simple_hold_until u - now + 0.999)%Q) in
    set_message_box_text ("Auswahl in " ++ Py.str remaining ++ " sek")
  else set_message_box_text "Scrollen zum Durchblättern".

Definition start_random_simple : M unit :=
  u <- ui ;;
  if word_options_count u <=? 1 then
    w <- choose_word_for_source "random" ;;
    ui_assign set_chosen_word w ;;
    ui_assign set_simple_candidates (Some []) ;;
    ui_assign set_simple_index 0 ;;
    prepare_word_and_start
  else
    words <- read WORDS ;;
    let pool_size := Z.of_nat (List.length words) in
    let count := if word_options_count u >? 0 then word_options_count u
                 else pool_size in
    let count := Z.max 1 (Z.min count pool_size) in
    cs <- sample words count ;;
    ui_assign set_simple_candidates (Some cs) ;;
    ui_assign set_simple_index 0 ;;
    ui_assign set_simple_hold_started false ;;
    ui_assign set_simple_hold_until 0%Q ;;
    enter_random_simple None.

Definition lock_random_choice : M unit :=
  w <- best_random_choice ;;
  ui_assign set_chosen_word w ;;
  ui_assign set_random_filter "" ;;
  ui_assign set_random_candidates (Some []) ;;
  prepare_word_and_start.

Definition lock_random_simple_choice : M unit :=
  u <- ui ;;
  (if negb (list_truthy (simple_candidates u)) then
     w <- choose_word_for_source "random" ;;
     ui_assign set_chosen_word w
   else
     w <- subscript (or_empty (simple_candidates u)) (simple_index u) ;;
     ui_assign set_chosen_word w) ;;
  ui_assign set_simple_hold_started false ;;
  ui_assign set_simple_hold_until 0%Q ;;
  prepare_word_and_start.

Definition update_timers (now : Q) : M unit :=
  u <- ui ;;
  if (screen u == "random_simple") && simple_hold_started u
     && Qltb 0 (simple_hold_until u) && Qgeb now (simple_hold_until u)
  then lock_random_simple_choice
  else if (screen u == "reveal") && Qgeb now (reveal_until u) then
    if current_player u + 1 >=? player_count u then
      advance_player ;;
      ui_assign set_scroll_block_until (now + 1)%Q
    else
      start_handoff now true "" ;;
      ui_assign set_scroll_block_until (now + 1)%Q
  else if (screen u == "handoff") && Qgeb now (handoff_until u) then
    (if Py.truthy (handoff_pending_action u) then
       let action := handoff_pending_action u in
       ui_assign set_handoff_pending_action "" ;;
       if action == "enter_word_entry" then enter_word_entry
       else if action == "start_random_flow" then start_random_flow
       else if action == "start_random_simple" then start_random_simple
       else if action == "prepare_word_and_start" then prepare_word_and_start
       else ret tt
     else if handoff_advance u then advance_player
     else start_waiting) ;;
    ui_assign set_scroll_block_until (now + 1)%Q
  else ret tt.

Definition on_direction (direction : string) : M unit :=
  gesture direction ;;
  u <- ui ;;
  if screen u == "handoff" then ret tt
  else if screen u == "wait_scroll" then
    now <- monotonic ;; start_reveal now
  else if screen u == "reveal" then
    if current_player u + 1 >=? player_count u then advance_player
    else
      now <- monotonic ;;
      start_handoff now true "" ;;
      ui_assign set_scroll_block_until (now + 1)%Q
  else if screen u == "done" then enter_modes
  else if screen u == "random_simple" then
    if (direction == GO_DIRECTION) || (direction == BACK_DIRECTION) then
      words <- read WORDS ;;
      let length := if list_truthy (simple_candidates u)
                    then Z.of_nat (List.length (or_empty (simple_candidates u)))
                    else Z.of_nat (List.length words) in
      let length := Z.max 1 length in
      let delta := if direction == GO_DIRECTION then 1 else -1 in
      ui_assign set_simple_index ((simple_index u + delta) mod length) ;;
      ui_assign set_simple_hold_started true ;;
      t <- monotonic ;;
      ui_assign set_simple_hold_until (t + 5)%Q ;;
      t' <- monotonic ;;
      enter_random_simple (Some t')
    else ret tt
  else if direction == GO_DIRECTION then
    if screen u == "idle" then enter_player_input
    else if screen u == "player_input" then
      if Py.truthy (input_buffer u) then enter_word_count_input else ret tt
    else if screen u == "word_count" then enter_imposter_percent_input
    else if screen u == "imposter_percent" then enter_confirm
    else if screen u == "confirm" then enter_modes
    else if screen u == "mode_select" then select_mode
    else if screen u == "word_entry" then
      if Py.truthy (word_buffer u) then prepare_word_and_start else ret tt
    else if screen u == "random_pick" then lock_random_choice
    else ret tt
  else if direction == BACK_DIRECTION then
    if screen u == "player_input" then reset_idle
    else if screen u == "confirm" then enter_imposter_percent_input
    else if screen u == "mode_select" then show_mode (mode_index u - 1)
    else if screen u == "word_entry" then enter_modes
    else if screen u == "word_count" then enter_player_input
    else if screen u == "imposter_percent" then enter_word_count_input
    else if screen u == "random_pick" then enter_modes
    else ret tt
  else ret tt.

(** [direction != scroll_state.last_direction] *)
Definition differs (direction : string) (last : option string) : bool :=
  match last with
  | Some d => negb (direction == d)
  | None => true
  end.

Definition handle_scroll (direction : string) (now : Q) : M unit :=
  c <- read scroll_state ;;
  if Qltb (now - last_trigger_time c) MIN_SCROLL_INTERVAL then ret tt
  else
    u <- ui ;;
    if Qltb now (scroll_block_until u) then ret tt
    else
      (if negb (active c) then
         scroll_assign set_active true ;;
         scroll_assign set_last_direction (Some direction) ;;
         on_direction direction
       else
         c <- read scroll_state ;;
         if differs direction (last_direction c)
            || Qltb SCROLL_GAP_SECONDS (now - last_time c)
         then
           on_direction direction ;;
           scroll_assign set_last_direction (Some direction)
         else ret tt) ;;
      scroll_assign set_last_time now ;;
      scroll_assign set_last_trigger_time now.

(** The part of [render] that writes to the module state; the drawing
    itself goes to the terminal only. *)
Definition render : M unit :=
  now <- monotonic ;;
  u <- ui ;;
  (if (screen u == "random_simple") && simple_hold_started u
      && Qltb 0 (simple_hold_until u)
   then
     let remaining :=
       Z.max 0 (int_of_float (simple_hold_until u - now + 0.999)%Q) in
     set_message_box_text ("Auswahl in " ++ Py.str remaining ++ " sek")
   else ret tt) ;;
  (if (screen u == "random_pick") && Py.truthy (random_filter u)
   then best_random_choice ;; ret tt
   else ret tt) ;;
  (if screen u == "reveal" then
     imp <- is_current_imposter ;;
     if imp then set_box_style IMPOSTER_STYLE else ret tt
   else ret tt).

(** Key codes of curses. *)
Definition KEY_DOWN : Z := 258.
Definition KEY_UP : Z := 259.
Definition KEY_BACKSPACE : Z := 263.
Definition KEY_MOUSE : Z := 409.
Definition KEY_RESIZE : Z := 410.

Definition is_enter (ch : Z) : bool := (ch =? 10) || (ch =? 13).

Definition is_backspace (ch : Z) : bool :=
  (ch =? KEY_BACKSPACE) || (ch =? 127) || (ch =? 8).

Definition is_digit (ch : Z) : bool := (48 <=? ch) && (ch <=? 57).

Definition is_printable (ch : Z) : bool := (32 <=? ch) && (ch <=? 126).

(** [chr(ch)] and [s[:-1]] *)
Definition chr (ch : Z) : string := String (ascii_of_nat (Z.to_nat ch)) "".

Definition drop_last (s : string) : string :=
  substring 0 (String.length s - 1) s.

(** The screens on which Enter is turned into a forward pulse. *)
Definition enter_scrolls (scr : string) : bool :=
  (scr == "wait_scroll") || (scr == "reveal") || (scr == "done")
  || (scr == "player_input") || (scr == "word_count")
  || (scr == "imposter_percent") || (scr == "confirm")
  || (scr == "mode_select") || (scr == "word_entry").

(** The keys that are not scroll pulses: Enter and the typed characters. *)
Definition handle_key (ch : Z) (now : Q) : M unit :=
  u <- ui ;;
  if is_enter ch && enter_scrolls (screen u) then handle_scroll GO_DIRECTION now
  else if is_enter ch && (screen u == "random_pick") then lock_random_choice
  else if (screen u == "player_input") && is_backspace ch then
    ui_assign set_input_buffer (drop_last (input_buffer u)) ;;
    enter_player_input
  else if (screen u == "player_input") && is_digit ch then
    ui_assign set_input_buffer (input_buffer u ++ chr ch) ;;
    enter_player_input
  else if (screen u == "word_count") && is_backspace ch then
    ui_assign set_word_count_buffer (drop_last (word_count_buffer u)) ;;
    enter_word_count_input
  else if (screen u == "word_count") && is_digit ch then
    ui_assign set_word_count_buffer (word_count_buffer u ++ chr ch) ;;
    enter_word_count_input
  else if (screen u == "imposter_percent") && is_backspace ch then
    ui_assign set_imposter_percent_buffer
              (drop_last (imposter_percent_buffer u)) ;;
    enter_imposter_percent_input
  else if (screen u == "imposter_percent") && is_digit ch then
    ui_assign set_imposter_percent_buffer
              (imposter_percent_buffer u ++ chr ch) ;;
    enter_imposter_percent_input
  else if (screen u == "word_entry") && is_backspace ch then
    ui_assign set_word_buffer (drop_last (word_buffer u)) ;;
    enter_word_entry
  else if (screen u == "word_entry") && is_printable ch then
    ui_assign set_word_buffer (word_buffer u ++ chr ch) ;;
    enter_word_entry
  else if (screen u == "random_pick") && is_backspace ch then
    ui_assign set_random_filter (drop_last (random_filter u)) ;;
    enter_random_pick
  else if (screen u == "random_pick") && is_enter ch then lock_random_choice
  else if (screen u == "random_pick") && is_printable ch then
    ui_assign set_random_filter (random_filter u ++ chr ch) ;;
    enter_random_pick
  else ret tt.

(** One turn of the loop of [run].  [now] is the clock reading taken at
    the top of the loop, [ch] the value of [getch()] ([-1] when no key is
    waiting); for [KEY_MOUSE], [mouse] is what [getmouse()] gives: [None]
    when it raises [curses.error], otherwise whether the button state has
    [BUTTON4_PRESSED] and whether it has [BUTTON5_PRESSED]. *)
Definition run_iteration (now : Q) (ch : Z) (mouse : option (bool * bool)) : M unit :=
  update_scroll_state now ;;
  update_timers now ;;
  render ;;
  if ch =? -1 then ret tt
  else if ch =? KEY_RESIZE then ret tt
  else if (ch =? KEY_DOWN) || (ch =? KEY_UP) then
    let direction := if ch =? KEY_DOWN then GO_DIRECTION else BACK_DIRECTION in
    handle_scroll direction now
  else if ch =? KEY_MOUSE then
    match mouse with
    | None => ret tt
    | Some (button4, button5) =>
        if button4 then handle_scroll "up" now
        else if button5 then handle_scroll "down" now
        else ret tt
    end
  else handle_key ch now.

(** Successive turns of the loop; an exception ends the process. *)
Fixpoint run_iterations (events : list (Q * Z * option (bool * bool))) : M unit :=
  match events with
  | [] => ret tt
  | (now, ch, mouse) :: rest =>
      run_iteration now ch mouse ;; run_iterations rest
  end.

(** The state after the call of [reset_idle] that opens [run]. *)
Definition startup_state (words : list string) (rand : list N) (mono : list Q) : State :=
  final (reset_idle (initial_state words rand mono)).

(** Shorthands for the turns of the loop. *)
Definition tick (now : Q) : Q * Z * option (bool * bool) := (now, -1, None).
Definition key (now : Q) (ch : Z) : Q * Z * option (bool * bool) := (now, ch, None).

(** ** [load_words]

    [raw_lines] is [path.read_text(encoding="utf-8").splitlines()], [None]
    when reading raises [OSError].  The set [seen] is kept as a list. *)

Definition mem (word : string) (seen : list string) : bool :=
  existsb (String.eqb word) seen.

Fixpoint load_words_loop (raw_lines words seen : list string) : list string :=
  match raw_lines with
  | [] => words
  | line :: rest =>
      let word := Py.strip line in
      if negb (Py.truthy word) || mem word seen
      then load_words_loop rest words seen
      else load_words_loop rest (words ++ [word])%list (word :: seen)
  end.

Definition load_words (raw_lines : option (list string)) : list string :=
  match raw_lines with
  | None => []
  | Some lines => load_words_loop lines [] []
  end.

(** ** [wrap_text] *)

(** [s.split(" ")]: the pieces between single spaces, empty pieces
    included. *)
Fixpoint split_spaces (s : string) : list string :=
  match s with
  | EmptyString => [""]
  | String c s' =>
      if Ascii.eqb c " " then "" :: split_spaces s'
      else match split_spaces s' with
           | w :: ws => String c w :: ws
           | [] => [String c ""]
           end
  end.

(** The line boundaries of [str.splitlines] among the code points below
    256: LF, VT, FF, CR, FS, GS, RS and NEL. *)
Definition is_line_boundary (c : ascii) : bool :=
  let n := nat_of_ascii c in
  ((10 <=? n) && (n <=? 13) || (28 <=? n) && (n <=? 30) || (n =? 133))%nat.

(** [s.splitlines()]: CR LF is one boundary, and a boundary at the end
    opens no further line. *)
Fixpoint splitlines (s : string) : list string :=
  match s with
  | EmptyString => []
  | String c s' =>
      if Ascii.eqb c "013" then
        match s' with
        | String c' s'' =>
            if Ascii.eqb c' "010" then "" :: splitlines s''
            else "" :: splitlines s'
        | EmptyString => [""]
        end
      else if is_line_boundary c then "" :: splitlines s'
      else match splitlines s' with
           | l :: ls => String c l :: ls
           | [] => [String c ""]
           end
  end.

(** [word[i : i + width] for i in range(0, len(word), width)]; the loop
    makes at most [len(word)] turns. *)
Fixpoint chunks_from (turns : nat) (word : string) (i width : nat) : list string :=
  match turns with
  | O => []
  | S turns' =>
      if (i <? String.length word)%nat
      then substring i width word :: chunks_from turns' word (i + width) width
      else []
  end.

Definition chunks (word : string) (width : nat) : list string :=
  chunks_from (String.length word) word 0 width.

(** The second chunk loop of [wrap_text]: full chunks become lines, the
    first shorter one becomes the current line and ends the loop. *)
Fixpoint place_chunks (cs : list string) (width : nat) (lines : list string)
  : list string * string :=
  match cs with
  | [] => (lines, "")
  | chunk :: rest =>
      if (String.length chunk =? width)%nat
      then place_chunks rest width (lines ++ [chunk])%list
      else (lines, chunk)
  end.

(** One turn of the loop over the words of a raw line. *)
Definition wrap_word (width : Z) (st : list string * string) (word : string)
  : list string * string :=
  let '(lines, current) := st in
  if negb (Py.truthy current) then
    if Py.len word <=? width then (lines, word)
    else ((lines ++ chunks word (Z.to_nat width))%list, "")
  else if Py.len current + 1 + Py.len word <=? width then
    (lines, current ++ " " ++ word)
  else
    let lines := (lines ++ [current])%list in
    if Py.len word <=? width then (lines, word)
    else place_chunks (chunks word (Z.to_nat width)) (Z.to_nat width) lines.

(** One turn of the loop over the raw lines. *)
Definition wrap_raw_line (width : Z) (lines : list string) (raw_line : string)
  : list string :=
  let '(lines, current) :=
    fold_left (wrap_word width) (split_spaces raw_line) (lines, "") in
  if Py.truthy current then (lines ++ [current])%list else lines.

Definition wrap_text (text : string) (width : Z) : list string :=
  if width <=? 0 then [text]
  else
    let raw_lines := match splitlines text with
                     | [] => [""]
                     | ls => ls
                     end in
    match fold_left (wrap_raw_line width) raw_lines [] with
    | [] => [""]
    | lines => lines
    end.

(** ** The geometry of [draw_message_box]

    What [draw_message_box] computes from the size [h], [w] of the window
    and from the message before it draws; the drawing itself goes to the
    terminal and is not modelled. *)

Record BoxGeometry : Type := mkBoxGeometry {
  lines : list string;
  box_width : Z;
  box_height : Z;
  start_y : Z;
  start_x : Z
}.

(** [max((len(line) for line in lines), default=0)] *)
Definition max_len (ls : list string) : Z :=
  match ls with
  | [] => 0
  | l :: ls' => fold_left (fun m x => Z.max m (Py.len x)) ls' (Py.len l)
  end.

Definition message_box_geometry (h w : Z) (mb : MessageBox) : BoxGeometry :=
  let padding_x := 4 in
  let wrap_width := Z.max 10 (w - 10) in
  let lines := wrap_text (text mb) wrap_width in
  let content_width := Z.max (Py.len (title mb)) (max_len lines) in
  let max_width := Z.max 10 (w - 4) in
  let box_width := Z.min max_width (Z.max 20 (content_width + padding_x * 2)) in
  let box_height := Z.max 7 (6 + Z.of_nat (List.length lines)) in
  let start_y := Z.max 1 ((h - box_height) / 2) in
  let start_x := Z.max 1 ((w - box_width) / 2) in
  mkBoxGeometry lines box_width box_height start_y start_x.

(** [s[:n]] *)
Definition slice_to (n : Z) (s : string) : string :=
  if n <? 0 then substring 0 (Z.to_nat (Py.len s + n)) s
  else substring 0 (Z.to_nat n) s.

(** [line_x] of the loop that writes the body. *)
Definition line_x (g : BoxGeometry) (line : string) : Z :=
  start_x g + (box_width g - Py.len line) / 2.

(** * Vocabulary of the statements *)

(** ** The order on scores *)

Module FuzzyOrder.
Import Fuzzy.

(** The lexicographic order on scores, stated on its own. *)
Definition lex_lt (a b : Score) : Prop :=
  let '(a1, a2, a3, a4, a5) := a in
  let '(b1, b2, b3, b4, b5) := b in
  a1 < b1 \/ (a1 = b1 /\
  (a2 < b2 \/ (a2 = b2 /\
  (a3 < b3 \/ (a3 = b3 /\
  (a4 < b4 \/ (a4 = b4 /\ a5 < b5))))))).

Definition lex_le (a b : Score) : Prop := lex_lt a b \/ a = b.

(** [b] is the first maximum of [l] for the key [k]: what stands before
    it is strictly smaller, what stands after it is not greater. *)
Definition first_max (k : string -> Score) (l : list string) (b : string) : Prop :=
  exists l1 l2,
    l = (l1 ++ b :: l2)%list /\
    (forall w, In w l1 -> lex_lt (k w) (k b)) /\
    (forall w, In w l2 -> lex_le (k w) (k b)).

(** [k] is the largest number such that the last [k] characters of the
    filter [f] pass [test] (0 when none does). *)
Definition longest_tail (test : string -> bool) (f : string) (k : nat) : Prop :=
  (k <= String.length f)%nat /\
  (k <> O -> test (Py.last_chars k f) = true) /\
  (forall j, (k < j <= String.length f)%nat -> test (Py.last_chars j f) = false).

(** [f] and [w] agree on their first [n] characters and not on the next. *)
Definition common_prefix_length (f w : string) (n : nat) : Prop :=
  substring 0 n f = substring 0 n w /\
  (n <= String.length f)%nat /\ (n <= String.length w)%nat /\
  (String.get n f = None \/ String.get n w = None \/
   String.get n f <> String.get n w).

(** [w] without its first [n] characters. *)
Fixpoint drop (n : nat) (w : string) : string :=
  match n, w with
  | O, _ => w
  | S _, EmptyString => EmptyString
  | S k, String _ w' => drop k w'
  end.

(** What is left of [w] after the first occurrence of [ch], if any. *)
Fixpoint after_first (ch : ascii) (w : string) : option string :=
  match w with
  | EmptyString => None
  | String c w' => if Ascii.eqb c ch then Some w' else after_first ch w'
  end.

(** Greedy subsequence matching: each character of the filter, in order,
    is matched to its next occurrence in what is left of the word; a
    character that does not occur there is skipped. *)
Fixpoint greedy_matches (f w : string) : Z :=
  match f with
  | EmptyString => 0
  | String ch f' =>
      match after_first ch w with
      | Some rest => 1 + greedy_matches f' rest
      | None => greedy_matches f' w
      end
  end.

(** The five components of the key of [word] for the lower-cased filter
    [f], as the spec words them. *)
Definition score_meaning (f word : string) (sc : Score) : Prop :=
  exists tail_pref tail_any prefix : nat,
    sc = (Z.of_nat tail_pref, Z.of_nat tail_any, Z.of_nat prefix,
          greedy_matches f (Py.lower word), - Py.len word) /\
    longest_tail (Py.startswith (Py.lower word)) f tail_pref /\
    longest_tail (fun x => Py.contains x (Py.lower word)) f tail_any /\
    common_prefix_length f (Py.lower word) prefix.

End FuzzyOrder.

(** ** Observations on states and runs *)

(** The session fields after [reset_idle]: the defaults of the dataclass,
    with the two candidate lists empty, and with [mode_index] and
    [scroll_block_until] as given. *)
Definition idle_session (mode_index : Z) (scroll_block_until : Q) : UIState :=
  mkUIState "idle" "" "" "" 0 0 "" "" mode_index None None 0 0%Q 0%Q 0%Q
            true "" 0 false (Some []) "" scroll_block_until (Some []) 0
            false 0%Q.

(** What the session procedures cannot reach: the debouncer's record, the
    gesture log and the word list. *)
Definition frame (s : State) : ScrollState * list string * list string :=
  (scroll_state s, gestures s, WORDS s).

(** [m] leaves the frame as it found it, whether it returns or raises. *)
Definition Keeps {A : Type} (m : M A) : Prop :=
  forall s, frame (final (m s)) = frame s.

(** The two guards that open [handle_scroll]. *)
Definition rejected (s : State) (now : Q) : Prop :=
  (now - last_trigger_time (scroll_state s) < MIN_SCROLL_INTERVAL)%Q \/
  (now < scroll_block_until (ui_state s))%Q.

(** Past the guards, the pulse is handed to [on_direction] unless it
    continues an active scroll: same direction, gap not exceeded. *)
Definition starts_gesture (s : State) (direction : string) (now : Q) : Prop :=
  active (scroll_state s) = false \/
  last_direction (scroll_state s) <> Some direction \/
  (SCROLL_GAP_SECONDS < now - last_time (scroll_state s))%Q.

(** The time of the last accepted trigger. *)
Definition trigger_time (s : State) : Q := last_trigger_time (scroll_state s).

(** [m] emits nothing and keeps the trigger time when started less than
    0.8s after the last accepted trigger. *)
Definition Quiet {A : Type} (now : Q) (m : M A) : Prop :=
  forall s,
    (now - trigger_time s < MIN_SCROLL_INTERVAL)%Q ->
    gestures (final (m s)) = gestures s /\
    trigger_time (final (m s)) = trigger_time s.

(** The clock reading of a turn of the loop. *)
Definition event_time (ev : Q * Z * option (bool * bool)) : Q := fst (fst ev).

(** The value [randint(a, b)] takes on a given tape of the generator. *)
Definition draw (a b : Z) (tape : list N) : Z :=
  a + Z.of_N (hd 0%N tape) mod (b - a + 1).

(** The modes in which player 0 cannot be the single imposter. *)
Definition first_player_spared (u : UIState) : bool :=
  mode_is (selected_mode u) "player"
  || ((mode_is (selected_mode u) "random"
       || mode_is (selected_mode u) "random_simple")
      && (word_options_count u >? 1)).

(** The items [random.sample] picks on a given tape of the generator. *)
Fixpoint sample_from (pool : list string) (k : nat) (tape : list N) : list string :=
  match k with
  | O => []
  | S k' =>
      let i := (N.to_nat (hd 0%N tape) mod List.length pool)%nat in
      nth i pool "" :: sample_from (remove_at i pool) k' (tl tape)
  end.

(** ** Scenarios *)

(** The session at start-up, with an empty word list. *)
Definition fresh : State := startup_state [] [] [].

(** After a first arrow-down at time 10. *)
Definition after_first_pulse : State :=
  final (run_iteration 10 KEY_DOWN None fresh).

(** Three arrow-down pulses, each less than 0.8s after the one before. *)
Definition rapid_run : list (Q * Z * option (bool * bool)) :=
  [ key 10 KEY_DOWN; key 10.5 KEY_DOWN; key 11 KEY_DOWN ].

(** The filtered pick of the scenario of the spec. *)
Definition pick_state : State :=
  with_ui_state
    (set_random_filter "ap"
       (set_random_candidates (Some ["apple"; "apricot"; "banana"])
          (set_screen "random_pick" (ui_state fresh))))
    fresh.

(** A session in the middle of a round: mode selection on its third
    entry, gestures blocked until time 7. *)
Definition mid_round : State :=
  with_ui_state
    (set_mode_index 2
       (set_scroll_block_until 7
          (set_player_count 4 (set_screen "mode_select" (ui_state fresh)))))
    fresh.

(** A whole round for one player, played from start-up with the word list
    [apple]: set-up (one player), mode Random Simple, hand-off, reveal,
    done, then back through the mode list to BACK.  [round_clock] holds
    the readings of the clock taken on the way. *)
Definition round_keys : list (Q * Z * option (bool * bool)) :=
  [ key 10 KEY_DOWN; key 11 49; key 12 KEY_DOWN; key 13 KEY_DOWN;
    key 14 KEY_DOWN; key 15 KEY_DOWN; key 16 KEY_UP; key 17 KEY_DOWN;
    tick 20; key 21 KEY_DOWN; tick 24; key 25 KEY_DOWN; key 26 KEY_UP;
    key 27 KEY_UP; key 28 KEY_UP; key 29 KEY_DOWN ].

Definition round_clock : list Q :=
  [10; 11; 12; 13; 14; 15; 16; 17; 17; 20; 21; 21; 24; 25; 26; 27; 28; 29]%Q.

Definition after_round : State :=
  final (run_iterations round_keys (startup_state ["apple"] [] round_clock)).

(** Set-up with an empty word list (no words.txt): three players, two
    word options, then mode Random Simple. *)
Definition empty_pool_keys : list (Q * Z * option (bool * bool)) :=
  [ key 10 KEY_DOWN; key 11 51; key 12 10; key 13 50; key 14 KEY_DOWN;
    key 15 KEY_DOWN; key 16 KEY_DOWN; key 17 KEY_UP; key 18 KEY_DOWN ].

Definition empty_pool_clock : list Q :=
  [10; 11; 12; 13; 14; 15; 16; 17; 18; 18]%Q.

Definition empty_pool_handoff : State :=
  final (run_iterations empty_pool_keys (startup_state [] [] empty_pool_clock)).

(** The reveal screen of the last of four players, entered at time 30. *)
Definition last_reveal : State :=
  with_ui_state
    (set_reveal_until 33
       (set_current_player 3
          (set_player_count 4 (set_screen "reveal" (ui_state fresh)))))
    fresh.

(** Buffers that [int] rejects. *)
Definition bad_buffers : State :=
  with_ui_state
    (set_input_buffer "4a"
       (set_word_count_buffer "_1"
          (set_imposter_percent_buffer "1__0" (ui_state fresh))))
    fresh.

(** Four players in mode player, chance 30, generator giving 56 then 7. *)
Definition four_players : State :=
  with_rand_tape [56%N; 7%N]
    (with_ui_state
       (set_selected_mode (nth_error GAME_MODES 1)
          (set_imposter_all_chance 30
             (set_player_count 4 (ui_state fresh))))
       fresh).

(** ** Indexing invariant of the session *)

(** What the subscripts of the program rely on: [mode_index] is a position
    of [GAME_MODES], [simple_index] is a position of the browse list when
    that list is not empty, and the word list is not empty. *)
Definition well_indexed (s : State) : Prop :=
  0 <= mode_index (ui_state s) < Z.of_nat (List.length GAME_MODES) /\
  (list_truthy (simple_candidates (ui_state s)) = true ->
   0 <= simple_index (ui_state s)
     < Z.of_nat (List.length (or_empty (simple_candidates (ui_state s))))) /\
  WORDS s <> [].

(** Started in [s], [m] returns, in a well-indexed state. *)
Definition SafeAt {A : Type} (s : State) (m : M A) : Prop :=
  exists a s', m s = (Done a, s') /\ well_indexed s'.

(** [m] returns from every well-indexed state, in a well-indexed state. *)
Definition Safe {A : Type} (m : M A) : Prop :=
  forall s, well_indexed s -> SafeAt s m.

(** ** Properties kept by a procedure *)

(** [m] keeps [P], whether it returns or raises. *)
Definition Maintains {A : Type} (P : State -> Prop) (m : M A) : Prop :=
  forall s, P s -> P (final (m s)).

(** ** Roles, buffers and timing *)

(** Whether player [p] is shown the imposter screen: the answer of
    [is_current_imposter] when it is the turn of [p]. *)
Definition imposter_at (s : State) (p : Z) : bool :=
  match fst (is_current_imposter
               (with_ui_state (set_current_player p (ui_state s)) s)) with
  | Done b => b
  | Raised _ => false
  end.

(** Whether every character of the string has its code between [lo] and
    [hi]. *)
Fixpoint all_between (lo hi : Z) (s : string) : bool :=
  match s with
  | EmptyString => true
  | String c s' =>
      let n := Z.of_nat (nat_of_ascii c) in
      (lo <=? n) && (n <=? hi) && all_between lo hi s'
  end.

(** The three numeric buffers hold decimal digits only, the word and the
    filter printable ASCII only. *)
Definition typed_buffers (s : State) : Prop :=
  let u := ui_state s in
  all_between 48 57 (input_buffer u) = true /\
  all_between 48 57 (word_count_buffer u) = true /\
  all_between 48 57 (imposter_percent_buffer u) = true /\
  all_between 32 126 (word_buffer u) = true /\
  all_between 32 126 (random_filter u) = true.

(** The two time stamps of the debouncer agree. *)
Definition times_agree (s : State) : Prop :=
  last_time (scroll_state s) = last_trigger_time (scroll_state s).

(** The list without its repetitions, each word at its first place: the
    head is kept and its later copies are removed from the rest. *)
Fixpoint dedup_first (l : list string) : list string :=
  match l with
  | [] => []
  | x :: t => x :: filter (fun y => negb (String.eqb y x)) (dedup_first t)
  end.

(** [m] returns from every state. *)
Definition Returns {A : Type} (m : M A) : Prop :=
  forall s, exists a s', m s = (Done a, s').

(** The last step of [prepare_word_and_start]: where the round starts. *)
Definition route_first_turn : M unit :=
  u <- ui ;;
  if (word_options_count u >? 1) && (player_count u >? 1)
     && (current_player u =? 0)
  then now <- monotonic ;; start_handoff now true ""
  else if word_options_count u >? 1
  then now <- monotonic ;; start_reveal now
  else start_waiting.

(** The fields of the session a started round is judged by. *)
Definition round_fields (s : State) : Z * Z * Z * string :=
  (current_player (ui_state s), player_count (ui_state s),
   word_options_count (ui_state s), chosen_word (ui_state s)).


(** ** What a turn of the loop leaves alone *)

(** What the players are shown: the session, the message and the colours. *)
Definition display (s : State) : UIState * MessageBox * BoxStyle :=
  (ui_state s, message_box s, box_style s).

(** [m] returns from every state where [P] holds, in a state where [P]
    holds. *)
Definition Preserves {A : Type} (P : State -> Prop) (m : M A) : Prop :=
  forall s, P s -> exists a s', m s = (Done a, s') /\ P s'.

(** ** Whose turn it is *)

(** The screens of the set-up, before the number of players is known. *)
Definition setup_screen (scr : string) : bool :=
  (scr == "idle") || (scr == "player_input") || (scr == "word_count")
  || (scr == "imposter_percent").

(** The actions [update_timers] knows how to run after a hand-off. *)
Definition pending_actions : list string :=
  [ "enter_word_entry"; "start_random_flow"; "start_random_simple";
    "prepare_word_and_start" ].

(** Past the set-up there is at least one player; on the screens of a
    turn the current player is one of the players; and the hand-off screen
    either stands between a player and the next one or before one of the
    known actions, with a mode selected. *)
Definition turn_valid (s : State) : Prop :=
  let u := ui_state s in
  (setup_screen (screen u) = false -> 1 <= player_count u) /\
  (screen u = "wait_scroll" \/ screen u = "reveal" ->
   0 <= current_player u < player_count u) /\
  (screen u = "handoff" ->
   (handoff_pending_action u = "" /\ handoff_advance u = true /\
    0 <= current_player u /\ current_player u + 1 < player_count u) \/
   (In (handoff_pending_action u) pending_actions /\ selected_mode u <> None)).

(** If [m] returns from a state where [P] holds, [Q] holds of its result
    and of the state it returns in. *)
Definition Ensures {A : Type} (P : State -> Prop) (m : M A)
           (Q : A -> State -> Prop) : Prop :=
  forall s, P s -> forall a s', m s = (Done a, s') -> Q a s'.

(** Predicates used on the way. *)
Definition seated (s : State) : Prop := 1 <= player_count (ui_state s).

Definition on_setup (s : State) : Prop :=
  setup_screen (screen (ui_state s)) = true.

Definition mode_chosen (s : State) : Prop := selected_mode (ui_state s) <> None.

(** What the callers of [prepare_word_and_start] hold on to. *)
Definition may_start (s : State) : Prop :=
  seated s /\ (selected_mode (ui_state s) = None -> turn_valid s).

(** ** Wrapped text *)

(** Every line has at most [width] characters. *)
Definition fits (width : Z) (lines : list string) : Prop :=
  Forall (fun line => Py.len line <= width) lines.

(** The string without its spaces. *)
Fixpoint despace (s : string) : string :=
  match s with
  | EmptyString => EmptyString
  | String c s' => if Ascii.eqb c " " then despace s' else String c (despace s')
  end.

(** The characters of the lines that are not spaces, in order. *)
Definition ink (lines : list string) : string :=
  fold_right (fun line rest => despace line ++ rest) "" lines.

(** ** What the reveal screen shows *)

(** On the reveal screen the message is the one for the role of the
    current player: the imposter notice for a player [is_current_imposter]
    answers [True] for, the word of the round for the others. *)
Definition reveal_honest (s : State) : Prop :=
  let u := ui_state s in
  screen u = "reveal" ->
  message_box s =
  if imposter_at s (current_player u)
  then mkMessageBox "Du bist der Imposter" "Lass dir nichts anmerken."
  else mkMessageBox "Dein Wort" (Py.or_else (chosen_word u) "mystery").

(** What the honesty of the reveal screen depends on. *)
Definition reveal_view (s : State)
  : string * Z * Z * option Z * bool * string * MessageBox :=
  let u := ui_state s in
  (screen u, current_player u, player_count u, imposter_index u,
   all_imposter_except_first u, chosen_word u, message_box s).

(** Any screen but the reveal screen. *)
Definition off_reveal (s : State) : Prop := screen (ui_state s) <> "reveal".

(** ** A round, turn by turn *)

(** The turn of one player, played to its end: the pulse that reveals,
    the tick at the deadline of the reveal screen, the tick at the
    deadline of the hand-off screen. *)
Definition play_turn : M unit :=
  on_direction GO_DIRECTION ;;
  (u <- ui ;; update_timers (reveal_until u)) ;;
  (u <- ui ;; update_timers (handoff_until u)).

Fixpoint play_turns (n : nat) : M unit :=
  match n with
  | O => ret tt
  | S k => play_turn ;; play_turns k
  end.

(** What is fixed for the round: the players, the word and the roles. *)
Definition cast (s : State) : Z * string * option Z * bool :=
  let u := ui_state s in
  (player_count u, chosen_word u, imposter_index u, all_imposter_except_first u).

(** ** The word in the title *)

(** On the two screens where a word is chosen the title shows the word a
    lock would take: in the browse the candidate at the browse index, in
    the filtered pick (once a filter is typed) the candidate
    [best_random_choice] ranks first. *)
Definition title_true (s : State) : Prop :=
  let u := ui_state s in
  (screen u = "random_simple" ->
   forall cs, simple_candidates u = Some cs ->
     0 <= simple_index u < Z.of_nat (List.length cs) ->
     title (message_box s) = Py.upper (nth (Z.to_nat (simple_index u)) cs "")) /\
  (screen u = "random_pick" -> random_filter u <> "" ->
   forall c cs, random_candidates u = Some (c :: cs) ->
     title (message_box s) = Py.upper (Fuzzy.best c cs (random_filter u))).

(** What [title_true] depends on. *)
Definition choice_view (s : State)
  : string * option (list string) * Z * option (list string) * string * string :=
  let u := ui_state s in
  (screen u, simple_candidates u, simple_index u, random_candidates u,
   random_filter u, title (message_box s)).

(** Any screen but the two on which a word is chosen. *)
Definition off_choice (s : State) : Prop :=
  screen (ui_state s) <> "random_simple" /\ screen (ui_state s) <> "random_pick".

(** The filtered pick with its filter cleared. *)
Definition pick_cleared (s : State) : Prop :=
  screen (ui_state s) = "random_pick" /\ random_filter (ui_state s) = "".

(** ** Typing and set-up navigation *)

(** The buffer a screen types into. *)
Definition buffer_of (scr : string) (u : UIState) : string :=
  if scr == "player_input" then input_buffer u
  else if scr == "word_count" then word_count_buffer u
  else if scr == "imposter_percent" then imposter_percent_buffer u
  else if scr == "word_entry" then word_buffer u
  else random_filter u.

(** The characters a screen takes: digits on the three numeric screens,
    printable ASCII on the two others. *)
Definition takes (scr : string) (ch : Z) : bool :=
  if (scr == "player_input") || (scr == "word_count")
     || (scr == "imposter_percent")
  then is_digit ch else is_printable ch.

(** The screens with a buffer. *)
Definition typing_screens : list string :=
  [ "player_input"; "word_count"; "imposter_percent"; "word_entry";
    "random_pick" ].

(** The assignment to the buffer of a screen, and the procedure that
    shows the screen again. *)
Definition set_buffer_of (scr : string) (v : string) (u : UIState) : UIState :=
  if scr == "player_input" then set_input_buffer v u
  else if scr == "word_count" then set_word_count_buffer v u
  else if scr == "imposter_percent" then set_imposter_percent_buffer v u
  else if scr == "word_entry" then set_word_buffer v u
  else set_random_filter v u.

Definition enter_of (scr : string) : M unit :=
  if scr == "player_input" then enter_player_input
  else if scr == "word_count" then enter_word_count_input
  else if scr == "imposter_percent" then enter_imposter_percent_input
  else if scr == "word_entry" then enter_word_entry
  else enter_random_pick.

(** The three buffers of the set-up. *)
Definition setup_buffers (s : State) : string * string * string :=
  (input_buffer (ui_state s), word_count_buffer (ui_state s),
   imposter_percent_buffer (ui_state s)).

(** ** Further scenarios *)

(** The session with the one-word list [apple], at start-up. *)
Definition one_word : State := startup_state ["apple"] [] round_clock.

(** The browse of three candidates, on its last entry, the hold timer
    running until time 15; three players, mode Random Simple. *)
Definition browsing : State :=
  with_mono_tape [10; 10.5; 11; 11.5]%Q
    (with_ui_state
       (set_simple_hold_until 15
          (set_simple_hold_started true
             (set_simple_index 2
                (set_simple_candidates (Some ["apple"; "pear"; "plum"])
                   (set_selected_mode (nth_error GAME_MODES 3)
                      (set_word_options_count 3
                         (set_player_count 3
                            (set_screen "random_simple" (ui_state fresh)))))))))
       fresh).

(** The filtered pick of [pick_state], in mode Random, with two players. *)
Definition picking : State :=
  with_ui_state
    (set_selected_mode (nth_error GAME_MODES 2)
       (set_word_options_count 3 (set_player_count 2 (ui_state pick_state))))
    pick_state.

(** A round of two players in which all but the first are imposters
    (chance 100), up to the reveal of the second player; word list
    [apple], mode Random Simple. *)
Definition second_reveal_keys : list (Q * Z * option (bool * bool)) :=
  [ key 10 KEY_DOWN; key 11 50; key 12 KEY_DOWN; key 13 KEY_DOWN;
    key 13.2 49; key 13.4 48; key 13.6 48; key 14 KEY_DOWN; key 15 KEY_DOWN;
    key 16 KEY_UP; key 17 KEY_DOWN; tick 20; key 21 KEY_DOWN; tick 24;
    tick 27; key 28 KEY_DOWN ].

Definition second_reveal_clock : list Q :=
  [10; 11; 12; 13; 13.2; 13.4; 13.6; 14; 15; 16; 17; 17; 20; 21; 21; 24; 27;
   28; 28]%Q.

Definition second_reveal : State :=
  final (run_iterations second_reveal_keys
                        (startup_state ["apple"] [] second_reveal_clock)).

(** A message of one ten-letter word. *)
Definition ten_letters : MessageBox := mkMessageBox "" "abcdefghij".

(** A word list of three words, and a session on it with two word
    options. *)
Definition three_words : list string := ["apple"; "apricot"; "banana"].

Definition two_options : State :=
  with_ui_state
    (set_word_options_count 2 (ui_state (startup_state three_words [1%N] [])))
    (startup_state three_words [1%N] []).

(** Set-up for two players and three word options on [three_words], mode
    Random, then the filter [apr] typed on the filtered pick. *)
Definition filter_keys : list (Q * Z * option (bool * bool)) :=
  [ key 10 KEY_DOWN; key 11 50; key 12 KEY_DOWN; key 12.5 51;
    key 13 KEY_DOWN; key 14 KEY_DOWN; key 15 KEY_DOWN; key 16 KEY_UP;
    key 17 KEY_UP; key 18 KEY_DOWN; tick 21; key 22 97; key 22.2 112;
    key 22.4 114 ].

Definition filter_clock : list Q :=
  [10; 11; 12; 12.5; 13; 14; 15; 16; 17; 18; 18; 21; 22; 22.2; 22.4]%Q.

(** The swipe-to-reveal screen of the first of three players. *)
Definition first_turn : State :=
  with_ui_state
    (set_player_count 3 (set_screen "wait_scroll" (ui_state fresh))) fresh.

(** The player-count screen with "1" typed. *)
Definition counting : State :=
  with_ui_state (set_input_buffer "1" (set_screen "player_input" (ui_state fresh)))
    fresh.
(** * Properties *)

(** ** FuzzyMatcher *)

Module FuzzyFacts.
Import Fuzzy FuzzyOrder.

Ltac split_scores :=
  repeat match goal with
         | p : Score |- _ => destruct p as [[[[? ?] ?] ?] ?]
         end.

Ltac decide_eqbs :=
  repeat match goal with
         | |- context [?x =? ?y] => destruct (Z.eqb_spec x y); simpl
         end.

Lemma gtb_lex_lt (a b : Score) : gtb a b = true <-> lex_lt b a.
Proof.
  split_scores. unfold gtb, lex_lt.
  decide_eqbs; rewrite Z.ltb_lt; lia.
Qed.

Lemma gtb_lex_le (a b : Score) : gtb a b = false <-> lex_le a b.
Proof.
  destruct a as [[[[a1 a2] a3] a4] a5], b as [[[[b1 b2] b3] b4] b5].
  unfold gtb, lex_le, lex_lt.
  decide_eqbs; rewrite Z.ltb_ge;
    (split; [ intros Hle | intros [H | H]; [ lia | inversion H; lia ] ]).
  all: try (left; lia).
  destruct (Z.eq_dec a5 b5) as [-> | Hne]; [ right; congruence | left; lia ].
Qed.

Lemma lex_lt_trans (a b c : Score) : lex_lt a b -> lex_lt b c -> lex_lt a c.
Proof. split_scores. unfold lex_lt. lia. Qed.

Lemma lex_le_lt_trans (a b c : Score) : lex_le a b -> lex_lt b c -> lex_lt a c.
Proof. intros [H | ->]; eauto using lex_lt_trans. Qed.

Lemma lex_lt_irrefl (a : Score) : ~ lex_lt a a.
Proof. split_scores. unfold lex_lt. lia. Qed.

Lemma max_by_invariant (k : string -> Score) (xs : list string) :
  forall seen b,
    first_max k seen b ->
    first_max k (seen ++ xs)%list
              (fold_left (fun best w => if gtb (k w) (k best) then w else best) xs b).
Proof.
  induction xs as [| w xs IH]; intros seen b Hb; simpl.
  - now rewrite app_nil_r.
  - replace (seen ++ w :: xs)%list with ((seen ++ [w]) ++ xs)%list
      by now rewrite <- app_assoc.
    apply IH.
    destruct Hb as (l1 & l2 & -> & Hlt & Hle).
    destruct (gtb (k w) (k b)) eqn:E.
    + apply gtb_lex_lt in E.
      exists (l1 ++ b :: l2)%list, []. repeat split.
      * intros v Hv. apply in_app_or in Hv as [Hv | [<- | Hv]].
        -- eauto using lex_lt_trans.
        -- exact E.
        -- eauto using lex_le_lt_trans.
      * intros v [].
    + apply gtb_lex_le in E.
      exists l1, (l2 ++ [w])%list. repeat split.
      * now rewrite <- app_assoc.
      * exact Hlt.
      * intros v Hv. apply in_app_or in Hv as [Hv | [<- | []]]; auto.
Qed.

Lemma max_by_first_max (k : string -> Score) (c : string) (cs : list string) :
  first_max k (c :: cs) (Py.max_by gtb k c cs).
Proof.
  apply (max_by_invariant k cs [c] c).
  exists [], []. repeat split; intros v [].
Qed.

Lemma truthy_lower (f : string) : Py.truthy (Py.lower f) = Py.truthy f.
Proof. now destruct f. Qed.

Lemma truthy_false (f : string) : Py.truthy f = false <-> f = "".
Proof. destruct f; simpl; split; congruence. Qed.

(** *** What the components of the score measure *)

Lemma substring_length (s : string) :
  forall n m, (n + m <= String.length s)%nat ->
              String.length (substring n m s) = m.
Proof.
  induction s as [| c s IH]; intros [| n] [| m] H; simpl in *;
    try reflexivity; try lia.
  - f_equal. apply (IH 0%nat). lia.
  - apply IH. lia.
  - apply IH. lia.
Qed.

Lemma last_chars_length (k : nat) (f : string) :
  (k <= String.length f)%nat -> String.length (Py.last_chars k f) = k.
Proof. intros H. apply substring_length. lia. Qed.

Lemma prefix_append (x w : string) :
  String.prefix x w = true <-> exists rest, w = x ++ rest.
Proof.
  revert w. induction x as [| c x IH]; intros w; simpl.
  - split; [ exists w; reflexivity | now destruct w ].
  - destruct w as [| d w].
    + split; [ discriminate | intros [r Hr]; discriminate ].
    + simpl. destruct (ascii_dec c d) as [-> | Hne].
      * rewrite IH. split; intros [r Hr]; exists r; simpl in *; congruence.
      * split; [ discriminate | intros [r Hr]; simpl in Hr; congruence ].
Qed.

Lemma append_length (a b : string) :
  String.length (a ++ b) = (String.length a + String.length b)%nat.
Proof. induction a; simpl; auto. Qed.

Lemma prefix_length (x w : string) :
  String.prefix x w = true -> (String.length x <= String.length w)%nat.
Proof.
  rewrite prefix_append. intros [r ->]. rewrite append_length. lia.
Qed.

(** [x in w]: [w] is [before ++ x ++ after]. *)
Lemma contains_spec (x w : string) :
  Py.contains x w = true <-> exists before after, w = before ++ x ++ after.
Proof.
  induction w as [| c w IH]; simpl.
  - rewrite orb_false_r. replace (String.prefix x "") with
      (match x with "" => true | String _ _ => false end) by now destruct x.
    destruct x as [| d x].
    + split; [ exists "", ""; reflexivity | reflexivity ].
    + split; [ discriminate | ].
      intros ([| e b] & a & H); simpl in H; discriminate.
  - rewrite orb_true_iff, IH. split.
    + intros [H | (b & a & ->)].
      * apply (prefix_append x (String c w)) in H as [r ->].
        exists "", r; reflexivity.
      * exists (String c b), a; reflexivity.
    + intros ([| e b] & a & H); simpl in H.
      * left. apply (prefix_append x (String c w)). exists a; exact H.
      * right. exists b, a. congruence.
Qed.

Lemma contains_length (x w : string) :
  Py.contains x w = true -> (String.length x <= String.length w)%nat.
Proof.
  rewrite contains_spec. intros (b & a & ->).
  rewrite !append_length. lia.
Qed.

(** A downward search [for k in range(limit, 0, -1)] that returns the
    first [k] passing [test], and 0 when none does. *)
Lemma down_search (test : nat -> bool) (loop : nat -> nat) :
  loop O = O ->
  (forall k, loop (S k) = if test (S k) then S k else loop k) ->
  forall limit,
    (loop limit <= limit)%nat /\
    (loop limit <> O -> test (loop limit) = true) /\
    (forall j, (loop limit < j <= limit)%nat -> test j = false).
Proof.
  intros H0 HS limit. induction limit as [| k (IH1 & IH2 & IH3)].
  - rewrite H0. repeat split; intros; lia.
  - rewrite HS. destruct (test (S k)) eqn:E.
    + repeat split; intros; try lia. exact E.
    + repeat split; [ lia | exact IH2 | ].
      intros j Hj. destruct (Nat.eq_dec j (S k)) as [-> | Hne];
        [ exact E | apply IH3; lia ].
Qed.

(** Component 1: the largest [k] such that the last [k] characters of
    the filter are a prefix of the word. *)
Lemma tail_prefix_len_largest (f w : string) :
  exists r : nat,
    tail_prefix_len f w = Z.of_nat r /\
    longest_tail (Py.startswith w) f r.
Proof.
  unfold tail_prefix_len. cbv zeta. eexists. split; [ reflexivity | ].
  destruct (down_search (fun k => Py.startswith w (Py.last_chars k f))
                        (tail_prefix_loop f w) eq_refl (fun k => eq_refl)
                        (Nat.min (String.length f) (String.length w)))
    as (H1 & H2 & H3).
  repeat split; [ lia | exact H2 | ].
  intros j Hj.
  destruct (Nat.le_gt_cases j (Nat.min (String.length f) (String.length w)))
    as [Hle | Hgt]; [ apply H3; lia | ].
  destruct (Py.startswith w (Py.last_chars j f)) eqn:E; [ | reflexivity ].
  apply prefix_length in E. rewrite last_chars_length in E; lia.
Qed.

(** Component 2: the largest [k] such that the last [k] characters of
    the filter occur somewhere in the word. *)
Lemma tail_any_len_largest (f w : string) :
  exists r : nat,
    tail_any_len f w = Z.of_nat r /\
    longest_tail (fun x => Py.contains x w) f r.
Proof.
  unfold tail_any_len. cbv zeta. eexists. split; [ reflexivity | ].
  destruct (down_search (fun k => Py.contains (Py.last_chars k f) w)
                        (tail_any_loop f w) eq_refl (fun k => eq_refl)
                        (Nat.min (String.length f) (String.length w)))
    as (H1 & H2 & H3).
  repeat split; [ lia | exact H2 | ].
  intros j Hj.
  destruct (Nat.le_gt_cases j (Nat.min (String.length f) (String.length w)))
    as [Hle | Hgt]; [ apply H3; lia | ].
  destruct (Py.contains (Py.last_chars j f) w) eqn:E; [ | reflexivity ].
  apply contains_length in E. rewrite last_chars_length in E; lia.
Qed.

(** Component 3: the number of leading positions on which filter and
    word agree. *)
Lemma prefix_loop_common (f w : string) :
  forall acc,
  exists n : nat,
    prefix_loop f w acc = acc + Z.of_nat n /\
    common_prefix_length f w n.
Proof.
  unfold common_prefix_length.
  revert w. induction f as [| a f IH]; intros w acc.
  - exists O. simpl. repeat split; try lia; auto. now destruct w.
  - destruct w as [| b w].
    + exists O. simpl. repeat split; try lia; auto.
    + simpl. destruct (Ascii.eqb_spec a b) as [-> | Hne].
      * destruct (IH w (acc + 1)) as (n & E & Hs & H1 & H2 & H3).
        exists (S n). simpl. repeat split; try lia; auto. now rewrite Hs.
      * exists O. simpl. repeat split; try lia.
        right; right; congruence.
Qed.

(** Component 4: the index loop over [find] is greedy subsequence
    matching. *)
Lemma find_at_after_first (ch : ascii) (w : string) :
  forall skip pos,
    match after_first ch (drop skip w) with
    | None => Py.find_at w ch skip pos = -1
    | Some rest =>
        exists p : nat,
          Py.find_at w ch skip pos = pos + Z.of_nat p /\
          drop (S p) w = rest
    end.
Proof.
  induction w as [| c w IH]; intros skip pos.
  - destruct skip; reflexivity.
  - destruct skip as [| k].
    + cbn [drop after_first Py.find_at].
      destruct (Ascii.eqb c ch).
      * exists O. split; [ lia | reflexivity ].
      * specialize (IH O (pos + 1)). cbn [drop] in IH.
        replace (drop 0 w) with w in IH by now destruct w.
        destruct (after_first ch w) as [rest |]; [ | exact IH ].
        destruct IH as (p & E & Hd). exists (S p). split; [ lia | exact Hd ].
    + cbn [drop Py.find_at]. specialize (IH k (pos + 1)).
      destruct (after_first ch (drop k w)) as [rest |]; [ | exact IH ].
      destruct IH as (p & E & Hd). exists (S p). split; [ lia | exact Hd ].
Qed.

Lemma sub_loop_greedy (f w : string) :
  forall idx sub,
    0 <= idx ->
    sub_loop f w idx sub = sub + greedy_matches f (drop (Z.to_nat idx) w).
Proof.
  induction f as [| ch f IH]; intros idx sub Hidx.
  - simpl. lia.
  - cbn [sub_loop greedy_matches]. unfold Py.find.
    pose proof (find_at_after_first ch w (Z.to_nat idx) 0) as H.
    destruct (after_first ch (drop (Z.to_nat idx) w)) as [rest |].
    + destruct H as (p & -> & Hd).
      destruct (Z.eqb_spec (0 + Z.of_nat p) (-1)); [ lia | ].
      rewrite IH by lia.
      replace (Z.to_nat (0 + Z.of_nat p + 1)) with (S p) by lia.
      rewrite Hd. lia.
    + rewrite H. cbn [Z.eqb]. apply IH. exact Hidx.
Qed.

(** The key computed by [score] is the 5-tuple of the spec. *)
Lemma score_components (f word : string) :
  score_meaning f word (score f word).
Proof.
  unfold score_meaning, score.
  destruct (tail_prefix_len_largest f (Py.lower word)) as (tp & -> & Htp).
  destruct (tail_any_len_largest f (Py.lower word)) as (ta & -> & Hta).
  destruct (prefix_loop_common f (Py.lower word) 0) as (cp & -> & Hcp).
  exists tp, ta, cp.
  split; [ | split; [ exact Htp | split; [ exact Hta | exact Hcp ] ] ].
  rewrite sub_loop_greedy by lia. cbn [Z.to_nat drop].
  replace (drop 0 (Py.lower word)) with (Py.lower word)
    by now destruct (Py.lower word).
  f_equal.
Qed.

End FuzzyFacts.

(** ** Running a procedure symbolically *)

Ltac exec :=
  cbv [bind ret read update ui ui_assign scroll_assign box_assign
       set_message_box_title set_message_box_text set_box_style raise
       final gesture];
  cbn [fst snd ui_state scroll_state message_box box_style WORDS rand_tape
       mono_tape gestures with_ui_state with_scroll_state with_message_box
       with_box_style with_rand_tape with_mono_tape with_gestures].

Ltac simp_state :=
  cbv beta iota;
  cbn [fst snd ui_state scroll_state message_box box_style WORDS rand_tape
       mono_tape gestures with_ui_state with_scroll_state with_message_box
       with_box_style with_rand_tape with_mono_tape with_gestures].

(** Comparisons of time stamps, as propositions. *)
Lemma Qltb_lt (x y : Q) : Qltb x y = true <-> (x < y)%Q.
Proof.
  unfold Qltb. rewrite negb_true_iff, <- not_true_iff_false, Qle_bool_iff.
  split; [ apply Qnot_le_lt | apply Qlt_not_le ].
Qed.

Lemma Qltb_ge (x y : Q) : Qltb x y = false <-> (y <= x)%Q.
Proof. unfold Qltb. now rewrite negb_false_iff, Qle_bool_iff. Qed.

Lemma Qgeb_ge (x y : Q) : Qgeb x y = true <-> (y <= x)%Q.
Proof. unfold Qgeb. apply Qle_bool_iff. Qed.

(** ** The setup values parsed by [enter_confirm] *)

Lemma enter_confirm_values (s : State) :
  let u := ui_state s in
  let u' := ui_state (final (enter_confirm s)) in
  fst (enter_confirm s) = Done tt /\
  screen u' = "confirm" /\
  player_count u' = parse_or (input_buffer u) (fun n => Z.max 1 n) 1 /\
  word_options_count u' =
    parse_or (Py.or_else (word_count_buffer u) "0") (fun n => Z.max 0 n) 0 /\
  imposter_all_chance u' =
    parse_or (Py.or_else (imposter_percent_buffer u) "0")
             (fun n => Z.max 0 (Z.min 100 n)) 0.
Proof. unfold enter_confirm. exec. repeat split. Qed.

Lemma parse_or_unparseable (buf : string) (f : Z -> Z) (d : Z) :
  Py.int_of_string buf = None -> parse_or buf f d = d.
Proof. unfold parse_or. now intros ->. Qed.

(** A buffer that does not parse, read through [buf or "0"], gives 0
    under a clamp that maps 0 to 0. *)
Lemma parse_or_zero_default (buf : string) (f : Z -> Z) :
  f 0 = 0 ->
  Py.int_of_string buf = None ->
  parse_or (Py.or_else buf "0") f 0 = 0.
Proof.
  intros Hf Hbuf. unfold Py.or_else. destruct (Py.truthy buf).
  - now apply parse_or_unparseable.
  - exact Hf.
Qed.


(** C10: after [enter_confirm] the setup values satisfy the bounds of the
    data model for every content of the buffers: [player_count >= 1],
    [word_options_count >= 0], [imposter_all_chance] in 0..100; a
    player-count buffer that parses to 0, or that is empty, gives
    [player_count = 1]. *)
Theorem enter_confirm_bounds (s : State) :
  let u := ui_state s in
  let u' := ui_state (final (enter_confirm s)) in
  fst (enter_confirm s) = Done tt /\
  1 <= player_count u' /\
  0 <= word_options_count u' /\
  0 <= imposter_all_chance u' <= 100 /\
  (Py.int_of_string (input_buffer u) = Some 0 -> player_count u' = 1) /\
  (input_buffer u = "" -> player_count u' = 1).
Proof.
  destruct (enter_confirm_values s) as (Hr & Hs & Hp & Hw & Hc).
  cbv zeta. rewrite Hp, Hw, Hc. unfold parse_or.
  repeat split; auto;
    try (destruct Py.int_of_string; lia).
  - now intros ->.
  - now intros ->.
Qed.

(** ** [reset_idle] *)

Lemma reset_idle_result (s : State) :
  reset_idle s =
  (Done tt,
   mkState (idle_session (mode_index (ui_state s))
                         (scroll_block_until (ui_state s)))
           (scroll_state s)
           (mkMessageBox "Imposter-CLI" "Zum Starten scrollen")
           DEFAULT_STYLE (WORDS s) (rand_tape s) (mono_tape s) (gestures s)).
Proof. reflexivity. Qed.

Lemma update_timers_idle (s : State) (now : Q) :
  screen (ui_state s) = "idle" -> update_timers now s = (Done tt, s).
Proof.
  intros H. unfold update_timers. exec. rewrite H. reflexivity.
Qed.

(** C5, as the code has it: for every prior state [reset_idle] returns
    and leaves the screen idle, every buffer, count, word, mode, imposter
    and player-index field and the four deadlines [countdown_until],
    [reveal_until], [handoff_until], [simple_hold_until] at their initial
    values and the candidate lists empty, so that no timer fires on the new
    state at any time; [mode_index] and [scroll_block_until] keep the
    values they had, and a scroll block that has expired stays expired. *)
Theorem reset_idle_fields (s : State) :
  let s' := final (reset_idle s) in
  fst (reset_idle s) = Done tt /\
  ui_state s' = idle_session (mode_index (ui_state s))
                             (scroll_block_until (ui_state s)) /\
  ui_state s' = set_mode_index (mode_index (ui_state s))
                  (set_scroll_block_until (scroll_block_until (ui_state s))
                     (ui_state (startup_state [] [] []))) /\
  (forall now, update_timers now s' = (Done tt, s')) /\
  (forall now, (scroll_block_until (ui_state s) <= now)%Q ->
               ~ (now < scroll_block_until (ui_state s'))%Q).
Proof.
  rewrite reset_idle_result. cbn [final fst snd ui_state].
  split; [ reflexivity | split; [ reflexivity | split; [ reflexivity | ] ] ].
  split.
  - intros now. now apply update_timers_idle.
  - intros now H. cbn [scroll_block_until idle_session].
    now apply Qle_not_lt.
Qed.

(** ** What the session procedures leave alone

    Every procedure of the state machine below [handle_scroll] writes only
    to [ui_state], [message_box], [box_style] and the tapes: the
    debouncer's record, the gesture log and the word list are out of its
    reach. *)

Create HintDb keeps.

Lemma keeps_ret {A : Type} (a : A) : Keeps (ret a).
Proof. intros s; reflexivity. Qed.

Lemma keeps_raise {A : Type} (e : Exn) : Keeps (@raise A e).
Proof. intros s; reflexivity. Qed.

Lemma keeps_read {A : Type} (f : State -> A) : Keeps (read f).
Proof. intros s; reflexivity. Qed.

Lemma keeps_bind {A B : Type} (m : M A) (k : A -> M B) :
  Keeps m -> (forall a, Keeps (k a)) -> Keeps (bind m k).
Proof.
  intros Hm Hk s. unfold bind, final. specialize (Hm s).
  destruct (m s) as [[a | e] s1]; simpl in *.
  - rewrite <- Hm. apply Hk.
  - exact Hm.
Qed.

Lemma keeps_ui : Keeps ui.
Proof. intros s; reflexivity. Qed.

Lemma keeps_ui_assign {T : Type} (set : T -> UIState -> UIState) (v : T) :
  Keeps (ui_assign set v).
Proof. intros s; reflexivity. Qed.

Lemma keeps_box_assign {T : Type} (set : T -> BoxStyle -> BoxStyle) (v : T) :
  Keeps (box_assign set v).
Proof. intros s; reflexivity. Qed.

Lemma keeps_set_message_box_title (t : string) : Keeps (set_message_box_title t).
Proof. intros s; reflexivity. Qed.

Lemma keeps_set_message_box_text (t : string) : Keeps (set_message_box_text t).
Proof. intros s; reflexivity. Qed.

Lemma keeps_next_rand : Keeps next_rand.
Proof. intros s. unfold next_rand. now destruct (rand_tape s). Qed.

Lemma keeps_monotonic : Keeps monotonic.
Proof. intros s. unfold monotonic. now destruct (mono_tape s). Qed.

#[local] Hint Resolve keeps_ret keeps_raise keeps_read keeps_ui_assign
  keeps_box_assign keeps_set_message_box_title keeps_set_message_box_text
  keeps_next_rand keeps_monotonic : keeps.

Ltac keeps :=
  repeat first
    [ solve [ auto with keeps ]
    | apply keeps_bind; [ | intros ? ]
    | match goal with
      | |- Keeps (let _ := _ in _) => cbv zeta
      | |- Keeps (match ?x with _ => _ end) => destruct x
      end ].

Lemma keeps_randint (a b : Z) : Keeps (randint a b).
Proof. unfold randint. keeps. Qed.

Lemma keeps_choice (pool : list string) : Keeps (choice pool).
Proof. unfold choice. keeps. Qed.

Lemma keeps_sample_loop (k : nat) : forall pool, Keeps (sample_loop pool k).
Proof. induction k; intros pool; simpl; keeps. Qed.

Lemma keeps_sample (pool : list string) (k : Z) : Keeps (sample pool k).
Proof. unfold sample. destruct (_ || _); auto using keeps_sample_loop with keeps. Qed.

Lemma keeps_subscript {A : Type} (xs : list A) (i : Z) : Keeps (subscript xs i).
Proof. unfold subscript. keeps. Qed.

#[local] Hint Resolve keeps_randint keeps_choice keeps_sample keeps_subscript : keeps.

Lemma keeps_set_box_style (st : BoxStyle) : Keeps (set_box_style st).
Proof. unfold set_box_style. keeps. Qed.

Lemma keeps_is_current_imposter : Keeps is_current_imposter.
Proof. unfold is_current_imposter, ui. keeps. Qed.

#[local] Hint Resolve keeps_set_box_style keeps_is_current_imposter : keeps.

Lemma keeps_reset_idle : Keeps reset_idle.
Proof. intros s. now rewrite reset_idle_result. Qed.

Lemma keeps_enter_player_input : Keeps enter_player_input.
Proof. unfold enter_player_input, ui. keeps. Qed.

Lemma keeps_enter_word_count_input : Keeps enter_word_count_input.
Proof. unfold enter_word_count_input, ui. keeps. Qed.

Lemma keeps_enter_imposter_percent_input : Keeps enter_imposter_percent_input.
Proof. unfold enter_imposter_percent_input, ui. keeps. Qed.

Lemma keeps_enter_confirm : Keeps enter_confirm.
Proof. unfold enter_confirm, ui. keeps. Qed.

Lemma keeps_enter_word_entry : Keeps enter_word_entry.
Proof. unfold enter_word_entry, ui. keeps. Qed.

Lemma keeps_show_mode (index : Z) : Keeps (show_mode index).
Proof. unfold show_mode, ui. keeps. Qed.

#[local] Hint Resolve keeps_reset_idle keeps_enter_player_input
  keeps_enter_word_count_input keeps_enter_imposter_percent_input
  keeps_enter_confirm keeps_enter_word_entry keeps_show_mode : keeps.

Lemma keeps_enter_modes : Keeps enter_modes.
Proof. unfold enter_modes, ui. keeps. Qed.

Lemma keeps_start_handoff (now : Q) (advance_after : bool) (pending : string) :
  Keeps (start_handoff now advance_after pending).
Proof. unfold start_handoff. keeps. Qed.

#[local] Hint Resolve keeps_enter_modes keeps_start_handoff : keeps.

Lemma keeps_select_mode : Keeps select_mode.
Proof. unfold select_mode, ui. keeps. Qed.

Lemma keeps_choose_word_for_source (src : string) : Keeps (choose_word_for_source src).
Proof. unfold choose_word_for_source. keeps. Qed.

Lemma keeps_assign_imposter : Keeps assign_imposter.
Proof. unfold assign_imposter, ui. keeps. Qed.

Lemma keeps_start_waiting : Keeps start_waiting.
Proof. unfold start_waiting, ui. keeps. Qed.

Lemma keeps_start_reveal (now : Q) : Keeps (start_reveal now).
Proof. unfold start_reveal, ui. keeps. Qed.

#[local] Hint Resolve keeps_select_mode keeps_choose_word_for_source
  keeps_assign_imposter keeps_start_waiting keeps_start_reveal : keeps.

Lemma keeps_advance_player : Keeps advance_player.
Proof. unfold advance_player, ui. keeps. Qed.

#[local] Hint Resolve keeps_advance_player : keeps.

Lemma keeps_prepare_word_and_start : Keeps prepare_word_and_start.
Proof. unfold prepare_word_and_start, ui. keeps. Qed.

Lemma keeps_best_random_choice : Keeps best_random_choice.
Proof. unfold best_random_choice, ui. keeps. Qed.

#[local] Hint Resolve keeps_prepare_word_and_start keeps_best_random_choice : keeps.

Lemma keeps_enter_random_pick : Keeps enter_random_pick.
Proof. unfold enter_random_pick, ui. keeps. Qed.

Lemma keeps_enter_random_simple (now : option Q) : Keeps (enter_random_simple now).
Proof. unfold enter_random_simple, ui. keeps. Qed.

#[local] Hint Resolve keeps_enter_random_pick keeps_enter_random_simple : keeps.

Lemma keeps_start_random_flow : Keeps start_random_flow.
Proof. unfold start_random_flow, ui. keeps. Qed.

Lemma keeps_start_random_simple : Keeps start_random_simple.
Proof. unfold start_random_simple, ui. keeps. Qed.

Lemma keeps_lock_random_choice : Keeps lock_random_choice.
Proof. unfold lock_random_choice. keeps. Qed.

Lemma keeps_lock_random_simple_choice : Keeps lock_random_simple_choice.
Proof. unfold lock_random_simple_choice, ui. keeps. Qed.

#[local] Hint Resolve keeps_start_random_flow keeps_start_random_simple
  keeps_lock_random_choice keeps_lock_random_simple_choice : keeps.

Lemma keeps_update_timers (now : Q) : Keeps (update_timers now).
Proof. unfold update_timers, ui. keeps. Qed.

Lemma keeps_render : Keeps render.
Proof. unfold render, ui. keeps. Qed.

#[local] Hint Resolve keeps_update_timers keeps_render : keeps.

(** ** GestureDebouncer *)

(** [on_direction] logs its direction once and leaves the debouncer's
    record alone, whether it returns or raises. *)
Lemma on_direction_frame (direction : string) (s : State) :
  frame (final (on_direction direction s)) =
  (scroll_state s, (gestures s ++ [direction])%list, WORDS s).
Proof.
  unfold on_direction.
  assert (K : forall (k : unit -> M unit), (forall x, Keeps (k x)) ->
              frame (final (bind (gesture direction) k s)) =
              (scroll_state s, (gestures s ++ [direction])%list, WORDS s)).
  { intros k Hk. unfold bind, gesture, update. now rewrite (Hk tt). }
  apply K. intros _. unfold ui. keeps.
Qed.

Lemma on_direction_gestures (direction : string) (s : State) :
  gestures (final (on_direction direction s)) = (gestures s ++ [direction])%list.
Proof.
  pose proof (on_direction_frame direction s) as H. unfold frame in H.
  congruence.
Qed.

Lemma on_direction_scroll_state (direction : string) (s : State) :
  scroll_state (final (on_direction direction s)) = scroll_state s.
Proof.
  pose proof (on_direction_frame direction s) as H. unfold frame in H.
  congruence.
Qed.

Lemma handle_scroll_rejected (s : State) (direction : string) (now : Q) :
  rejected s now -> handle_scroll direction now s = (Done tt, s).
Proof.
  intros [H | H]; unfold handle_scroll; exec.
  - apply Qltb_lt in H. now rewrite H.
  - apply Qltb_lt in H. destruct (Qltb _ MIN_SCROLL_INTERVAL); [ reflexivity | ].
    cbv beta. now rewrite H.
Qed.

(** A pulse that passes the guards comes after the scroll block has
    expired: a block left in place by [reset_idle] stops no later pulse. *)
Lemma accepted_block_expired (s : State) (now : Q) :
  ~ rejected s now -> (scroll_block_until (ui_state s) <= now)%Q.
Proof.
  intros H. apply Qnot_lt_le. intros Hlt. apply H. right. exact Hlt.
Qed.

Lemma differs_true (direction : string) (last : option string) :
  last <> Some direction -> differs direction last = true.
Proof.
  destruct last as [d |]; simpl; [ | reflexivity ].
  intros H. destruct (String.eqb_spec direction d); [ congruence | reflexivity ].
Qed.

(** An accepted pulse that starts a gesture: the gesture is logged during
    the call, and when the call returns the trigger time is [now]. *)
Lemma handle_scroll_accepted (s : State) (direction : string) (now : Q) :
  ~ rejected s now ->
  starts_gesture s direction now ->
  let r := handle_scroll direction now s in
  gestures (final r) = (gestures s ++ [direction])%list /\
  (fst r = Done tt ->
   last_trigger_time (scroll_state (final r)) = now /\
   last_direction (scroll_state (final r)) = Some direction).
Proof.
  intros Hacc Hstart. unfold rejected in Hacc.
  assert (G1 : Qltb (now - last_trigger_time (scroll_state s))
                    MIN_SCROLL_INTERVAL = false).
  { apply not_true_iff_false. rewrite Qltb_lt. tauto. }
  assert (G2 : Qltb now (scroll_block_until (ui_state s)) = false).
  { apply not_true_iff_false. rewrite Qltb_lt. tauto. }
  unfold handle_scroll. exec. rewrite G1. cbv beta. rewrite G2. cbv beta.
  destruct (active (scroll_state s)) eqn:Hactive; cbn [negb]; cbv beta.
  - assert (G3 : differs direction (last_direction (scroll_state s))
                 || Qltb SCROLL_GAP_SECONDS (now - last_time (scroll_state s))
                 = true).
    { destruct Hstart as [H | [H | H]]; [ congruence | | ].
      - now rewrite (differs_true _ _ H).
      - apply Qltb_lt in H. rewrite H. apply orb_true_r. }
    rewrite G3. cbv beta.
    pose proof (on_direction_gestures direction s) as Hg.
    pose proof (on_direction_scroll_state direction s) as Hs.
    destruct (on_direction direction s) as [[[] | e] s1]; cbn in *.
    + repeat split; congruence.
    + split; [ exact Hg | discriminate ].
  - match goal with
    | |- context [on_direction direction ?s1] =>
        pose proof (on_direction_gestures direction s1) as Hg;
        pose proof (on_direction_scroll_state direction s1) as Hs;
        destruct (on_direction direction s1) as [[[] | e] s2]
    end; cbn in *.
    + rewrite Hs. repeat split; auto.
    + split; [ exact Hg | discriminate ].
Qed.

(** C1, as the code has it: a raw pulse whose direction differs from the
    recorded one puts out a gesture during that very call of
    [handle_scroll] whenever it passes the two guards, that is when it
    arrives at least 0.8s after the previously accepted trigger and not
    before [scroll_block_until]; a pulse stopped by a guard leaves the
    state as it was, change of direction or not. *)
Theorem direction_change_emits_when_accepted
        (s : State) (direction : string) (now : Q) :
  last_direction (scroll_state s) <> Some direction ->
  (rejected s now -> handle_scroll direction now s = (Done tt, s)) /\
  (~ rejected s now ->
   gestures (final (handle_scroll direction now s)) =
   (gestures s ++ [direction])%list).
Proof.
  intros Hd. split.
  - apply handle_scroll_rejected.
  - intros Hacc. apply handle_scroll_accepted; [ exact Hacc | ].
    right; left; exact Hd.
Qed.

(** *** Turns of the loop inside the 0.8s after an accepted trigger *)

Lemma quiet_keeps {A : Type} (now : Q) (m : M A) : Keeps m -> Quiet now m.
Proof.
  intros K s _. specialize (K s). unfold frame in K. unfold trigger_time.
  split; congruence.
Qed.

Lemma quiet_bind {A B : Type} (now : Q) (m : M A) (k : A -> M B) :
  Quiet now m -> (forall a, Quiet now (k a)) -> Quiet now (bind m k).
Proof.
  intros Hm Hk s Hs. unfold bind, final. destruct (Hm s Hs) as [Hg Ht].
  destruct (m s) as [[a | e] s1]; cbn [final snd] in *.
  - destruct (Hk a s1) as [Hg' Ht']; [ now rewrite Ht | ].
    unfold final in *. split; congruence.
  - split; assumption.
Qed.

Lemma quiet_update_scroll_state (now : Q) : Quiet now (update_scroll_state now).
Proof.
  intros s _. unfold update_scroll_state. exec.
  destruct (_ && _); split; reflexivity.
Qed.

Lemma quiet_handle_scroll (direction : string) (now : Q) :
  Quiet now (handle_scroll direction now).
Proof.
  intros s Hs. rewrite handle_scroll_rejected; [ split; reflexivity | ].
  left; exact Hs.
Qed.

Lemma quiet_handle_key (ch : Z) (now : Q) : Quiet now (handle_key ch now).
Proof.
  unfold handle_key, ui.
  apply quiet_bind; [ apply quiet_keeps; auto with keeps | intros u ].
  repeat match goal with
         | |- Quiet _ (if ?b then _ else _) => destruct b
         end;
    try apply quiet_handle_scroll; apply quiet_keeps; keeps.
Qed.

Lemma quiet_run_iteration (now : Q) (ch : Z) (mouse : option (bool * bool)) :
  Quiet now (run_iteration now ch mouse).
Proof.
  unfold run_iteration.
  apply quiet_bind; [ apply quiet_update_scroll_state | intros _ ].
  apply quiet_bind; [ apply quiet_keeps; auto with keeps | intros _ ].
  apply quiet_bind; [ apply quiet_keeps; auto with keeps | intros _ ].
  repeat match goal with
         | |- Quiet _ (if ?b then _ else _) => destruct b
         | |- Quiet _ (match ?x with _ => _ end) => destruct x
         | |- Quiet _ (let _ := _ in _) => cbv zeta
         end;
    try apply quiet_handle_scroll; try apply quiet_handle_key;
    apply quiet_keeps; keeps.
Qed.

Lemma run_iterations_quiet (events : list (Q * Z * option (bool * bool))) :
  forall s,
    Forall (fun ev => (event_time ev - trigger_time s < MIN_SCROLL_INTERVAL)%Q)
           events ->
    gestures (final (run_iterations events s)) = gestures s.
Proof.
  induction events as [| [[now ch] mouse] rest IH]; intros s H.
  - reflexivity.
  - inversion H as [| ev evs Hev Hrest]; subst. cbn [event_time fst] in Hev.
    cbn [run_iterations]. unfold bind, final.
    destruct (quiet_run_iteration now ch mouse s Hev) as [Hg Ht].
    destruct (run_iteration now ch mouse s) as [[[] | e] s1];
      cbn [final snd] in *; [ | exact Hg ].
    rewrite <- Hg. apply IH. now rewrite Ht.
Qed.


(** ** Timer-fired transitions *)

Lemma start_reveal_deadline (s : State) (now : Q) :
  let r := start_reveal now s in
  fst r = Done tt /\
  screen (ui_state (final r)) = "reveal" /\
  reveal_until (ui_state (final r)) = (now + 3)%Q.
Proof.
  unfold start_reveal, is_current_imposter. exec.
  destruct (all_imposter_except_first _).
  - destruct (_ >? _); cbv beta.
    + destruct (negb _); repeat split.
    + repeat split.
  - cbv beta. destruct (match _ with Some _ => _ | None => _ end); repeat split.
Qed.

Lemma update_timers_reveal (s : State) (now : Q) :
  screen (ui_state s) = "reveal" ->
  (reveal_until (ui_state s) <= now)%Q ->
  update_timers now s =
  (if current_player (ui_state s) + 1 >=? player_count (ui_state s)
   then advance_player ;; ui_assign set_scroll_block_until (now + 1)%Q
   else start_handoff now true "" ;;
        ui_assign set_scroll_block_until (now + 1)%Q) s.
Proof.
  intros Hscr Hdl. apply Qgeb_ge in Hdl.
  unfold update_timers, ui, read. unfold bind at 1.
  now rewrite Hscr, Hdl.
Qed.

Lemma update_timers_handoff (s : State) (now : Q) :
  screen (ui_state s) = "handoff" ->
  (handoff_until (ui_state s) <= now)%Q ->
  exists body : M unit,
    update_timers now s =
    (body ;; ui_assign set_scroll_block_until (now + 1)%Q) s.
Proof.
  intros Hscr Hdl. apply Qgeb_ge in Hdl.
  unfold update_timers, ui, read. unfold bind at 1.
  rewrite Hscr, Hdl. cbn [String.eqb Ascii.eqb Bool.eqb andb].
  eexists. reflexivity.
Qed.

Lemma advance_player_last (s : State) :
  player_count (ui_state s) <= current_player (ui_state s) + 1 ->
  let r := advance_player s in
  fst r = Done tt /\
  screen (ui_state (final r)) = "done" /\
  current_player (ui_state (final r)) = current_player (ui_state s) + 1.
Proof.
  intros H. unfold advance_player. exec.
  replace (_ >=? _) with true; [ repeat split | ].
  symmetry. cbn. apply Z.geb_le. lia.
Qed.

(** C7: [start_reveal] sets the deadline of the reveal screen to entry
    time + 3.  When that deadline is reached on a tick, [update_timers]
    returns; if [current_player + 1 >= player_count] it runs
    [advance_player], which moves to the done screen, otherwise it moves to
    the handoff screen; in both cases [scroll_block_until] is [now + 1].
    The same block is set whenever the tick that fires the handoff
    deadline returns. *)
Theorem reveal_deadline_transition (s : State) (now : Q) :
  let u := ui_state s in
  let r := update_timers now s in
  let u' := ui_state (final r) in
  (forall entry,
     fst (start_reveal entry s) = Done tt /\
     screen (ui_state (final (start_reveal entry s))) = "reveal" /\
     reveal_until (ui_state (final (start_reveal entry s))) = (entry + 3)%Q) /\
  (screen u = "reveal" -> (reveal_until u <= now)%Q ->
   fst r = Done tt /\
   scroll_block_until u' = (now + 1)%Q /\
   (player_count u <= current_player u + 1 ->
    r = (advance_player ;; ui_assign set_scroll_block_until (now + 1)%Q) s /\
    screen u' = "done" /\ current_player u' = current_player u + 1) /\
   (current_player u + 1 < player_count u ->
    screen u' = "handoff" /\ handoff_until u' = (now + 3)%Q /\
    handoff_advance u' = true /\ handoff_pending_action u' = "" /\
    current_player u' = current_player u)) /\
  (screen u = "handoff" -> (handoff_until u <= now)%Q ->
   fst r = Done tt -> scroll_block_until u' = (now + 1)%Q).
Proof.
  cbv zeta. split; [ | split ].
  - intros entry. apply start_reveal_deadline.
  - intros Hscr Hdl. rewrite (update_timers_reveal s now Hscr Hdl).
    destruct (current_player (ui_state s) + 1 >=? player_count (ui_state s)) eqn:E.
    + apply Z.geb_le in E.
      destruct (advance_player_last s E) as (H1 & H2 & H3).
      unfold bind, final in *.
      destruct (advance_player s) as [[[] | e] s1]; cbn in *; [ | discriminate ].
      repeat split; auto; lia.
    + assert (E' : current_player (ui_state s) + 1 < player_count (ui_state s)).
      { destruct (Z.geb_spec (current_player (ui_state s) + 1)
                             (player_count (ui_state s))); [ discriminate | lia ]. }
      repeat split; intros; lia.
  - intros Hscr Hdl.
    destruct (update_timers_handoff s now Hscr Hdl) as [body ->].
    unfold bind, final. destruct (body s) as [[[] | e] s1]; cbn.
    + reflexivity.
    + discriminate.
Qed.

(** ** RoleAssigner *)

Lemma randint_draw (a b : Z) (s : State) :
  a <= b ->
  randint a b s =
  (Done (draw a b (rand_tape s)), with_rand_tape (tl (rand_tape s)) s).
Proof.
  intros H. unfold randint, draw, next_rand, bind, ret.
  destruct (Z.ltb_spec b a); [ lia | ].
  destruct s as [u c m bx w rt mt g]. cbn.
  destruct rt; reflexivity.
Qed.

Lemma draw_range (a b : Z) (tape : list N) :
  a <= b -> a <= draw a b tape <= b.
Proof.
  intros H. unfold draw.
  pose proof (Z.mod_pos_bound (Z.of_N (hd 0%N tape)) (b - a + 1)). lia.
Qed.

(** Uniformity of the draw: over any [b - a + 1] consecutive outputs of
    the generator, each value of [a..b] is drawn exactly once. *)
Lemma draw_onto (a b v : Z) (tape : list N) :
  a <= v <= b -> draw a b (Z.to_N (v - a) :: tape) = v.
Proof.
  intros H. unfold draw. cbn [hd]. rewrite Z2N.id by lia.
  rewrite Z.mod_small; lia.
Qed.

Lemma draw_periodic (a b : Z) (n : N) (tape : list N) :
  a <= b ->
  draw a b ((n + Z.to_N (b - a + 1))%N :: tape) = draw a b (n :: tape).
Proof.
  intros H. unfold draw. cbn [hd]. f_equal.
  rewrite N2Z.inj_add, Z2N.id by lia.
  rewrite <- (Z.mul_1_l (b - a + 1)) at 1.
  apply Z.mod_add. lia.
Qed.

Lemma draw_injective (a b : Z) (n n' : N) (tape tape' : list N) :
  (Z.of_N n < b - a + 1) -> (Z.of_N n' < b - a + 1) ->
  draw a b (n :: tape) = draw a b (n' :: tape') -> n = n'.
Proof.
  unfold draw. cbn [hd]. intros H H' E.
  rewrite !Z.mod_small in E by lia. lia.
Qed.

(** C3: the case analysis of [assign_imposter].  It always returns.  With
    [player_count <= 1] no index is set, the all-but-first flag is false
    and nothing is drawn.  Otherwise [roll] is drawn by [randint(1, 100)];
    if [roll <= imposter_all_chance] the flag is true and no index is set;
    otherwise the flag is false and the index is drawn by
    [randint(lo, player_count - 1)], with [lo = 1] in mode player and in
    modes random and random_simple with more than one word option, and
    [lo = 0] in every other case.  Index and flag are never both set. *)
Theorem assign_imposter_cases (s : State) :
  let u := ui_state s in
  let r := assign_imposter s in
  let u' := ui_state (final r) in
  let roll := draw 1 100 (rand_tape s) in
  let lo := if first_player_spared u then 1 else 0 in
  let pick := draw lo (player_count u - 1) (tl (rand_tape s)) in
  fst r = Done tt /\
  (player_count u <= 1 ->
   imposter_index u' = None /\ all_imposter_except_first u' = false /\
   rand_tape (final r) = rand_tape s) /\
  1 <= roll <= 100 /\
  (1 < player_count u -> roll <= imposter_all_chance u ->
   all_imposter_except_first u' = true /\ imposter_index u' = None) /\
  (1 < player_count u -> imposter_all_chance u < roll ->
   all_imposter_except_first u' = false /\ imposter_index u' = Some pick /\
   lo <= pick <= player_count u - 1) /\
  (imposter_index u' = None \/ all_imposter_except_first u' = false).
Proof.
  cbv zeta. pose proof (draw_range 1 100 (rand_tape s) ltac:(lia)) as Hroll100.
  unfold assign_imposter, first_player_spared. exec.
  destruct (Z.leb_spec (player_count (ui_state s)) 1) as [Hpc | Hpc]; cbv beta.
  - repeat split; intros; try lia. now left.
  - rewrite randint_draw by lia.
    cbn [ui_state with_ui_state with_rand_tape rand_tape imposter_all_chance
         selected_mode set_all_imposter_except_first player_count
         word_options_count].
    destruct (Z.leb_spec (draw 1 100 (rand_tape s))
                         (imposter_all_chance (ui_state s)))
      as [Hroll | Hroll]; cbv beta.
    + repeat split; intros; try lia. now left.
    + destruct (mode_is (selected_mode (ui_state s)) "player");
        destruct (mode_is (selected_mode (ui_state s)) "random");
        destruct (mode_is (selected_mode (ui_state s)) "random_simple");
        destruct (word_options_count (ui_state s) >? 1);
        cbn [andb orb]; cbv beta;
        rewrite randint_draw by lia;
        cbn [ui_state with_ui_state with_rand_tape rand_tape fst snd];
        (repeat split; intros; try lia; try (now right);
         apply draw_range; lia).
Qed.

(** ** Sampling the candidates *)

Lemma sample_from_length (k : nat) :
  forall pool tape, List.length (sample_from pool k tape) = k.
Proof. induction k; intros; simpl; auto. Qed.

Lemma next_rand_eq (s : State) :
  next_rand s = (Done (hd 0%N (rand_tape s)), with_rand_tape (tl (rand_tape s)) s).
Proof. destruct s as [u c m b w rt mt g]. now destruct rt. Qed.

Lemma monotonic_eq (s : State) :
  monotonic s = (Done (hd 0%Q (mono_tape s)), with_mono_tape (tl (mono_tape s)) s).
Proof. destruct s as [u c m b w rt mt g]. now destruct mt. Qed.

Lemma sample_loop_eq (k : nat) :
  forall pool s,
    sample_loop pool k s =
    (Done (sample_from pool k (rand_tape s)),
     with_rand_tape (skipn k (rand_tape s)) s).
Proof.
  induction k as [| k IH]; intros pool s.
  - now destruct s.
  - cbn [sample_loop sample_from]. unfold bind. rewrite next_rand_eq.
    rewrite IH. cbn [rand_tape with_rand_tape]. unfold ret.
    destruct s as [u c m b w rt mt g]. cbn.
    destruct rt; [ now rewrite skipn_nil | reflexivity ].
Qed.

Lemma sample_eq (pool : list string) (k : Z) (s : State) :
  0 <= k <= Z.of_nat (List.length pool) ->
  sample pool k s =
  (Done (sample_from pool (Z.to_nat k) (rand_tape s)),
   with_rand_tape (skipn (Z.to_nat k) (rand_tape s)) s).
Proof.
  intros H. unfold sample.
  destruct (Z.ltb_spec k 0); [ lia | ].
  destruct (Z.ltb_spec (Z.of_nat (List.length pool)) k); [ lia | ].
  apply sample_loop_eq.
Qed.

Lemma sample_raises (pool : list string) (k : Z) (s : State) :
  Z.of_nat (List.length pool) < k ->
  sample pool k s = (Raised ValueError, s).
Proof.
  intros H. unfold sample.
  destruct (Z.ltb_spec (Z.of_nat (List.length pool)) k); [ | lia ].
  now rewrite orb_true_r.
Qed.

(** *** The filtered pick: [start_random_flow] *)

Lemma enter_random_pick_ok (s : State) :
  let r := enter_random_pick s in
  fst r = Done tt /\
  screen (ui_state (final r)) = "random_pick" /\
  random_candidates (ui_state (final r)) = random_candidates (ui_state s).
Proof.
  unfold enter_random_pick, best_random_choice, choose_word_for_source, choice.
  exec. cbn [random_candidates set_screen].
  destruct (or_empty (random_candidates (ui_state s))) as [| c cs].
  - simp_state. destruct (WORDS s) as [| w ws]; simp_state.
    + repeat split.
    + rewrite next_rand_eq. repeat split.
  - repeat split.
Qed.

(** For every pool, the empty one included, the filtered pick samples
    [min(word_options_count, pool size)] candidates and returns. *)
Lemma start_random_flow_sample_size (s : State) :
  1 < word_options_count (ui_state s) ->
  let r := start_random_flow s in
  fst r = Done tt /\
  exists cs,
    random_candidates (ui_state (final r)) = Some cs /\
    Z.of_nat (List.length cs) =
    Z.min (word_options_count (ui_state s)) (Z.of_nat (List.length (WORDS s))).
Proof.
  intros H. unfold start_random_flow. exec.
  destruct (Z.leb_spec (word_options_count (ui_state s)) 1); [ lia | ].
  cbv beta. rewrite sample_eq by lia.
  match goal with
  | |- context [enter_random_pick ?s1] =>
      destruct (enter_random_pick_ok s1) as (H1 & _ & H3);
      destruct (enter_random_pick s1) as [[[] | e] s2]
  end; cbn in *; [ | discriminate ].
  split; [ reflexivity | ].
  eexists. split; [ exact H3 | ].
  rewrite sample_from_length. lia.
Qed.

(** *** The browse: [start_random_simple] *)

Lemma enter_random_simple_ok (s : State) (now : option Q) (c : string) (cs : list string) :
  simple_candidates (ui_state s) = Some (c :: cs) ->
  simple_index (ui_state s) = 0 ->
  exists s',
    enter_random_simple now s = (Done tt, s') /\
    screen (ui_state s') = "random_simple" /\
    simple_candidates (ui_state s') = Some (c :: cs).
Proof.
  intros Hc Hi. unfold enter_random_simple.
  assert (E : exists t s0,
             match now with None => monotonic | Some t => ret t end s = (Done t, s0)
             /\ ui_state s0 = ui_state s).
  { destruct now as [t |].
    - exists t, s. split; reflexivity.
    - rewrite monotonic_eq. eexists _, _. split; reflexivity. }
  destruct E as (t & s0 & E & Hu).
  unfold bind at 1. rewrite E. unfold subscript. exec.
  cbn [simple_candidates simple_index set_screen simple_hold_started
       simple_hold_until].
  rewrite Hu, Hc, Hi. cbn [list_truthy or_empty].
  cbn [Z.ltb Z.compare Z.to_nat nth_error].
  replace (Z.of_nat (List.length (c :: cs)) <=? 0) with false
    by (symmetry; apply Z.leb_gt; cbn [List.length]; lia).
  cbn [orb]. simp_state.
  cbn [simple_hold_started simple_hold_until set_screen].
  destruct (_ && _); simp_state;
    (eexists; split; [ reflexivity | ]); cbn; auto.
Qed.

(** With a non-empty pool the browse samples
    [min(word_options_count, pool size)] candidates and returns. *)
Lemma start_random_simple_sample_size (s : State) :
  1 < word_options_count (ui_state s) ->
  WORDS s <> [] ->
  let r := start_random_simple s in
  fst r = Done tt /\
  exists cs,
    simple_candidates (ui_state (final r)) = Some cs /\
    Z.of_nat (List.length cs) =
    Z.min (word_options_count (ui_state s)) (Z.of_nat (List.length (WORDS s))).
Proof.
  intros H Hw. unfold start_random_simple. exec.
  destruct (Z.leb_spec (word_options_count (ui_state s)) 1); [ lia | ].
  cbv beta.
  destruct (Z.gtb_spec (word_options_count (ui_state s)) 0); [ | lia ].
  assert (Hlen : 1 <= Z.of_nat (List.length (WORDS s))).
  { destruct (WORDS s); [ congruence | cbn [List.length]; lia ]. }
  rewrite sample_eq by lia.
  set (k := Z.to_nat (Z.max 1 (Z.min (word_options_count (ui_state s))
                                     (Z.of_nat (List.length (WORDS s)))))).
  assert (Hk : k = S (pred k)) by lia.
  destruct (sample_from (WORDS s) k (rand_tape s)) as [| c cs] eqn:Es.
  { apply (f_equal (@List.length string)) in Es.
    rewrite sample_from_length in Es. cbn in Es. lia. }
  match goal with
  | |- context [enter_random_simple None ?s1] =>
      destruct (enter_random_simple_ok s1 None c cs eq_refl eq_refl)
        as (s2 & -> & _ & H3)
  end.
  split; [ reflexivity | ].
  eexists. split; [ exact H3 | ].
  rewrite <- Es, sample_from_length. lia.
Qed.

(** With an empty pool and more than one word option the browse asks
    [random.sample] for one item of an empty population. *)
Lemma start_random_simple_empty_pool (s : State) :
  1 < word_options_count (ui_state s) ->
  WORDS s = [] ->
  start_random_simple s = (Raised ValueError, s).
Proof.
  intros H Hw. unfold start_random_simple. exec.
  destruct (Z.leb_spec (word_options_count (ui_state s)) 1); [ lia | ].
  cbv beta. rewrite Hw. cbn [List.length Z.of_nat].
  rewrite sample_raises; [ reflexivity | cbn [List.length Z.of_nat]; lia ].
Qed.

(** ** The best match of the filtered pick *)


(** C9: with the candidates apple, apricot, banana and the filter "ap",
    the best match is "apple". *)
Theorem best_random_choice_apple (s : State) :
  random_candidates (ui_state s) = Some ["apple"; "apricot"; "banana"] ->
  random_filter (ui_state s) = "ap" ->
  best_random_choice s = (Done "apple", s).
Proof.
  intros Hc Hf. unfold best_random_choice. exec. now rewrite Hc, Hf.
Qed.

(** ** The claims on concrete runs *)

(** C1 as stated fails: 0.5s after an accepted arrow-down, an arrow-up
    changes direction and yet no gesture is put out. *)
Lemma direction_change_rejected_in_window :
  last_direction (scroll_state after_first_pulse) = Some "down" /\
  last_trigger_time (scroll_state after_first_pulse) = 10%Q /\
  gestures after_first_pulse = ["down"] /\
  handle_scroll "up" 10.5 after_first_pulse = (Done tt, after_first_pulse) /\
  gestures (final (handle_scroll "up" 10.5 after_first_pulse)) <>
  (gestures after_first_pulse ++ ["up"])%list.
Proof. vm_compute. repeat split; discriminate. Qed.

Lemma direction_change_emits_witness :
  last_direction (scroll_state after_first_pulse) <> Some "up" /\
  ~ rejected after_first_pulse 11 /\
  gestures (final (handle_scroll "up" 11 after_first_pulse)) = ["down"; "up"].
Proof.
  assert (Hd : last_direction (scroll_state after_first_pulse) <> Some "up")
    by (vm_compute; discriminate).
  assert (Ha : ~ rejected after_first_pulse 11)
    by (intros [H | H]; vm_compute in H; discriminate).
  split; [ exact Hd | split; [ exact Ha | ] ].
  exact (proj2 (direction_change_emits_when_accepted
                  after_first_pulse "up" 11 Hd) Ha).
Defined.



(** C5 as stated fails: [reset_idle] leaves [mode_index] and
    [scroll_block_until] as they were.  On the state [mid_round] they stay
    2 and 7; and after a whole round played from start-up and left through
    BACK, which ends in [reset_idle], the scroll block still holds the
    deadline 25 set when the reveal timer fired. *)
Lemma reset_idle_keeps_two_fields :
  mode_index (ui_state (final (reset_idle mid_round))) = 2 /\
  scroll_block_until (ui_state (final (reset_idle mid_round))) = 7%Q /\
  ui_state (final (reset_idle mid_round)) <> ui_state fresh /\
  ui_state after_round = idle_session 0 25 /\
  ui_state after_round <> ui_state fresh.
Proof. vm_compute. repeat split; discriminate. Qed.

(** C6 fails on the code: with an empty word list, three players and two
    word options, choosing Random Simple leads to the hand-off screen, and
    the tick that fires the hand-off deadline ends in [ValueError], raised
    by [random.sample] asked for one item of the empty list. *)
Theorem random_simple_empty_pool_raises :
  WORDS empty_pool_handoff = [] /\
  screen (ui_state empty_pool_handoff) = "handoff" /\
  handoff_pending_action (ui_state empty_pool_handoff) = "start_random_simple" /\
  word_options_count (ui_state empty_pool_handoff) = 2 /\
  handoff_until (ui_state empty_pool_handoff) = 21%Q /\
  fst (run_iteration 21 (-1) None empty_pool_handoff) = Raised ValueError /\
  start_random_simple empty_pool_handoff = (Raised ValueError, empty_pool_handoff).
Proof. vm_compute. repeat split. Qed.


Lemma best_random_choice_apple_witness :
  random_candidates (ui_state pick_state) =
  Some ["apple"; "apricot"; "banana"] /\
  random_filter (ui_state pick_state) = "ap" /\
  best_random_choice pick_state = (Done "apple", pick_state).
Proof.
  split; [ reflexivity | split; [ reflexivity | ] ].
  apply best_random_choice_apple; reflexivity.
Defined.

(** The scores behind the scenario of C9. *)
Example scores_for_ap :
  map (Fuzzy.score "ap") ["apple"; "apricot"; "banana"] =
  [(2, 2, 2, 2, -5); (2, 2, 2, 2, -7); (0, 0, 0, 1, -6)].
Proof. reflexivity. Qed.

Example int_of_string_examples :
  map Py.int_of_string
      [""; "0"; "007"; " 12 "; "-3"; "1_000"; "1__0"; "_1"; "1_"; "+"; "4a"] =
  [None; Some 0; Some 7; Some 12; Some (-3); Some 1000; None; None; None;
   None; None].
Proof. reflexivity. Qed.

Lemma reveal_deadline_transition_witness :
  screen (ui_state last_reveal) = "reveal" /\
  (reveal_until (ui_state last_reveal) <= 33)%Q /\
  screen (ui_state (final (update_timers 33 last_reveal))) = "done" /\
  scroll_block_until (ui_state (final (update_timers 33 last_reveal))) = 34%Q.
Proof.
  assert (Hs : screen (ui_state last_reveal) = "reveal") by reflexivity.
  assert (Hd : (reveal_until (ui_state last_reveal) <= 33)%Q)
    by (vm_compute; discriminate).
  destruct (proj1 (proj2 (reveal_deadline_transition last_reveal 33)) Hs Hd)
    as (_ & Hb & Hlast & _).
  split; [ exact Hs | split; [ exact Hd | split ] ].
  - apply Hlast. vm_compute. discriminate.
  - exact Hb.
Defined.


Lemma enter_confirm_bounds_witness :
  input_buffer (ui_state fresh) = "" /\
  player_count (ui_state (final (enter_confirm fresh))) = 1.
Proof.
  assert (B : input_buffer (ui_state fresh) = "") by reflexivity.
  destruct (enter_confirm_bounds fresh) as (_ & _ & _ & _ & _ & H).
  exact (conj B (H B)).
Defined.

Lemma assign_imposter_cases_witness :
  1 < player_count (ui_state four_players) /\
  imposter_all_chance (ui_state four_players) <
  draw 1 100 (rand_tape four_players) /\
  imposter_index (ui_state (final (assign_imposter four_players))) = Some 2 /\
  all_imposter_except_first
    (ui_state (final (assign_imposter four_players))) = false.
Proof.
  assert (Hp : 1 < player_count (ui_state four_players)) by reflexivity.
  assert (Hr : imposter_all_chance (ui_state four_players) <
               draw 1 100 (rand_tape four_players)) by reflexivity.
  destruct (assign_imposter_cases four_players) as (_ & _ & _ & _ & H & _).
  destruct (H Hp Hr) as (H1 & H2 & _).
  split; [ exact Hp | split; [ exact Hr | split; [ exact H2 | exact H1 ] ] ].
Defined.

Lemma reset_idle_fields_witness :
  ui_state (final (reset_idle mid_round)) = idle_session 2 7 /\
  update_timers 100 (final (reset_idle mid_round)) =
  (Done tt, final (reset_idle mid_round)).
Proof.
  destruct (reset_idle_fields mid_round) as (_ & H & _ & Ht & _).
  split; [ exact H | exact (Ht 100%Q) ].
Defined.

(** * Further properties of the program *)

(** ** The loop never raises on a non-empty word list *)

Create HintDb safe.

Lemma safe_at_bind {A B : Type} (m : M A) (k : A -> M B) (s s1 : State) (a : A) :
  m s = (Done a, s1) -> SafeAt s1 (k a) -> SafeAt s (bind m k).
Proof. intros E H. unfold SafeAt, bind. now rewrite E. Qed.

Lemma safe_bind {A B : Type} (m : M A) (k : A -> M B) :
  Safe m -> (forall a, Safe (k a)) -> Safe (bind m k).
Proof.
  intros Hm Hk s Hs. destruct (Hm s Hs) as (a & s1 & E & H1).
  apply (safe_at_bind m k s s1 a E). now apply Hk.
Qed.

(** After a read, the value read is that of a well-indexed state. *)
Lemma safe_bind_read {A B : Type} (f : State -> A) (k : A -> M B) :
  (forall s0, well_indexed s0 -> Safe (k (f s0))) -> Safe (bind (read f) k).
Proof. intros H s Hs. unfold SafeAt, bind, read. now apply (H s Hs s Hs). Qed.

Lemma safe_ret {A : Type} (a : A) : Safe (ret a).
Proof. intros s H. now exists a, s. Qed.

Lemma safe_read {A : Type} (f : State -> A) : Safe (read f).
Proof. intros s H. now exists (f s), s. Qed.

Lemma safe_next_rand : Safe next_rand.
Proof. intros s H. eexists _, _. rewrite next_rand_eq. split; [ reflexivity | exact H ]. Qed.

Lemma safe_monotonic : Safe monotonic.
Proof. intros s H. eexists _, _. rewrite monotonic_eq. split; [ reflexivity | exact H ]. Qed.

Lemma safe_randint (a b : Z) : a <= b -> Safe (randint a b).
Proof.
  intros Hab s H. eexists _, _. rewrite randint_draw by exact Hab.
  split; [ reflexivity | exact H ].
Qed.

Lemma safe_choice (w : string) (ws : list string) : Safe (choice (w :: ws)).
Proof. unfold choice. apply safe_bind; [ apply safe_next_rand | intros n; apply safe_ret ]. Qed.

Lemma safe_sample (pool : list string) (k : Z) :
  0 <= k <= Z.of_nat (List.length pool) -> Safe (sample pool k).
Proof.
  intros Hk s H. eexists _, _. rewrite sample_eq by exact Hk.
  split; [ reflexivity | exact H ].
Qed.

Lemma safe_subscript {A : Type} (xs : list A) (i : Z) :
  0 <= i < Z.of_nat (List.length xs) -> Safe (subscript xs i).
Proof.
  intros Hi s H. unfold subscript, SafeAt.
  destruct (Z.ltb_spec i 0); [ lia | ].
  destruct (Z.ltb_spec i 0); [ lia | ].
  destruct (Z.leb_spec (Z.of_nat (List.length xs)) i); [ lia | ].
  cbn [orb]. destruct (nth_error xs (Z.to_nat i)) as [x |] eqn:E.
  - now exists x, s.
  - apply nth_error_None in E. lia.
Qed.

#[local] Hint Resolve safe_ret safe_read safe_next_rand safe_monotonic
  safe_choice : safe.

(** An assignment that leaves the three indexed fields alone. *)
Ltac safe_leaf :=
  let s := fresh "s" in
  let H := fresh "H" in
  intros s H; eexists _, _; split; [ reflexivity | exact H ].

Ltac safe :=
  repeat first
    [ solve [ auto with safe ]
    | solve [ safe_leaf ]
    | apply safe_bind; [ | intros ? ]
    | match goal with
      | |- Safe (let _ := _ in _) => cbv zeta
      | |- Safe (match ?x with _ => _ end) => destruct x eqn:?
      end ].

Lemma safe_set_message_box_title (t : string) : Safe (set_message_box_title t).
Proof. safe_leaf. Qed.

Lemma safe_set_message_box_text (t : string) : Safe (set_message_box_text t).
Proof. safe_leaf. Qed.

Lemma safe_set_box_style (st : BoxStyle) : Safe (set_box_style st).
Proof. safe_leaf. Qed.

Lemma safe_is_current_imposter : Safe is_current_imposter.
Proof. unfold is_current_imposter, ui. safe. Qed.

#[local] Hint Resolve safe_set_message_box_title safe_set_message_box_text
  safe_set_box_style safe_is_current_imposter : safe.

Lemma safe_reset_idle : Safe reset_idle.
Proof.
  intros s (H1 & H2 & H3). eexists _, _. rewrite reset_idle_result.
  split; [ reflexivity | ].
  split; [ exact H1 | split; [ discriminate | exact H3 ] ].
Qed.

Lemma safe_enter_player_input : Safe enter_player_input.
Proof. unfold enter_player_input, ui. safe. Qed.

Lemma safe_enter_word_count_input : Safe enter_word_count_input.
Proof. unfold enter_word_count_input, ui. safe. Qed.

Lemma safe_enter_imposter_percent_input : Safe enter_imposter_percent_input.
Proof. unfold enter_imposter_percent_input, ui. safe. Qed.

Lemma safe_enter_confirm : Safe enter_confirm.
Proof. unfold enter_confirm, ui. safe. Qed.

Lemma safe_enter_word_entry : Safe enter_word_entry.
Proof. unfold enter_word_entry, ui. safe. Qed.

Lemma safe_start_handoff (now : Q) (advance_after : bool) (pending : string) :
  Safe (start_handoff now advance_after pending).
Proof. unfold start_handoff. safe. Qed.

Lemma safe_start_waiting : Safe start_waiting.
Proof. unfold start_waiting, ui. safe. Qed.

Lemma safe_start_reveal (now : Q) : Safe (start_reveal now).
Proof. unfold start_reveal, ui. safe. Qed.

#[local] Hint Resolve safe_reset_idle safe_enter_player_input
  safe_enter_word_count_input safe_enter_imposter_percent_input
  safe_enter_confirm safe_enter_word_entry safe_start_handoff
  safe_start_waiting safe_start_reveal : safe.

Lemma safe_advance_player : Safe advance_player.
Proof. unfold advance_player, ui. safe. Qed.

#[local] Hint Resolve safe_advance_player : safe.

Lemma safe_assign_mode_index (v : Z) :
  0 <= v < Z.of_nat (List.length GAME_MODES) ->
  Safe (ui_assign set_mode_index v).
Proof.
  intros Hv s (H1 & H2 & H3). eexists _, _. split; [ reflexivity | ].
  split; [ exact Hv | split; [ exact H2 | exact H3 ] ].
Qed.

Lemma safe_subscript_mode (s0 : State) :
  well_indexed s0 -> Safe (subscript GAME_MODES (mode_index (ui_state s0))).
Proof. intros (H1 & _). apply safe_subscript. exact H1. Qed.

Lemma safe_show_mode (index : Z) : Safe (show_mode index).
Proof.
  unfold show_mode, ui.
  apply safe_bind.
  - apply safe_assign_mode_index. apply Z.mod_pos_bound. reflexivity.
  - intros _. apply safe_bind_read. intros s0 H0.
    apply safe_bind; [ now apply safe_subscript_mode | intros current; safe ].
Qed.

#[local] Hint Resolve safe_show_mode : safe.

Lemma safe_enter_modes : Safe enter_modes.
Proof.
  unfold enter_modes, ui.
  apply safe_bind; [ safe | intros _ ].
  apply safe_bind; [ safe | intros u ].
  apply safe_bind; [ | intros _; safe ].
  destruct (_ >=? _); [ | safe ].
  apply safe_assign_mode_index. cbn. lia.
Qed.

#[local] Hint Resolve safe_enter_modes : safe.

Lemma safe_select_mode : Safe select_mode.
Proof.
  unfold select_mode, ui. apply safe_bind_read. intros s0 H0.
  apply safe_bind; [ now apply safe_subscript_mode | intros current ].
  safe.
Qed.

Lemma safe_choose_word_for_source (src : string) : Safe (choose_word_for_source src).
Proof. unfold choose_word_for_source. safe. Qed.

Lemma safe_assign_imposter : Safe assign_imposter.
Proof.
  intros s H. unfold SafeAt, assign_imposter. exec.
  destruct (Z.leb_spec (player_count (ui_state s)) 1) as [Hpc | Hpc]; cbv beta.
  - eexists _, _. split; [ reflexivity | exact H ].
  - rewrite randint_draw by lia.
    cbn [ui_state with_ui_state with_rand_tape rand_tape imposter_all_chance
         selected_mode set_all_imposter_except_first player_count
         word_options_count].
    destruct (_ <=? _); cbv beta.
    + eexists _, _. split; [ reflexivity | exact H ].
    + destruct (mode_is (selected_mode (ui_state s)) "player");
        destruct (mode_is (selected_mode (ui_state s)) "random");
        destruct (mode_is (selected_mode (ui_state s)) "random_simple");
        destruct (word_options_count (ui_state s) >? 1);
        cbn [andb orb]; cbv beta;
        rewrite randint_draw by lia;
        (eexists _, _; split; [ reflexivity | exact H ]).
Qed.

#[local] Hint Resolve safe_select_mode safe_choose_word_for_source
  safe_assign_imposter : safe.

Lemma safe_prepare_word_and_start : Safe prepare_word_and_start.
Proof. unfold prepare_word_and_start, ui. safe. Qed.

Lemma safe_best_random_choice : Safe best_random_choice.
Proof. unfold best_random_choice, ui. safe. Qed.

#[local] Hint Resolve safe_prepare_word_and_start safe_best_random_choice : safe.

Lemma safe_enter_random_pick : Safe enter_random_pick.
Proof. unfold enter_random_pick, ui. safe. Qed.

#[local] Hint Resolve safe_enter_random_pick : safe.

Lemma safe_start_random_flow : Safe start_random_flow.
Proof.
  unfold start_random_flow, ui.
  apply safe_bind; [ safe | intros u ].
  destruct (Z.leb_spec (word_options_count u) 1); [ safe | ].
  apply safe_bind; [ safe | intros words ].
  apply safe_bind; [ apply safe_sample; lia | intros cs; safe ].
Qed.

Lemma safe_subscript_simple (s0 : State) :
  well_indexed s0 ->
  list_truthy (simple_candidates (ui_state s0)) = true ->
  Safe (subscript (or_empty (simple_candidates (ui_state s0)))
                  (simple_index (ui_state s0))).
Proof. intros (_ & H2 & _) E. apply safe_subscript. now apply H2. Qed.

Lemma safe_enter_random_simple (now : option Q) : Safe (enter_random_simple now).
Proof.
  unfold enter_random_simple, ui.
  apply safe_bind; [ destruct now; safe | intros t ].
  apply safe_bind; [ safe | intros _ ].
  apply safe_bind; [ safe | intros _ ].
  apply safe_bind_read. intros s0 H0.
  apply safe_bind; [ | intros word; safe ].
  destruct (list_truthy (simple_candidates (ui_state s0))) eqn:E; [ | safe ].
  now apply safe_subscript_simple.
Qed.

#[local] Hint Resolve safe_start_random_flow safe_enter_random_simple : safe.

Lemma safe_assign_no_candidates : Safe (ui_assign set_simple_candidates (Some [])).
Proof.
  intros s (H1 & H2 & H3). eexists _, _. split; [ reflexivity | ].
  split; [ exact H1 | split; [ discriminate | exact H3 ] ].
Qed.

Lemma safe_assign_index_zero : Safe (ui_assign set_simple_index 0).
Proof.
  intros s (H1 & H2 & H3). eexists _, _. split; [ reflexivity | ].
  split; [ exact H1 | split; [ | exact H3 ] ].
  cbn. intros E. destruct (simple_candidates (ui_state s)) as [[| c cs] |];
    try discriminate. cbn [or_empty List.length]. lia.
Qed.

(** Installing a fresh browse list together with the index 0. *)
Lemma safe_assign_candidates (cs : list string) (rest : M unit) :
  Safe rest ->
  Safe (ui_assign set_simple_candidates (Some cs) ;;
        ui_assign set_simple_index 0 ;; rest).
Proof.
  intros Hr s (H1 & H2 & H3). unfold SafeAt, bind, ui_assign, update.
  apply Hr. split; [ exact H1 | split; [ | exact H3 ] ].
  cbn. destruct cs; [ discriminate | intros _; cbn [List.length]; lia ].
Qed.

Lemma safe_start_random_simple : Safe start_random_simple.
Proof.
  unfold start_random_simple, ui.
  apply safe_bind; [ safe | intros u ].
  destruct (Z.leb_spec (word_options_count u) 1).
  - apply safe_bind; [ safe | intros w ].
    apply safe_bind; [ safe | intros _ ].
    apply safe_bind; [ apply safe_assign_no_candidates | intros _ ].
    apply safe_bind; [ apply safe_assign_index_zero | intros _; safe ].
  - apply safe_bind_read. intros s0 (_ & _ & H0). cbv zeta.
    assert (1 <= Z.of_nat (List.length (WORDS s0)))
      by (destruct (WORDS s0); [ congruence | cbn [List.length]; lia ]).
    apply safe_bind; [ apply safe_sample; lia | intros cs ].
    apply safe_assign_candidates. safe.
Qed.

Lemma safe_lock_random_choice : Safe lock_random_choice.
Proof. unfold lock_random_choice. safe. Qed.

Lemma safe_lock_random_simple_choice : Safe lock_random_simple_choice.
Proof.
  unfold lock_random_simple_choice, ui. apply safe_bind_read. intros s0 H0.
  apply safe_bind; [ | intros _; safe ].
  destruct (list_truthy (simple_candidates (ui_state s0))) eqn:E; cbn [negb].
  - apply safe_bind; [ now apply safe_subscript_simple | intros w; safe ].
  - safe.
Qed.

#[local] Hint Resolve safe_start_random_simple safe_lock_random_choice
  safe_lock_random_simple_choice : safe.

Lemma safe_update_timers (now : Q) : Safe (update_timers now).
Proof. unfold update_timers, ui. safe. Qed.

Lemma safe_render : Safe render.
Proof. unfold render, ui. safe. Qed.

Lemma safe_update_scroll_state (now : Q) : Safe (update_scroll_state now).
Proof. unfold update_scroll_state. safe. Qed.

#[local] Hint Resolve safe_update_timers safe_render safe_update_scroll_state : safe.

Lemma safe_at (s : State) {A : Type} (m : M A) :
  Safe m -> well_indexed s -> SafeAt s m.
Proof. intros Hm H. now apply Hm. Qed.

(** Moving through the browse list keeps the index inside the list. *)
Lemma browse_index_in_range (u : UIState) (words : list string) (delta : Z) :
  let length := Z.max 1 (if list_truthy (simple_candidates u)
                         then Z.of_nat (List.length (or_empty (simple_candidates u)))
                         else Z.of_nat (List.length words)) in
  list_truthy (simple_candidates u) = true ->
  0 <= (simple_index u + delta) mod length
    < Z.of_nat (List.length (or_empty (simple_candidates u))).
Proof.
  cbv zeta. intros E. rewrite E.
  destruct (simple_candidates u) as [[| c cs] |]; try discriminate.
  cbn [or_empty]. set (n := Z.of_nat (List.length (c :: cs))).
  assert (1 <= n) by (unfold n; cbn [List.length]; lia).
  rewrite Z.max_r by lia. apply Z.mod_pos_bound. lia.
Qed.

Lemma safe_on_direction (direction : string) : Safe (on_direction direction).
Proof.
  intros s H. unfold on_direction.
  eapply safe_at_bind; [ reflexivity | ].
  eapply safe_at_bind; [ reflexivity | ].
  simp_state.
  match goal with
  | |- SafeAt ?s1 _ => assert (H1 : well_indexed s1) by exact H
  end.
  destruct (screen (ui_state s) == "handoff"); [ apply safe_at; [ safe | exact H1 ] | ].
  destruct (screen (ui_state s) == "wait_scroll"); [ apply safe_at; [ safe | exact H1 ] | ].
  destruct (screen (ui_state s) == "reveal"); [ apply safe_at; [ safe | exact H1 ] | ].
  destruct (screen (ui_state s) == "done"); [ apply safe_at; [ safe | exact H1 ] | ].
  destruct (screen (ui_state s) == "random_simple");
    [ | apply safe_at; [ safe | exact H1 ] ].
  destruct ((direction == GO_DIRECTION) || (direction == BACK_DIRECTION));
    [ | apply safe_at; [ safe | exact H1 ] ].
  eapply safe_at_bind; [ reflexivity | ]. cbv zeta.
  eapply safe_at_bind; [ reflexivity | ].
  eapply safe_at_bind; [ reflexivity | ].
  eapply safe_at_bind; [ apply monotonic_eq | ].
  eapply safe_at_bind; [ reflexivity | ].
  eapply safe_at_bind; [ apply monotonic_eq | ].
  apply safe_at; [ apply safe_enter_random_simple | ].
  destruct H as (Hm & Hi & Hw).
  split; [ exact Hm | split; [ | exact Hw ] ].
  simp_state. cbn [simple_candidates simple_index set_simple_hold_until
                   set_simple_hold_started set_simple_index].
  intros E. now apply (browse_index_in_range (ui_state s) (WORDS s)).
Qed.

#[local] Hint Resolve safe_on_direction : safe.

Lemma safe_handle_scroll (direction : string) (now : Q) :
  Safe (handle_scroll direction now).
Proof. unfold handle_scroll, ui. safe. Qed.

#[local] Hint Resolve safe_handle_scroll : safe.

Lemma safe_handle_key (ch : Z) (now : Q) : Safe (handle_key ch now).
Proof. unfold handle_key, ui. safe. Qed.

#[local] Hint Resolve safe_handle_key : safe.

Lemma safe_run_iteration (now : Q) (ch : Z) (mouse : option (bool * bool)) :
  Safe (run_iteration now ch mouse).
Proof. unfold run_iteration. safe. Qed.

Lemma safe_run_iterations (events : list (Q * Z * option (bool * bool))) :
  Safe (run_iterations events).
Proof.
  induction events as [| [[now ch] mouse] rest IH]; cbn [run_iterations].
  - apply safe_ret.
  - apply safe_bind; [ apply safe_run_iteration | intros _; exact IH ].
Qed.

Lemma startup_well_indexed (words : list string) (rand : list N) (mono : list Q) :
  words <> [] -> well_indexed (startup_state words rand mono).
Proof.
  intros H. split; [ cbn; lia | split; [ discriminate | exact H ] ].
Qed.


(** ** Properties kept by the procedures *)

Lemma maintains_ret {A : Type} (P : State -> Prop) (a : A) : Maintains P (ret a).
Proof. intros s H. exact H. Qed.

Lemma maintains_raise {A : Type} (P : State -> Prop) (e : Exn) :
  Maintains P (@raise A e).
Proof. intros s H. exact H. Qed.

Lemma maintains_read {A : Type} (P : State -> Prop) (f : State -> A) :
  Maintains P (read f).
Proof. intros s H. exact H. Qed.

Lemma maintains_bind {A B : Type} (P : State -> Prop) (m : M A) (k : A -> M B) :
  Maintains P m -> (forall a, Maintains P (k a)) -> Maintains P (bind m k).
Proof.
  intros Hm Hk s H. unfold bind, final. specialize (Hm s H). unfold final in Hm.
  destruct (m s) as [[a | e] s1]; cbn [snd] in *.
  - now apply Hk.
  - exact Hm.
Qed.

(** After a read, the value read is that of a state satisfying [P]. *)
Lemma maintains_bind_read {A B : Type} (P : State -> Prop)
      (f : State -> A) (k : A -> M B) :
  (forall s0, P s0 -> Maintains P (k (f s0))) -> Maintains P (bind (read f) k).
Proof. intros H s Hs. unfold bind, read. now apply (H s Hs s Hs). Qed.

Lemma maintains_next_rand (P : State -> Prop) :
  (forall t s, P s -> P (with_rand_tape t s)) -> Maintains P next_rand.
Proof. intros HP s H. rewrite next_rand_eq. now apply HP. Qed.

Lemma maintains_monotonic (P : State -> Prop) :
  (forall t s, P s -> P (with_mono_tape t s)) -> Maintains P monotonic.
Proof. intros HP s H. rewrite monotonic_eq. now apply HP. Qed.

Lemma maintains_sample_loop (P : State -> Prop) (k : nat) :
  (forall t s, P s -> P (with_rand_tape t s)) ->
  forall pool, Maintains P (sample_loop pool k).
Proof. intros HP pool s H. rewrite sample_loop_eq. now apply HP. Qed.

Ltac insensitive :=
  let t := fresh "t" in
  let s := fresh "s" in
  let H := fresh "H" in
  intros t s H; exact H.

Ltac maintains_leaf :=
  let s := fresh "s" in
  let H := fresh "H" in
  intros s H; first [ exact H | reflexivity ].

Ltac maintains_core unfold_procs :=
  repeat first
    [ apply maintains_ret
    | apply maintains_raise
    | apply maintains_read
    | apply maintains_next_rand; insensitive
    | apply maintains_monotonic; insensitive
    | apply maintains_sample_loop; insensitive
    | solve [ maintains_leaf ]
    | match goal with
      | |- Maintains _ (bind _ _) => apply maintains_bind; [ | intros ? ]
      | |- Maintains _ (let _ := _ in _) => cbv zeta
      | |- Maintains _ (match ?x with _ => _ end) => destruct x eqn:?
      end
    | progress unfold_procs ].

Ltac unfold_primitives :=
  unfold ui, randint, choice, sample, subscript, set_box_style,
    set_message_box_title, set_message_box_text, is_current_imposter,
    choose_word_for_source.

Ltac unfold_screens :=
  unfold enter_player_input, enter_word_count_input,
    enter_imposter_percent_input, enter_confirm, enter_word_entry, show_mode,
    enter_modes, start_handoff, start_waiting, start_reveal, advance_player,
    assign_imposter, best_random_choice, enter_random_pick,
    enter_random_simple.

Ltac unfold_flows :=
  unfold prepare_word_and_start, start_random_flow, start_random_simple,
    lock_random_choice, lock_random_simple_choice, select_mode.

(** Procedures that neither browse nor type: down to the primitives. *)
Ltac maintains :=
  maintains_core ltac:(first [ progress unfold_flows
                             | progress unfold_screens
                             | progress unfold_primitives ]).

(** ** The word list *)

Lemma mem_In (w : string) (seen : list string) : mem w seen = true <-> In w seen.
Proof.
  unfold mem. rewrite existsb_exists. split.
  - intros (x & Hx & E). apply String.eqb_eq in E. now subst.
  - intros H. exists w. split; [ exact H | apply String.eqb_refl ].
Qed.

Lemma load_words_loop_spec (lines : list string) :
  forall words seen,
    NoDup words ->
    (forall w, In w seen <-> In w words) ->
    (forall w, In w words -> w <> "") ->
    let result := load_words_loop lines words seen in
    NoDup result /\
    (forall w, In w result <->
               In w words \/
               (w <> "" /\ exists line, In line lines /\ Py.strip line = w)) /\
    exists added, result = (words ++ added)%list.
Proof.
  induction lines as [| line rest IH]; intros words seen Hnd Hseen Hne; cbn zeta.
  - cbn [load_words_loop]. split; [ exact Hnd | split ].
    + intros w. split; [ now left | ]. intros [H | (_ & l & [] & _)]. exact H.
    + exists []. now rewrite app_nil_r.
  - cbn [load_words_loop].
    destruct (negb (Py.truthy (Py.strip line)) || mem (Py.strip line) seen) eqn:E.
    + destruct (IH words seen Hnd Hseen Hne) as (H1 & H2 & H3).
      split; [ exact H1 | split; [ | exact H3 ] ].
      intros w. rewrite H2. split.
      * intros [H | (Hw & l & Hl & El)]; [ now left | right ].
        split; [ exact Hw | exists l; split; [ now right | exact El ] ].
      * intros [H | (Hw & l & [<- | Hl] & El)]; [ now left | | ].
        -- left. apply orb_true_iff in E as [E | E].
           ++ apply negb_true_iff in E. rewrite El in E.
              destruct w; [ congruence | discriminate ].
           ++ apply mem_In in E. rewrite El in E. now apply Hseen.
        -- right. split; [ exact Hw | now exists l ].
    + apply orb_false_iff in E as [E1 E2].
      apply negb_false_iff in E1.
      assert (Hnew : ~ In (Py.strip line) words).
      { intros H. apply Hseen in H. apply mem_In in H. congruence. }
      destruct (IH (words ++ [Py.strip line])%list (Py.strip line :: seen))
        as (H1 & H2 & added & H3).
      * apply NoDup_app; [ exact Hnd | repeat constructor; intros [] | ].
        intros w Hw [<- | []]. contradiction.
      * intros w. cbn [In]. rewrite in_app_iff. cbn [In]. rewrite Hseen. tauto.
      * intros w Hw. apply in_app_or in Hw as [Hw | [<- | []]];
          [ now apply Hne | ].
        destruct (Py.strip line); [ discriminate | discriminate ].
      * split; [ exact H1 | split ].
        -- intros w. rewrite H2, in_app_iff. cbn [In]. split.
           ++ intros [[H | [<- | []]] | (Hw & l & Hl & El)].
              ** now left.
              ** right. split.
                 --- destruct (Py.strip line); discriminate.
                 --- exists line. split; [ now left | reflexivity ].
              ** right. split; [ exact Hw | exists l; split; [ now right | exact El ] ].
           ++ intros [H | (Hw & l & [<- | Hl] & El)].
              ** left; now left.
              ** left; right; left. exact El.
              ** right. split; [ exact Hw | now exists l ].
        -- exists ([Py.strip line] ++ added)%list.
           now rewrite H3, <- app_assoc.
Qed.

Lemma filter_filter {A : Type} (f g : A -> bool) (l : list A) :
  filter f (filter g l) = filter (fun x => g x && f x) l.
Proof.
  induction l as [| x l IH]; [ reflexivity | ]. cbn [filter].
  destruct (g x); cbn [filter andb]; [ destruct (f x) | ]; now rewrite IH.
Qed.

Lemma load_words_loop_order (lines : list string) :
  forall words seen,
    load_words_loop lines words seen =
    (words ++
     filter (fun y => negb (mem y seen))
            (dedup_first (filter Py.truthy (map Py.strip lines))))%list.
Proof.
  induction lines as [| line rest IH]; intros words seen.
  - cbn. now rewrite app_nil_r.
  - cbn [load_words_loop map filter].
    destruct (Py.truthy (Py.strip line)) eqn:Et; cbn [negb orb].
    + cbn [dedup_first filter].
      destruct (mem (Py.strip line) seen) eqn:Em; cbn [negb].
      * rewrite IH. f_equal. rewrite filter_filter. apply filter_ext.
        intros y. destruct (String.eqb_spec y (Py.strip line)) as [-> | Hne];
          cbn [negb andb]; [ now rewrite Em | reflexivity ].
      * rewrite IH, <- app_assoc. cbn [app]. do 2 f_equal.
        rewrite filter_filter. apply filter_ext.
        intros y. unfold mem. cbn [existsb].
        rewrite negb_orb. reflexivity.
    + apply IH.
Qed.


(** ** [choose_word_for_source] *)

(** Asking for a word never fails: with an empty word list the answer is
    "mystery" and nothing is drawn; otherwise the answer is a word of the
    list and one number of the generator is used. *)
Theorem choose_word_never_fails (s : State) (src : string) :
  exists w s',
    choose_word_for_source src s = (Done w, s') /\
    (WORDS s = [] -> w = "mystery" /\ s' = s) /\
    (WORDS s <> [] ->
     In w (WORDS s) /\ s' = with_rand_tape (tl (rand_tape s)) s).
Proof.
  unfold choose_word_for_source, choice. exec.
  destruct (WORDS s) as [| w ws] eqn:E; simp_state.
  - exists "mystery", s. repeat split; congruence.
  - rewrite next_rand_eq. eexists _, _. split; [ reflexivity | ].
    split; [ discriminate | intros _ ].
    split; [ | reflexivity ].
    apply nth_In. apply Nat.mod_upper_bound. discriminate.
Qed.

(** ** Mode selection *)

Lemma mode_position (v : Z) :
  0 <= v < 4 -> v = 0 \/ v = 1 \/ v = 2 \/ v = 3.
Proof. lia. Qed.

Lemma show_mode_result (index : Z) (s : State) :
  exists mode s',
    nth_error GAME_MODES (Z.to_nat (index mod 4)) = Some mode /\
    show_mode index s = (Done tt, s') /\
    ui_state s' = set_mode_index (index mod 4) (ui_state s) /\
    message_box s' = mkMessageBox (name mode) (description mode) /\
    box_style s' = style mode.
Proof.
  unfold show_mode, subscript. exec.
  cbn [mode_index set_mode_index List.length GAME_MODES Z.of_nat
       Pos.of_succ_nat Pos.succ].
  destruct (mode_position (index mod 4)) as [E | [E | [E | E]]];
    [ apply Z.mod_pos_bound; lia | | | | ];
    rewrite E; cbn; eexists _, _;
    (split; [ reflexivity | split; [ reflexivity | repeat split ] ]).
Qed.

(** In the mode list a retreat moves one entry up and wraps around: from
    entry [i] to entry [(i - 1) mod 4], whose name and description are
    shown; the screen stays and no integer index makes it fail. *)
Theorem mode_select_retreat_cycles (s : State) :
  screen (ui_state s) = "mode_select" ->
  exists mode s',
    on_direction BACK_DIRECTION s = (Done tt, s') /\
    ui_state s' = set_mode_index ((mode_index (ui_state s) - 1) mod 4) (ui_state s) /\
    nth_error GAME_MODES (Z.to_nat ((mode_index (ui_state s) - 1) mod 4)) = Some mode /\
    message_box s' = mkMessageBox (name mode) (description mode) /\
    box_style s' = style mode.
Proof.
  intros Hscr. unfold on_direction. exec. rewrite Hscr.
  cbn [String.eqb Ascii.eqb Bool.eqb BACK_DIRECTION GO_DIRECTION].
  match goal with
  | |- context [show_mode ?i ?s1] =>
      destruct (show_mode_result i s1) as (mode & s' & Hn & -> & Hu & Hm & Hb)
  end.
  exists mode, s'. repeat split; assumption.
Qed.

(** Choosing a mode.  On BACK (entry 0) the session is reset; on entry 1,
    2, 3 the mode is recorded and the hand-off screen is shown for 3s, with
    the action that will follow it pending and no player advance; an index
    outside the list raises [IndexError] and changes nothing. *)
Theorem select_mode_outcomes (s : State) :
  (mode_index (ui_state s) = 0 -> select_mode s = reset_idle s) /\
  (forall i action,
     In (i, action) [(1, "enter_word_entry"); (2, "start_random_flow");
                     (3, "start_random_simple")] ->
     mode_index (ui_state s) = i ->
     exists mode s',
       nth_error GAME_MODES (Z.to_nat i) = Some mode /\
       select_mode s = (Done tt, s') /\
       screen (ui_state s') = "handoff" /\
       selected_mode (ui_state s') = Some mode /\
       handoff_pending_action (ui_state s') = action /\
       handoff_advance (ui_state s') = false /\
       handoff_until (ui_state s') = (hd 0%Q (mono_tape s) + 3)%Q /\
       (i = 1 -> word_buffer (ui_state s') = "")) /\
  (4 <= mode_index (ui_state s) \/ mode_index (ui_state s) < -4 ->
   select_mode s = (Raised IndexError, s)).
Proof.
  split; [ | split ].
  - intros E. unfold select_mode, subscript. exec. rewrite E. reflexivity.
  - intros i action Hin E. unfold select_mode, subscript. exec. rewrite E.
    destruct Hin as [Hin | [Hin | [Hin | []]]]; inversion Hin; subst i action;
      cbn [Z.ltb Z.leb Z.compare orb Z.to_nat List.length GAME_MODES Z.of_nat
           Pos.of_succ_nat Pos.succ Pos.compare Pos.compare_cont];
      match goal with
      | |- context [nth_error GAME_MODES ?n] =>
          let x := fresh "x" in
          set (x := nth_error GAME_MODES n); vm_compute in x; subst x
      end;
      simp_state; cbn [source String.eqb Ascii.eqb Bool.eqb]; simp_state;
      rewrite monotonic_eq; simp_state;
      (eexists _, _; split; [ reflexivity | split; [ reflexivity | ] ]);
      cbn -[Qplus]; repeat split; discriminate.
  - intros H. unfold select_mode, subscript. exec.
    cbn [List.length GAME_MODES Z.of_nat Pos.of_succ_nat Pos.succ].
    destruct (Z.ltb_spec (mode_index (ui_state s)) 0).
    + destruct (Z.ltb_spec (mode_index (ui_state s) + 4) 0); [ | lia ].
      reflexivity.
    + destruct (Z.ltb_spec (mode_index (ui_state s)) 0); [ lia | ].
      destruct (Z.leb_spec 4 (mode_index (ui_state s))); [ | lia ].
      reflexivity.
Qed.

(** ** The hand-off tick *)

Lemma update_timers_handoff_body (s : State) (now : Q) :
  screen (ui_state s) = "handoff" ->
  (handoff_until (ui_state s) <= now)%Q ->
  update_timers now s =
  ((if Py.truthy (handoff_pending_action (ui_state s)) then
      let action := handoff_pending_action (ui_state s) in
      ui_assign set_handoff_pending_action "" ;;
      if action == "enter_word_entry" then enter_word_entry
      else if action == "start_random_flow" then start_random_flow
      else if action == "start_random_simple" then start_random_simple
      else if action == "prepare_word_and_start" then prepare_word_and_start
      else ret tt
    else if handoff_advance (ui_state s) then advance_player
    else start_waiting) ;;
   ui_assign set_scroll_block_until (now + 1)%Q) s.
Proof.
  intros Hscr Hdl. apply Qgeb_ge in Hdl.
  unfold update_timers, ui, read. unfold bind at 1.
  rewrite Hscr, Hdl. reflexivity.
Qed.

(** A pending action runs once: when the tick that fires the hand-off
    deadline is over, whether it returned or raised, no action is pending
    any more. *)
Theorem handoff_tick_clears_pending (s : State) (now : Q) :
  screen (ui_state s) = "handoff" ->
  (handoff_until (ui_state s) <= now)%Q ->
  handoff_pending_action (ui_state (final (update_timers now s))) = "".
Proof.
  intros Hscr Hdl. rewrite (update_timers_handoff_body s now Hscr Hdl).
  set (P := fun s : State => handoff_pending_action (ui_state s) = "").
  change (P (final
    (((if Py.truthy (handoff_pending_action (ui_state s)) then
         let action := handoff_pending_action (ui_state s) in
         ui_assign set_handoff_pending_action "" ;;
         if action == "enter_word_entry" then enter_word_entry
         else if action == "start_random_flow" then start_random_flow
         else if action == "start_random_simple" then start_random_simple
         else if action == "prepare_word_and_start" then prepare_word_and_start
         else ret tt
       else if handoff_advance (ui_state s) then advance_player
       else start_waiting) ;;
      ui_assign set_scroll_block_until (now + 1)%Q) s))).
  destruct (Py.truthy (handoff_pending_action (ui_state s))) eqn:E.
  - cbv zeta. unfold bind at 1. unfold bind at 1.
    cbn [ui_assign update].
    match goal with
    | |- P (final (match ?k ?s1 with _ => _ end)) =>
        assert (K : Maintains P k) by (subst P; maintains);
        assert (H1 : P s1) by reflexivity;
        specialize (K s1 H1); unfold final in K |- *;
        destruct (k s1) as [[[] | e] s2]; cbn [snd] in *; exact K
    end.
  - assert (H0 : P s).
    { subst P. cbv beta. destruct (handoff_pending_action (ui_state s));
        [ reflexivity | discriminate ]. }
    assert (K : Maintains P
                  ((if handoff_advance (ui_state s) then advance_player
                    else start_waiting) ;;
                   ui_assign set_scroll_block_until (now + 1)%Q))
      by (subst P; maintains).
    exact (K s H0).
Qed.

(** ** Who is an imposter *)

Lemma imposter_at_eq (s : State) (p : Z) :
  imposter_at s p =
  if all_imposter_except_first (ui_state s) then
    if player_count (ui_state s) >? 1 then negb (p =? 0) else true
  else match imposter_index (ui_state s) with
       | Some i => p =? i
       | None => false
       end.
Proof.
  unfold imposter_at, is_current_imposter. exec.
  cbn [all_imposter_except_first player_count current_player imposter_index
       set_current_player].
  destruct (all_imposter_except_first (ui_state s)); [ | reflexivity ].
  destruct (_ >? _); reflexivity.
Qed.

Lemma assign_imposter_outcome (s : State) :
  let u := ui_state s in
  let u' := ui_state (final (assign_imposter s)) in
  player_count u' = player_count u /\
  ((player_count u <= 1 /\ all_imposter_except_first u' = false /\
    imposter_index u' = None) \/
   (1 < player_count u /\ all_imposter_except_first u' = true /\
    imposter_index u' = None) \/
   (1 < player_count u /\ all_imposter_except_first u' = false /\
    exists i, imposter_index u' = Some i /\
              (if first_player_spared u then 1 else 0) <= i <= player_count u - 1)).
Proof.
  cbv zeta. unfold assign_imposter, first_player_spared. exec.
  destruct (Z.leb_spec (player_count (ui_state s)) 1) as [Hpc | Hpc]; cbv beta.
  - split; [ reflexivity | left; repeat split; exact Hpc ].
  - rewrite randint_draw by lia.
    cbn [ui_state with_ui_state with_rand_tape rand_tape imposter_all_chance
         selected_mode set_all_imposter_except_first player_count
         word_options_count].
    destruct (_ <=? _); cbv beta.
    + split; [ reflexivity | right; left; repeat split; exact Hpc ].
    + destruct (mode_is (selected_mode (ui_state s)) "player");
        destruct (mode_is (selected_mode (ui_state s)) "random");
        destruct (mode_is (selected_mode (ui_state s)) "random_simple");
        destruct (word_options_count (ui_state s) >? 1);
        cbn [andb orb]; cbv beta;
        rewrite randint_draw by lia;
        cbn [ui_state with_ui_state with_rand_tape rand_tape fst snd];
        (split; [ reflexivity | right; right ]);
        (split; [ exact Hpc | split; [ reflexivity | ] ]);
        (eexists; split; [ reflexivity | apply draw_range; lia ]).
Qed.

(** The roles after [assign_imposter], for every draw of the generator.
    A sole player is never an imposter.  With more than one player at
    least one of the players is an imposter; in mode player, and in the
    random modes with more than one word option, player 0 (who chose the
    word) is not; and unless everybody but player 0 is an imposter, there
    is exactly one. *)
Theorem assign_imposter_roles (s : State) :
  let u := ui_state s in
  let s' := final (assign_imposter s) in
  (player_count u <= 1 -> forall p, imposter_at s' p = false) /\
  (1 < player_count u ->
   exists p, 0 <= p < player_count u /\ imposter_at s' p = true) /\
  (1 < player_count u -> first_player_spared u = true ->
   imposter_at s' 0 = false) /\
  (all_imposter_except_first (ui_state s') = false ->
   forall p q, imposter_at s' p = true -> imposter_at s' q = true -> p = q).
Proof.
  cbv zeta. destruct (assign_imposter_outcome s) as (Hpc & Hcases).
  repeat split.
  - intros H p. rewrite imposter_at_eq.
    destruct Hcases as [(_ & -> & ->) | [(? & _) | (? & _)]]; [ reflexivity | lia | lia ].
  - intros H. destruct Hcases as [(? & _) | [(_ & Ha & Hi) | (_ & Ha & i & Hi & Hr)]].
    + lia.
    + exists 1. split; [ lia | ]. rewrite imposter_at_eq, Ha, Hpc.
      destruct (Z.gtb_spec (player_count (ui_state s)) 1); [ reflexivity | lia ].
    + exists i. split; [ destruct (first_player_spared _); lia | ].
      rewrite imposter_at_eq, Ha, Hi. apply Z.eqb_refl.
  - intros H Hsp. rewrite imposter_at_eq.
    destruct Hcases as [(? & _) | [(_ & Ha & Hi) | (_ & Ha & i & Hi & Hr)]].
    + lia.
    + rewrite Ha, Hpc.
      destruct (Z.gtb_spec (player_count (ui_state s)) 1); [ reflexivity | lia ].
    + rewrite Ha, Hi. rewrite Hsp in Hr. apply Z.eqb_neq. lia.
  - intros Ha p q. rewrite !imposter_at_eq, Ha.
    destruct (imposter_index _); [ | discriminate ].
    intros Hp%Z.eqb_eq Hq%Z.eqb_eq. congruence.
Qed.

(** ** Procedures that always return *)

Lemma returns_ret {A : Type} (a : A) : Returns (ret a).
Proof. intros s. now exists a, s. Qed.

Lemma returns_read {A : Type} (f : State -> A) : Returns (read f).
Proof. intros s. now exists (f s), s. Qed.

Lemma returns_update (f : State -> State) : Returns (update f).
Proof. intros s. now exists tt, (f s). Qed.

Lemma returns_bind {A B : Type} (m : M A) (k : A -> M B) :
  Returns m -> (forall a, Returns (k a)) -> Returns (bind m k).
Proof.
  intros Hm Hk s. destruct (Hm s) as (a & s1 & E). unfold bind. rewrite E.
  apply Hk.
Qed.

Lemma returns_next_rand : Returns next_rand.
Proof. intros s. rewrite next_rand_eq. now eexists _, _. Qed.

Lemma returns_monotonic : Returns monotonic.
Proof. intros s. rewrite monotonic_eq. now eexists _, _. Qed.

Lemma returns_assign_imposter : Returns assign_imposter.
Proof.
  intros s. unfold assign_imposter. exec.
  destruct (Z.leb_spec (player_count (ui_state s)) 1) as [Hpc | Hpc]; cbv beta.
  - now eexists _, _.
  - rewrite randint_draw by lia.
    cbn [ui_state with_ui_state with_rand_tape rand_tape imposter_all_chance
         selected_mode set_all_imposter_except_first player_count
         word_options_count].
    destruct (_ <=? _); cbv beta.
    + now eexists _, _.
    + destruct (mode_is (selected_mode (ui_state s)) "player");
        destruct (mode_is (selected_mode (ui_state s)) "random");
        destruct (mode_is (selected_mode (ui_state s)) "random_simple");
        destruct (word_options_count (ui_state s) >? 1);
        cbn [andb orb]; cbv beta;
        rewrite randint_draw by lia; now eexists _, _.
Qed.

Ltac returns :=
  repeat first
    [ apply returns_ret
    | apply returns_read
    | apply returns_update
    | apply returns_next_rand
    | apply returns_monotonic
    | apply returns_assign_imposter
    | match goal with
      | |- Returns (bind _ _) => apply returns_bind; [ | intros ? ]
      | |- Returns (let _ := _ in _) => cbv zeta
      | |- Returns (match ?x with _ => _ end) => destruct x eqn:?
      end
    | progress unfold ui_assign, box_assign
    | progress unfold ui, choice, set_box_style, set_message_box_title,
        set_message_box_text, is_current_imposter, choose_word_for_source
    | progress unfold start_handoff, start_waiting, start_reveal,
        route_first_turn ].

Lemma returns_choose_word_for_source (src : string) :
  Returns (choose_word_for_source src).
Proof. returns. Qed.

Lemma returns_route_first_turn : Returns route_first_turn.
Proof. returns. Qed.

Lemma prepare_word_and_start_route :
  prepare_word_and_start =
  (u <- ui ;;
   match selected_mode u with
   | None => ret tt
   | Some mode =>
       (if source mode == "player" then
          ui_assign set_chosen_word (Py.or_else (word_buffer u) "mystery")
        else if (source mode == "random") && Py.truthy (chosen_word u) then ret tt
        else if (source mode == "random_simple") && Py.truthy (chosen_word u) then ret tt
        else
          w <- choose_word_for_source (source mode) ;;
          ui_assign set_chosen_word w) ;;
       ui_assign set_current_player 0 ;;
       assign_imposter ;;
       route_first_turn
   end).
Proof. reflexivity. Qed.

Lemma returns_prepare_word_and_start : Returns prepare_word_and_start.
Proof. rewrite prepare_word_and_start_route. returns. Qed.

(** ** Starting the round *)

Lemma final_bind {A B : Type} (m : M A) (k : A -> M B) (s s1 : State) (a : A) :
  m s = (Done a, s1) -> bind m k s = k a s1.
Proof. intros E. unfold bind. now rewrite E. Qed.

Lemma route_first_turn_outcome (s : State) :
  let u := ui_state s in
  let r := route_first_turn s in
  let u' := ui_state (final r) in
  fst r = Done tt /\
  round_fields (final r) = round_fields s /\
  (1 < word_options_count u -> 1 < player_count u -> current_player u = 0 ->
   screen u' = "handoff" /\ handoff_advance u' = true /\
   handoff_pending_action u' = "" /\
   handoff_until u' = (hd 0%Q (mono_tape s) + 3)%Q) /\
  (1 < word_options_count u -> player_count u <= 1 ->
   screen u' = "reveal" /\ reveal_until u' = (hd 0%Q (mono_tape s) + 3)%Q) /\
  (word_options_count u <= 1 -> screen u' = "wait_scroll").
Proof.
  cbv zeta. unfold route_first_turn, round_fields. exec.
  destruct (Z.gtb_spec (word_options_count (ui_state s)) 1) as [Hw | Hw];
    cbn [andb].
  - destruct (Z.gtb_spec (player_count (ui_state s)) 1) as [Hp | Hp];
      cbn [andb].
    + destruct (Z.eqb_spec (current_player (ui_state s)) 0) as [Hc | Hc];
        cbv beta; rewrite monotonic_eq; simp_state.
      * repeat split; intros; try lia; reflexivity.
      * unfold start_reveal, is_current_imposter. exec.
        repeat match goal with
               | |- context [(if ?b then _ else _) _] => destruct b; cbv beta
               end; repeat split; intros; try lia; reflexivity.
    + cbv beta. rewrite monotonic_eq. simp_state.
      unfold start_reveal, is_current_imposter. exec.
      repeat match goal with
             | |- context [(if ?b then _ else _) _] => destruct b; cbv beta
             end; repeat split; intros; try lia; reflexivity.
  - cbv beta. repeat split; intros; try lia; reflexivity.
Qed.

Lemma assign_imposter_round_fields (v : Z * Z * Z * string) :
  Maintains (fun s => round_fields s = v) assign_imposter.
Proof. maintains. Qed.

(** [prepare_word_and_start] never fails, word list empty or not.  With
    no mode selected it does nothing.  Otherwise the round starts at
    player 0 with the set-up unchanged; in mode player the word is the
    typed buffer ("mystery" if that is empty), in the random modes a word
    already picked is kept; and the first screen is the hand-off screen
    when there are several word options and several players, the reveal
    screen when there are several word options and one player, the
    swipe-to-reveal screen otherwise. *)
Theorem prepare_word_and_start_routes (s : State) :
  let u := ui_state s in
  let r := prepare_word_and_start s in
  let u' := ui_state (final r) in
  fst r = Done tt /\
  (selected_mode u = None -> final r = s) /\
  (forall mode, selected_mode u = Some mode ->
     current_player u' = 0 /\
     player_count u' = player_count u /\
     word_options_count u' = word_options_count u /\
     (source mode = "player" ->
      chosen_word u' = Py.or_else (word_buffer u) "mystery") /\
     ((source mode = "random" \/ source mode = "random_simple") ->
      chosen_word u <> "" -> chosen_word u' = chosen_word u) /\
     (1 < word_options_count u -> 1 < player_count u ->
      screen u' = "handoff" /\ handoff_advance u' = true /\
      handoff_pending_action u' = "") /\
     (1 < word_options_count u -> player_count u <= 1 -> screen u' = "reveal") /\
     (word_options_count u <= 1 -> screen u' = "wait_scroll")).
Proof.
  cbv zeta. split.
  { destruct (returns_prepare_word_and_start s) as ([] & s' & ->). reflexivity. }
  split.
  { intros Hm. rewrite prepare_word_and_start_route. unfold bind, ui, read.
    now rewrite Hm. }
  intros mode Hm.
  remember (final (prepare_word_and_start s)) as sf eqn:Ef.
  rewrite prepare_word_and_start_route in Ef. unfold ui at 1, read at 1 in Ef.
  unfold bind at 1 in Ef. rewrite Hm in Ef.
  (* the word *)
  assert (E1 : exists s1,
    (if source mode == "player" then
       ui_assign set_chosen_word (Py.or_else (word_buffer (ui_state s)) "mystery")
     else if (source mode == "random") && Py.truthy (chosen_word (ui_state s))
          then ret tt
     else if (source mode == "random_simple") && Py.truthy (chosen_word (ui_state s))
          then ret tt
     else w <- choose_word_for_source (source mode) ;;
          ui_assign set_chosen_word w) s = (Done tt, s1) /\
    current_player (ui_state s1) = current_player (ui_state s) /\
    player_count (ui_state s1) = player_count (ui_state s) /\
    word_options_count (ui_state s1) = word_options_count (ui_state s) /\
    (source mode = "player" ->
     chosen_word (ui_state s1) = Py.or_else (word_buffer (ui_state s)) "mystery") /\
    ((source mode = "random" \/ source mode = "random_simple") ->
     chosen_word (ui_state s) <> "" ->
     chosen_word (ui_state s1) = chosen_word (ui_state s))).
  { assert (Ht : chosen_word (ui_state s) <> "" ->
                 Py.truthy (chosen_word (ui_state s)) = true)
      by (destruct (chosen_word (ui_state s)); [ congruence | reflexivity ]).
    destruct (String.eqb_spec (source mode) "player") as [Ep | Ep].
    - eexists. split; [ reflexivity | ]. cbn. rewrite Ep.
      repeat split; intros; try reflexivity.
      destruct H as [H | H]; discriminate.
    - destruct (String.eqb_spec (source mode) "random") as [Er | Er].
      + destruct (Py.truthy (chosen_word (ui_state s))) eqn:Et; cbn [andb].
        * eexists. split; [ reflexivity | ]. repeat split; intros; congruence.
        * rewrite Er. cbn [String.eqb Ascii.eqb Bool.eqb andb].
          destruct (returns_choose_word_for_source "random" s) as (w & s0 & E).
          unfold bind. rewrite E. eexists. split; [ reflexivity | ].
          unfold choose_word_for_source, choice in E. revert E. exec.
          destruct (WORDS s); simp_state; [ | rewrite next_rand_eq ];
            intros [= <- <-]; cbn; repeat split; intros; try congruence;
            (specialize (Ht H0); congruence).
      + destruct (String.eqb_spec (source mode) "random_simple") as [Es | Es].
        * destruct (Py.truthy (chosen_word (ui_state s))) eqn:Et; cbn [andb].
          -- eexists. split; [ reflexivity | ]. repeat split; intros; congruence.
          -- destruct (returns_choose_word_for_source (source mode) s) as (w & s0 & E).
             unfold bind. rewrite E. eexists. split; [ reflexivity | ].
             unfold choose_word_for_source, choice in E. revert E. exec.
             destruct (WORDS s); simp_state; [ | rewrite next_rand_eq ];
               intros [= <- <-]; cbn; repeat split; intros; try congruence;
               (specialize (Ht H0); congruence).
        * cbn [andb].
          destruct (returns_choose_word_for_source (source mode) s) as (w & s0 & E).
          unfold bind. rewrite E. eexists. split; [ reflexivity | ].
          unfold choose_word_for_source, choice in E. revert E. exec.
          destruct (WORDS s); simp_state; [ | rewrite next_rand_eq ];
            intros [= <- <-]; cbn; repeat split; intros; try congruence;
            (destruct H as [H | H]; congruence). }
  destruct E1 as (s1 & E1 & Hc1 & Hp1 & Hw1 & Hpl & Hrd).
  rewrite (final_bind _ _ s s1 tt E1) in Ef.
  rewrite (final_bind (ui_assign set_current_player 0) _ s1 _ tt eq_refl) in Ef.
  match type of Ef with
  | context [bind assign_imposter _ ?s2] =>
      set (st2 := s2) in Ef;
      destruct (returns_assign_imposter st2) as ([] & s3 & E3);
      pose proof (assign_imposter_round_fields (round_fields st2) st2 eq_refl) as F3;
      rewrite E3 in F3; cbn [final snd] in F3;
      rewrite (final_bind _ _ st2 s3 tt E3) in Ef
  end.
  destruct (route_first_turn_outcome s3) as (_ & F4 & R1 & R2 & R3).
  cbv beta in Ef. rewrite <- Ef in F4, R1, R2, R3.
  unfold round_fields in F3, F4. subst st2. cbn in F3.
  injection F3 as G1 G2 G3 G4. injection F4 as K1 K2 K3 K4.
  rewrite G1, G2, G3, Hp1, Hw1 in R1. rewrite G2, G3, Hp1, Hw1 in R2.
  rewrite G3, Hw1 in R3.
  split; [ congruence | split; [ congruence | split; [ congruence | ] ] ].
  split; [ intros H; rewrite K4, G4; now apply Hpl | ].
  split; [ intros H H'; rewrite K4, G4; now apply Hrd | ].
  split; [ intros H H'; destruct (R1 H H' eq_refl) as (? & ? & ? & _); auto | ].
  split; [ intros H H'; now apply R2 | exact R3 ].
Qed.

(** ** The hand-off screen before its deadline *)

Lemma preserves_ret {A : Type} (P : State -> Prop) (a : A) : Preserves P (ret a).
Proof. intros s H. now exists a, s. Qed.

Lemma preserves_read {A : Type} (P : State -> Prop) (f : State -> A) :
  Preserves P (read f).
Proof. intros s H. now exists (f s), s. Qed.

Lemma preserves_bind {A B : Type} (P : State -> Prop) (m : M A) (k : A -> M B) :
  Preserves P m -> (forall a, Preserves P (k a)) -> Preserves P (bind m k).
Proof.
  intros Hm Hk s H. destruct (Hm s H) as (a & s1 & E & H1).
  unfold bind. rewrite E. now apply Hk.
Qed.

(** After a read, the value read is that of a state satisfying [P]. *)
Lemma preserves_bind_read {A B : Type} (P : State -> Prop)
      (f : State -> A) (k : A -> M B) :
  (forall s0, P s0 -> Preserves P (k (f s0))) -> Preserves P (bind (read f) k).
Proof. intros H s Hs. unfold bind, read. now apply (H s Hs s Hs). Qed.

Lemma preserves_monotonic (P : State -> Prop) :
  (forall t s, P s -> P (with_mono_tape t s)) -> Preserves P monotonic.
Proof.
  intros HP s H. rewrite monotonic_eq. eexists _, _.
  split; [ reflexivity | now apply HP ].
Qed.

(** An assignment that [P] does not look at. *)
Ltac preserves_leaf :=
  let s := fresh "s" in
  let H := fresh "H" in
  intros s H; eexists _, _; split; [ reflexivity | exact H ].

Ltac preserves :=
  repeat first
    [ apply preserves_ret
    | apply preserves_read
    | apply preserves_monotonic; insensitive
    | solve [ preserves_leaf ]
    | match goal with
      | |- Preserves _ (bind _ _) => apply preserves_bind; [ | intros ? ]
      | |- Preserves _ (let _ := _ in _) => cbv zeta
      | |- Preserves _ (match ?x with _ => _ end) => destruct x eqn:?
      end ].

Section Handoff.

Variables (s : State) (now : Q).
Hypothesis Hscr : screen (ui_state s) = "handoff".
Hypothesis Hnow : (now < handoff_until (ui_state s))%Q.

Lemma handoff_update_scroll_state :
  Preserves (fun s' => display s' = display s) (update_scroll_state now).
Proof. unfold update_scroll_state. preserves. Qed.

Lemma handoff_update_timers :
  Preserves (fun s' => display s' = display s) (update_timers now).
Proof.
  unfold update_timers, ui. apply preserves_bind_read. intros s0 H0.
  injection H0 as -> _ _. rewrite Hscr.
  apply Qltb_lt in Hnow. unfold Qltb in Hnow. apply negb_true_iff in Hnow.
  unfold Qgeb. rewrite Hnow.
  cbn [String.eqb Ascii.eqb Bool.eqb andb]. apply preserves_ret.
Qed.

Lemma handoff_render :
  Preserves (fun s' => display s' = display s) render.
Proof.
  unfold render, ui. apply preserves_bind; [ preserves | intros t ].
  apply preserves_bind_read. intros s0 H0.
  injection H0 as -> _ _. rewrite Hscr.
  cbn [String.eqb Ascii.eqb Bool.eqb andb]. preserves.
Qed.

Lemma handoff_on_direction (direction : string) :
  Preserves (fun s' => display s' = display s) (on_direction direction).
Proof.
  unfold on_direction, ui. apply preserves_bind; [ preserves | intros _ ].
  apply preserves_bind_read. intros s0 H0.
  injection H0 as -> _ _. rewrite Hscr.
  cbn [String.eqb Ascii.eqb Bool.eqb]. apply preserves_ret.
Qed.

Lemma handoff_handle_scroll (direction : string) :
  Preserves (fun s' => display s' = display s) (handle_scroll direction now).
Proof.
  pose proof (handoff_on_direction direction) as Hd.
  unfold handle_scroll, ui.
  repeat first
    [ exact Hd
    | apply preserves_ret
    | apply preserves_read
    | solve [ preserves_leaf ]
    | match goal with
      | |- Preserves _ (bind _ _) => apply preserves_bind; [ | intros ? ]
      | |- Preserves _ (match ?x with _ => _ end) => destruct x eqn:?
      end ].
Qed.

Lemma handoff_handle_key (ch : Z) :
  Preserves (fun s' => display s' = display s) (handle_key ch now).
Proof.
  unfold handle_key, ui. apply preserves_bind_read. intros s0 H0.
  injection H0 as -> _ _. rewrite Hscr.
  cbn [enter_scrolls String.eqb Ascii.eqb Bool.eqb andb orb].
  rewrite !andb_false_r. cbn [andb]. apply preserves_ret.
Qed.

Lemma handoff_run_iteration (ch : Z) (mouse : option (bool * bool)) :
  Preserves (fun s' => display s' = display s) (run_iteration now ch mouse).
Proof.
  pose proof handoff_update_scroll_state as H1.
  pose proof handoff_update_timers as H2.
  pose proof handoff_render as H3.
  pose proof handoff_handle_scroll as H4.
  pose proof (handoff_handle_key ch) as H5.
  unfold run_iteration.
  repeat first
    [ assumption
    | apply H4
    | apply preserves_ret
    | match goal with
      | |- Preserves _ (bind _ _) => apply preserves_bind; [ | intros ? ]
      | |- Preserves _ (let _ := _ in _) => cbv zeta
      | |- Preserves _ (match ?x with _ => _ end) => destruct x eqn:?
      end ].
Qed.

End Handoff.


(** ** The two time stamps of the debouncer *)

Lemma times_agree_keeps {A : Type} (m : M A) : Keeps m -> Maintains times_agree m.
Proof.
  intros K s H. specialize (K s). unfold frame in K. unfold times_agree in *.
  congruence.
Qed.

Lemma times_agree_on_direction (direction : string) :
  Maintains times_agree (on_direction direction).
Proof.
  intros s H. unfold times_agree in *.
  now rewrite on_direction_scroll_state.
Qed.

(** What follows [m] establishes [P] by itself. *)
Lemma maintains_then {A B : Type} (P : State -> Prop) (m : M A) (k : A -> M B) :
  Maintains P m -> (forall a s, P (final (k a s))) -> Maintains P (bind m k).
Proof.
  intros Hm Hk s H. unfold bind, final. specialize (Hm s H). unfold final in Hm.
  destruct (m s) as [[a | e] s1]; cbn [snd] in *.
  - apply Hk.
  - exact Hm.
Qed.

Lemma times_agree_handle_scroll (direction : string) (now : Q) :
  Maintains times_agree (handle_scroll direction now).
Proof.
  pose proof (times_agree_on_direction direction) as Hd.
  unfold handle_scroll, ui.
  apply maintains_bind; [ apply maintains_read | intros c ].
  destruct (Qltb _ _); [ apply maintains_ret | ].
  apply maintains_bind; [ apply maintains_read | intros u ].
  destruct (Qltb _ _); [ apply maintains_ret | ].
  apply maintains_then; [ | intros a s; reflexivity ].
  destruct (negb (active c)).
  - apply maintains_bind; [ maintains_leaf | intros _ ].
    apply maintains_bind; [ maintains_leaf | intros _ ]. exact Hd.
  - apply maintains_bind; [ apply maintains_read | intros c' ].
    destruct (_ || _); [ | apply maintains_ret ].
    apply maintains_bind; [ exact Hd | intros _ ]. maintains_leaf.
Qed.

Lemma times_agree_handle_key (ch : Z) (now : Q) :
  Maintains times_agree (handle_key ch now).
Proof.
  unfold handle_key, ui.
  apply maintains_bind; [ apply maintains_read | intros u ].
  repeat match goal with
         | |- Maintains _ (if ?b then _ else _) => destruct b
         end;
    try apply times_agree_handle_scroll; apply times_agree_keeps; keeps.
Qed.

Lemma times_agree_run_iteration (now : Q) (ch : Z) (mouse : option (bool * bool)) :
  Maintains times_agree (run_iteration now ch mouse).
Proof.
  unfold run_iteration.
  apply maintains_bind;
    [ unfold update_scroll_state;
      apply maintains_bind; [ apply maintains_read | intros c ];
      destruct (_ && _); [ | apply maintains_ret ];
      apply maintains_bind; [ maintains_leaf | intros _; maintains_leaf ]
    | intros _ ].
  apply maintains_bind; [ apply times_agree_keeps; auto with keeps | intros _ ].
  apply maintains_bind; [ apply times_agree_keeps; auto with keeps | intros _ ].
  repeat match goal with
         | |- Maintains _ (if ?b then _ else _) => destruct b
         | |- Maintains _ (match ?x with _ => _ end) => destruct x
         | |- Maintains _ (let _ := _ in _) => cbv zeta
         end;
    try apply times_agree_handle_scroll; try apply times_agree_handle_key;
    apply maintains_ret.
Qed.

Lemma maintains_run_iterations (P : State -> Prop) :
  (forall now ch mouse, Maintains P (run_iteration now ch mouse)) ->
  forall events, Maintains P (run_iterations events).
Proof.
  intros H events.
  induction events as [| [[now ch] mouse] rest IH]; cbn [run_iterations].
  - apply maintains_ret.
  - apply maintains_bind; [ apply H | intros _; exact IH ].
Qed.

(** Throughout every run of the loop, to its end or to the exception that
    ends it, the two time stamps of the debouncer hold the same reading:
    [last_time] is never anything but the time of the last accepted
    trigger. *)
Theorem scroll_times_agree
        (words : list string) (rand : list N) (mono : list Q)
        (events : list (Q * Z * option (bool * bool))) :
  times_agree (final (run_iterations events (startup_state words rand mono))).
Proof.
  apply (maintains_run_iterations times_agree times_agree_run_iteration).
  unfold startup_state.
  apply (times_agree_keeps reset_idle keeps_reset_idle). reflexivity.
Qed.

Lemma snoc_neq {A : Type} (l : list A) (x : A) : (l ++ [x])%list <> l.
Proof.
  intros H. apply (f_equal (@List.length A)) in H.
  rewrite length_app in H. cbn in H. lia.
Qed.

(** With the time stamps in agreement, a pulse that passes the two guards
    more than 0.8s after the last accepted trigger always starts a
    gesture, in the direction of the one before or not; a pulse that
    passes the guards is swallowed only when it continues an active scroll
    in the same direction exactly 0.8s after the last trigger. *)
Theorem accepted_pulse_after_gap_emits
        (s : State) (direction : string) (now : Q) :
  times_agree s ->
  ~ rejected s now ->
  let s' := final (handle_scroll direction now s) in
  ((SCROLL_GAP_SECONDS < now - trigger_time s)%Q ->
   gestures s' = (gestures s ++ [direction])%list) /\
  (gestures s' = gestures s ->
   (now - trigger_time s == SCROLL_GAP_SECONDS)%Q /\
   active (scroll_state s) = true /\
   last_direction (scroll_state s) = Some direction).
Proof.
  intros Ht Hacc. cbv zeta. unfold times_agree in Ht. unfold trigger_time.
  split.
  - intros Hgap.
    apply (handle_scroll_accepted s direction now Hacc).
    right; right. now rewrite Ht.
  - intros Hg.
    assert (Hns : ~ starts_gesture s direction now).
    { intros Hst.
      destruct (handle_scroll_accepted s direction now Hacc Hst) as [Hg' _].
      rewrite Hg' in Hg. exact (snoc_neq _ _ Hg). }
    unfold starts_gesture in Hns. rewrite Ht in Hns.
    split; [ | split ].
    + apply Qle_antisym.
      * apply Qnot_lt_le. tauto.
      * apply Qnot_lt_le. intros Hlt. apply Hacc. left. exact Hlt.
    + destruct (active (scroll_state s)); [ reflexivity | tauto ].
    + destruct (last_direction (scroll_state s)) as [d |].
      * destruct (string_dec d direction) as [-> | Hd]; [ reflexivity | ].
        exfalso. apply Hns. right; left. congruence.
      * exfalso. apply Hns. right; left. discriminate.
Qed.

(** ** What the buffers can hold *)

Lemma all_between_app (lo hi : Z) (a b : string) :
  all_between lo hi (a ++ b) = all_between lo hi a && all_between lo hi b.
Proof.
  induction a as [| c a IH]; [ reflexivity | ].
  cbn [append all_between]. rewrite IH. cbv zeta. now rewrite andb_assoc.
Qed.

Lemma all_between_chr (lo hi ch : Z) :
  0 <= lo -> hi < 256 -> lo <= ch <= hi -> all_between lo hi (chr ch) = true.
Proof.
  intros Hlo Hhi Hch. unfold chr. cbn [all_between]. cbv zeta.
  rewrite nat_ascii_embedding by lia. rewrite Z2Nat.id by lia.
  rewrite andb_true_r. apply andb_true_iff. split; apply Z.leb_le; lia.
Qed.

Lemma all_between_substring (lo hi : Z) (s : string) :
  all_between lo hi s = true ->
  forall n, all_between lo hi (substring 0 n s) = true.
Proof.
  induction s as [| c s IH]; intros H n.
  - now destruct n.
  - destruct n as [| n]; [ reflexivity | ].
    cbn [substring all_between] in *. cbv zeta in *.
    apply andb_true_iff in H. destruct H as [Hc Hs].
    rewrite Hc. now apply IH.
Qed.

Lemma all_between_typed (lo hi ch : Z) (s : string) :
  0 <= lo -> hi < 256 -> (lo <=? ch) && (ch <=? hi) = true ->
  all_between lo hi s = true ->
  all_between lo hi (s ++ chr ch) = true.
Proof.
  intros Hlo Hhi Hch Hs. rewrite all_between_app, Hs.
  apply all_between_chr; [ exact Hlo | exact Hhi | ].
  apply andb_true_iff in Hch. destruct Hch as [H1 H2].
  apply Z.leb_le in H1. apply Z.leb_le in H2. lia.
Qed.

(** An assignment to a buffer of a value of the right kind, or to another
    field. *)
Ltac buffers_leaf :=
  let s := fresh "s" in
  intros s (? & ? & ? & ? & ?);
  repeat split;
  first [ assumption
        | reflexivity
        | apply all_between_substring; assumption
        | apply all_between_typed; solve [ lia | assumption ] ].

Lemma typed_buffers_enter_word_count_input :
  Maintains typed_buffers enter_word_count_input.
Proof.
  unfold enter_word_count_input, ui.
  apply maintains_bind; [ maintains_leaf | intros _ ].
  apply maintains_bind; [ maintains | intros _ ].
  apply maintains_bind; [ apply maintains_read | intros u ].
  cbv zeta.
  apply maintains_bind; [ maintains | intros _ ].
  apply maintains_bind; [ maintains | intros _ ].
  apply maintains_bind_read. intros s0 (_ & _ & H0 & _).
  unfold Py.or_else. destruct (Py.truthy _); buffers_leaf.
Qed.

Ltac typed_buffers :=
  maintains_core
    ltac:(first [ apply typed_buffers_enter_word_count_input
                | solve [ buffers_leaf ]
                | progress unfold enter_player_input,
                    enter_imposter_percent_input, enter_confirm,
                    enter_word_entry, show_mode, enter_modes, start_handoff,
                    start_waiting, start_reveal, advance_player,
                    assign_imposter, best_random_choice, enter_random_pick,
                    enter_random_simple, reset_idle
                | progress unfold_flows
                | progress unfold_primitives ]).

Lemma typed_buffers_update_timers (now : Q) :
  Maintains typed_buffers (update_timers now).
Proof. unfold update_timers. typed_buffers. Qed.

Lemma typed_buffers_render : Maintains typed_buffers render.
Proof. unfold render. typed_buffers. Qed.

Lemma typed_buffers_on_direction (direction : string) :
  Maintains typed_buffers (on_direction direction).
Proof. unfold on_direction, gesture. typed_buffers. Qed.

Lemma typed_buffers_handle_scroll (direction : string) (now : Q) :
  Maintains typed_buffers (handle_scroll direction now).
Proof.
  pose proof (typed_buffers_on_direction direction) as Hd.
  unfold handle_scroll.
  maintains_core ltac:(first [ exact Hd | progress unfold ui ]).
Qed.

Lemma typed_buffers_handle_key (ch : Z) (now : Q) :
  Maintains typed_buffers (handle_key ch now).
Proof.
  unfold handle_key, ui. apply maintains_bind_read.
  intros s0 (H1 & H2 & H3 & H4 & H5).
  unfold is_digit, is_printable.
  repeat match goal with
         | |- Maintains _ (if ?b then _ else _) =>
             let E := fresh "E" in
             destruct b eqn:E;
             [ try (apply andb_true_iff in E; destruct E as [_ E]) | ]
         end;
    try apply typed_buffers_handle_scroll;
    try apply maintains_ret;
    try (apply maintains_bind; [ | intros _ ]);
    try solve [ typed_buffers ];
    intros s (? & ? & ? & ? & ?); repeat split;
      first [ assumption
            | apply all_between_substring; assumption
            | apply all_between_typed; solve [ lia | assumption ] ].
Qed.

Lemma typed_buffers_run_iteration
      (now : Q) (ch : Z) (mouse : option (bool * bool)) :
  Maintains typed_buffers (run_iteration now ch mouse).
Proof.
  pose proof (typed_buffers_update_timers now) as H2.
  pose proof typed_buffers_render as H3.
  pose proof (typed_buffers_handle_key ch now) as H5.
  unfold run_iteration.
  maintains_core ltac:(first [ assumption
                             | apply typed_buffers_handle_scroll
                             | progress unfold update_scroll_state ]).
Qed.

(** Whatever is typed, throughout every run of the loop, to its end or to
    the exception that ends it, the three numeric buffers hold decimal
    digits only, and the word buffer and the filter hold printable ASCII
    only. *)
Theorem typed_buffers_along_runs
        (words : list string) (rand : list N) (mono : list Q)
        (events : list (Q * Z * option (bool * bool))) :
  typed_buffers (final (run_iterations events (startup_state words rand mono))).
Proof.
  apply (maintains_run_iterations typed_buffers typed_buffers_run_iteration).
  unfold startup_state. rewrite reset_idle_result.
  repeat split.
Qed.

(** ** Browsing and locking a word *)

Lemma subscript_nth {A : Type} (xs : list A) (i : Z) (d : A) (s : State) :
  0 <= i < Z.of_nat (List.length xs) ->
  subscript xs i s = (Done (nth (Z.to_nat i) xs d), s).
Proof.
  intros Hi. unfold subscript.
  destruct (Z.ltb_spec i 0); [ lia | ].
  destruct (Z.ltb_spec i 0); [ lia | ].
  destruct (Z.leb_spec (Z.of_nat (List.length xs)) i); [ lia | ].
  cbn [orb]. rewrite (nth_error_nth' xs d) by lia. reflexivity.
Qed.

Lemma enter_random_simple_result (s : State) (now : Q) (cs : list string) :
  simple_candidates (ui_state s) = Some cs ->
  0 <= simple_index (ui_state s) < Z.of_nat (List.length cs) ->
  exists s',
    enter_random_simple (Some now) s = (Done tt, s') /\
    ui_state s' = set_screen "random_simple" (ui_state s) /\
    title (message_box s') =
      Py.upper (nth (Z.to_nat (simple_index (ui_state s))) cs "") /\
    box_style s' = IMPOSTER_STYLE /\
    mono_tape s' = mono_tape s.
Proof.
  intros Hc Hi. unfold enter_random_simple. exec.
  cbn [simple_candidates simple_index set_screen simple_hold_started
       simple_hold_until].
  rewrite Hc.
  destruct cs as [| c cs]; [ cbn [List.length Z.of_nat] in Hi; lia | ].
  cbn [list_truthy or_empty].
  rewrite (subscript_nth _ _ "") by exact Hi.
  simp_state.
  destruct (_ && _); simp_state;
    (eexists; split; [ reflexivity | ]); cbn; auto.
Qed.

Lemma set_screen_same (u : UIState) : set_screen (screen u) u = u.
Proof. now destruct u. Qed.

Lemma on_direction_browse (s : State) (direction : string) (cs : list string) :
  screen (ui_state s) = "random_simple" ->
  simple_candidates (ui_state s) = Some cs ->
  cs <> [] ->
  direction = GO_DIRECTION \/ direction = BACK_DIRECTION ->
  let n := Z.of_nat (List.length cs) in
  let delta := if direction == GO_DIRECTION then 1 else -1 in
  let i' := (simple_index (ui_state s) + delta) mod n in
  exists s',
    on_direction direction s = (Done tt, s') /\
    ui_state s' =
      set_simple_hold_until (hd 0%Q (mono_tape s) + 5)%Q
        (set_simple_hold_started true (set_simple_index i' (ui_state s))) /\
    title (message_box s') = Py.upper (nth (Z.to_nat i') cs "") /\
    box_style s' = IMPOSTER_STYLE.
Proof.
  intros Hscr Hc Hne Hd. cbv zeta.
  assert (Hn : 1 <= Z.of_nat (List.length cs))
    by (destruct cs; [ congruence | cbn [List.length]; lia ]).
  assert (Ht : list_truthy (Some cs) = true)
    by (destruct cs; [ congruence | reflexivity ]).
  unfold on_direction. exec. rewrite Hscr.
  cbn [String.eqb Ascii.eqb Bool.eqb].
  assert (Hb : (direction == GO_DIRECTION) || (direction == BACK_DIRECTION) = true)
    by (destruct Hd as [-> | ->]; reflexivity).
  rewrite Hb. rewrite Hc, Ht. cbn [or_empty]. cbv zeta.
  rewrite Z.max_r by lia.
  simp_state. rewrite monotonic_eq. simp_state. rewrite monotonic_eq. simp_state.
  match goal with
  | |- context [enter_random_simple (Some ?t) ?s1] =>
      destruct (enter_random_simple_result s1 t cs) as (s' & E & Hu & Ht' & Hb' & _)
  end.
  { exact Hc. }
  { cbn [ui_state with_ui_state with_mono_tape simple_index set_simple_index
         set_simple_hold_started set_simple_hold_until].
    apply Z.mod_pos_bound. lia. }
  rewrite E. exists s'.
  cbn [ui_state with_ui_state with_mono_tape with_gestures simple_index
       set_simple_index set_simple_hold_started set_simple_hold_until]
    in Hu, Ht'.
  split; [ reflexivity | split; [ | split; [ exact Ht' | exact Hb' ] ] ].
  rewrite Hu.
  match goal with
  | |- set_screen _ ?u = _ =>
      transitivity (set_screen (screen u) u);
        [ f_equal; symmetry; exact Hscr | apply set_screen_same ]
  end.
Qed.

Lemma prepare_keeps_picked_word (s : State) (mode : GameMode) :
  selected_mode (ui_state s) = Some mode ->
  source mode = "random" \/ source mode = "random_simple" ->
  chosen_word (ui_state s) <> "" ->
  exists s',
    prepare_word_and_start s = (Done tt, s') /\
    chosen_word (ui_state s') = chosen_word (ui_state s) /\
    current_player (ui_state s') = 0 /\
    In (screen (ui_state s')) ["handoff"; "reveal"; "wait_scroll"].
Proof.
  intros Hm Hsrc Hw.
  assert (Ht : Py.truthy (chosen_word (ui_state s)) = true)
    by (destruct (chosen_word (ui_state s)); [ congruence | reflexivity ]).
  rewrite prepare_word_and_start_route. unfold ui at 1, read at 1.
  unfold bind at 1. rewrite Hm, Ht.
  assert (E1 : (if source mode == "player"
                then ui_assign set_chosen_word
                       (Py.or_else (word_buffer (ui_state s)) "mystery")
                else if (source mode == "random") && true then ret tt
                else if (source mode == "random_simple") && true then ret tt
                else w <- choose_word_for_source (source mode) ;;
                     ui_assign set_chosen_word w) s = (Done tt, s)).
  { destruct Hsrc as [-> | ->]; reflexivity. }
  rewrite (final_bind _ _ s s tt E1).
  rewrite (final_bind (ui_assign set_current_player 0) _ s _ tt eq_refl).
  match goal with
  | |- context [bind assign_imposter _ ?s2] =>
      set (st2 := s2);
      destruct (returns_assign_imposter st2) as ([] & s3 & E3);
      pose proof (assign_imposter_round_fields (round_fields st2) st2 eq_refl) as F3;
      rewrite E3 in F3; cbn [final snd] in F3;
      rewrite (final_bind _ _ st2 s3 tt E3)
  end.
  cbv beta.
  destruct (route_first_turn_outcome s3) as (F0 & F4 & R1 & R2 & R3).
  destruct (route_first_turn s3) as [o s4]. cbn [fst snd final] in *. subst o.
  exists s4. split; [ reflexivity | ].
  unfold round_fields in F3, F4. subst st2. cbn in F3.
  injection F3 as G1 G2 G3 G4. injection F4 as K1 K2 K3 K4.
  split; [ congruence | split; [ congruence | ] ].
  destruct (Z_lt_le_dec 1 (word_options_count (ui_state s3))) as [Hwo | Hwo].
  - destruct (Z_lt_le_dec 1 (player_count (ui_state s3))) as [Hpc | Hpc].
    + destruct (R1 Hwo Hpc G1) as (-> & _). left; reflexivity.
    + destruct (R2 Hwo Hpc) as (-> & _). right; left; reflexivity.
  - rewrite (R3 Hwo). right; right; left; reflexivity.
Qed.



Lemma update_timers_hold_expired (s : State) (now : Q) :
  screen (ui_state s) = "random_simple" ->
  simple_hold_started (ui_state s) = true ->
  (0 < simple_hold_until (ui_state s))%Q ->
  (simple_hold_until (ui_state s) <= now)%Q ->
  update_timers now s = lock_random_simple_choice s.
Proof.
  intros Hscr Hst Hpos Hdl.
  apply Qltb_lt in Hpos. apply Qgeb_ge in Hdl.
  unfold update_timers, ui, read. unfold bind at 1.
  rewrite Hscr, Hst, Hpos, Hdl. reflexivity.
Qed.

(** When the hold timer of the browse runs out, the word that is shown is
    the word of the round: the tick returns, the word at the browse index
    is chosen and survives [prepare_word_and_start], the hold timer is
    off, and the round starts at player 0 on one of its three opening
    screens. *)
Theorem hold_expiry_locks_shown_word
        (s : State) (now : Q) (cs : list string) (mode : GameMode) :
  screen (ui_state s) = "random_simple" ->
  simple_hold_started (ui_state s) = true ->
  (0 < simple_hold_until (ui_state s))%Q ->
  (simple_hold_until (ui_state s) <= now)%Q ->
  simple_candidates (ui_state s) = Some cs ->
  0 <= simple_index (ui_state s) < Z.of_nat (List.length cs) ->
  selected_mode (ui_state s) = Some mode ->
  source mode = "random_simple" ->
  let w := nth (Z.to_nat (simple_index (ui_state s))) cs "" in
  w <> "" ->
  let r := update_timers now s in
  fst r = Done tt /\
  chosen_word (ui_state (final r)) = w /\
  simple_hold_started (ui_state (final r)) = false /\
  simple_hold_until (ui_state (final r)) = 0%Q /\
  current_player (ui_state (final r)) = 0 /\
  In (screen (ui_state (final r))) ["handoff"; "reveal"; "wait_scroll"].
Proof.
  intros Hscr Hst Hpos Hdl Hc Hi Hm Hsrc w Hw. cbv zeta.
  rewrite (update_timers_hold_expired s now Hscr Hst Hpos Hdl).
  assert (Hne : list_truthy (Some cs) = true)
    by (destruct cs; [ cbn [List.length Z.of_nat] in Hi; lia | reflexivity ]).
  assert (E0 : exists s',
             lock_random_simple_choice s = (Done tt, s') /\
             chosen_word (ui_state s') = w /\
             simple_hold_started (ui_state s') = false /\
             simple_hold_until (ui_state s') = 0%Q /\
             current_player (ui_state s') = 0 /\
             In (screen (ui_state s')) ["handoff"; "reveal"; "wait_scroll"]).
  { unfold lock_random_simple_choice. unfold ui at 1, read at 1.
    unfold bind at 1. rewrite Hc, Hne. cbn [negb or_empty].
    rewrite (final_bind _ _ s
               (with_ui_state (set_chosen_word w (ui_state s)) s) tt).
    2:{ unfold bind. rewrite (subscript_nth _ _ "") by exact Hi. reflexivity. }
    rewrite (final_bind (ui_assign set_simple_hold_started false) _ _ _ tt eq_refl).
    rewrite (final_bind (ui_assign set_simple_hold_until 0%Q) _ _ _ tt eq_refl).
    match goal with
    | |- context [prepare_word_and_start ?s1] =>
        destruct (prepare_keeps_picked_word s1 mode) as (s' & E & H1 & H2 & H3);
          [ exact Hm | right; exact Hsrc | exact Hw | ];
        assert (K : Maintains
                      (fun s0 => simple_hold_started (ui_state s0) = false /\
                                 simple_hold_until (ui_state s0) = 0%Q)
                      prepare_word_and_start) by maintains;
        specialize (K s1 (conj eq_refl eq_refl));
        rewrite E in K |- *
    end.
    cbn [fst snd final] in K. destruct K as [K1 K2].
    exists s'. split; [ reflexivity | split; [ rewrite H1; reflexivity | ] ].
    repeat split; assumption. }
  destruct E0 as (s' & -> & H). split; [ reflexivity | exact H ].
Qed.


(** ** The turn invariant *)

Lemma ensures_bind {A B : Type} (P : State -> Prop) (R : A -> State -> Prop)
      (Q : B -> State -> Prop) (m : M A) (k : A -> M B) :
  Ensures P m R -> (forall a, Ensures (R a) (k a) Q) -> Ensures P (bind m k) Q.
Proof.
  intros Hm Hk s H b s' E. unfold bind in E.
  destruct (m s) as [[a | e] s1] eqn:Em; [ | discriminate ].
  exact (Hk a s1 (Hm s H a s1 Em) b s' E).
Qed.

Lemma ensures_weaken {A : Type} (P P' : State -> Prop) (Q Q' : A -> State -> Prop)
      (m : M A) :
  (forall s, P s -> P' s) -> (forall a s, Q' a s -> Q a s) ->
  Ensures P' m Q' -> Ensures P m Q.
Proof. intros HP HQ H s Hs a s' E. apply HQ. exact (H s (HP s Hs) a s' E). Qed.

Lemma ensures_ret {A : Type} (P : State -> Prop) (a : A) :
  Ensures P (ret a) (fun _ => P).
Proof. intros s H b s' [= <- <-]. exact H. Qed.

(** After a read, the value read is that of the current state. *)
Lemma ensures_bind_read {A B : Type} (P : State -> Prop) (Q : B -> State -> Prop)
      (f : State -> A) (k : A -> M B) :
  (forall v, Ensures (fun s => P s /\ f s = v) (k v) Q) ->
  Ensures P (bind (read f) k) Q.
Proof.
  intros H s Hs b s' E. unfold bind, read in E.
  exact (H (f s) s (conj Hs eq_refl) b s' E).
Qed.

Lemma ensures_maintains {A : Type} (P : State -> Prop) (m : M A) :
  Maintains P m -> Ensures P m (fun _ => P).
Proof.
  intros H s Hs a s' E. specialize (H s Hs). now rewrite E in H.
Qed.

(** [P] is kept up to the step that establishes [Q]. *)
Lemma ensures_after {A B : Type} (P : State -> Prop) (Q : B -> State -> Prop)
      (m : M A) (k : A -> M B) :
  Maintains P m -> (forall a, Ensures P (k a) Q) -> Ensures P (bind m k) Q.
Proof.
  intros Hm Hk. apply (ensures_bind P (fun _ => P)); [ | exact Hk ].
  now apply ensures_maintains.
Qed.

(** [Q] is established by the first step and kept by what follows. *)
Lemma ensures_then {A B : Type} (P Q : State -> Prop) (m : M A) (k : A -> M B) :
  Ensures P m (fun _ => Q) -> (forall a, Maintains Q (k a)) ->
  Ensures P (bind m k) (fun _ => Q).
Proof.
  intros Hm Hk. apply (ensures_bind P (fun _ => Q)); [ exact Hm | ].
  intros a. apply ensures_maintains. apply Hk.
Qed.

Lemma on_setup_turn_valid (s : State) : on_setup s -> turn_valid s.
Proof.
  unfold on_setup, turn_valid, setup_screen. intros H.
  split; [ congruence | ].
  split; [ intros [E | E] | intros E ]; rewrite E in H; discriminate.
Qed.

(** The screens that put no condition on the turn. *)
Lemma plain_screen_turn_valid (s : State) :
  seated s ->
  In (screen (ui_state s))
     [ "confirm"; "mode_select"; "word_entry"; "random_pick"; "random_simple";
       "done" ] ->
  turn_valid s.
Proof.
  unfold seated, turn_valid. intros H Hin.
  split; [ intros _; exact H | ].
  split; [ intros [E | E] | intros E ]; rewrite E in Hin; cbn in Hin;
    repeat destruct Hin as [Hin | Hin]; discriminate || contradiction.
Qed.

Lemma turn_valid_seated (s : State) :
  turn_valid s -> setup_screen (screen (ui_state s)) = false -> seated s.
Proof. intros (H & _) E. exact (H E). Qed.

(** An assignment of the screen. *)
Lemma ensures_set_screen (P : State -> Prop) (scr : string) :
  (forall v s, P s -> P (with_ui_state (set_screen v (ui_state s)) s)) ->
  Ensures P (ui_assign set_screen scr)
          (fun _ s => P s /\ screen (ui_state s) = scr).
Proof.
  intros HP s H a s' [= <- <-]. split; [ now apply HP | reflexivity ].
Qed.

(** The six fields the turn depends on, read off an updated session. *)
Ltac view_simpl :=
  simp_state;
  cbn [screen current_player player_count handoff_advance
       handoff_pending_action selected_mode
       set_screen set_input_buffer set_word_count_buffer
       set_imposter_percent_buffer set_player_count set_word_options_count
       set_word_buffer set_chosen_word set_mode_index set_selected_mode
       set_imposter_index set_current_player set_countdown_until
       set_reveal_until set_handoff_until set_handoff_advance
       set_handoff_pending_action set_imposter_all_chance
       set_all_imposter_except_first set_random_candidates set_random_filter
       set_scroll_block_until set_simple_candidates set_simple_index
       set_simple_hold_started set_simple_hold_until].

(** A procedure without branches, run to its end. *)
Ltac run_to_end :=
  let s := fresh "s" in
  let H := fresh "H" in
  let a := fresh "a" in
  let s' := fresh "s'" in
  let E := fresh "E" in
  intros s H a s' E; revert E; exec;
  repeat match goal with
         | |- context [(if ?b then _ else _) _] =>
             let Eb := fresh "Eb" in destruct b eqn:Eb; simp_state
         end;
  intros [= <- <-].

Lemma turn_reset_idle (P : State -> Prop) :
  Ensures P reset_idle (fun _ => turn_valid).
Proof.
  intros s _ a s' E. rewrite reset_idle_result in E. injection E as _ <-.
  apply on_setup_turn_valid. reflexivity.
Qed.

Lemma turn_enter_player_input (P : State -> Prop) :
  Ensures P enter_player_input (fun _ => turn_valid).
Proof.
  unfold enter_player_input. run_to_end.
  apply on_setup_turn_valid. reflexivity.
Qed.

Lemma turn_enter_word_count_input (P : State -> Prop) :
  Ensures P enter_word_count_input (fun _ => turn_valid).
Proof.
  unfold enter_word_count_input. run_to_end.
  apply on_setup_turn_valid. reflexivity.
Qed.

Lemma turn_enter_imposter_percent_input (P : State -> Prop) :
  Ensures P enter_imposter_percent_input (fun _ => turn_valid).
Proof.
  unfold enter_imposter_percent_input. run_to_end.
  apply on_setup_turn_valid. reflexivity.
Qed.

Lemma parse_or_at_least (buf : string) (d lo : Z) :
  lo <= d -> lo <= parse_or buf (fun n => Z.max lo n) d.
Proof. intros H. unfold parse_or. destruct (Py.int_of_string buf); lia. Qed.

Lemma turn_enter_confirm (P : State -> Prop) :
  Ensures P enter_confirm (fun _ => turn_valid).
Proof.
  unfold enter_confirm. run_to_end.
  apply plain_screen_turn_valid.
  - unfold seated. view_simpl. apply parse_or_at_least. lia.
  - left. reflexivity.
Qed.

Lemma turn_enter_word_entry (P : State -> Prop) :
  (forall s, P s -> seated s) ->
  Ensures P enter_word_entry (fun _ => turn_valid).
Proof.
  intros HP. unfold enter_word_entry. run_to_end.
  apply plain_screen_turn_valid.
  - exact (HP s H).
  - right; right; left. reflexivity.
Qed.

Lemma turn_start_handoff (P : State -> Prop) (now : Q) (adv : bool) (pend : string) :
  (forall s, P s ->
     seated s /\
     ((pend = "" /\ adv = true /\ 0 <= current_player (ui_state s) /\
       current_player (ui_state s) + 1 < player_count (ui_state s)) \/
      (In pend pending_actions /\ mode_chosen s))) ->
  Ensures P (start_handoff now adv pend) (fun _ => turn_valid).
Proof.
  intros HP. unfold start_handoff. run_to_end.
  destruct (HP s H) as (Hs & Hc).
  unfold turn_valid. view_simpl.
  split; [ intros _; exact Hs | ].
  split; [ intros [E | E]; discriminate | intros _; exact Hc ].
Qed.

Lemma turn_start_waiting (P : State -> Prop) :
  (forall s, P s ->
     0 <= current_player (ui_state s) < player_count (ui_state s)) ->
  Ensures P start_waiting (fun _ => turn_valid).
Proof.
  intros HP. unfold start_waiting. run_to_end.
  specialize (HP s H).
  unfold turn_valid. view_simpl.
  split; [ intros _; lia | ].
  split; [ intros _; exact HP | intros E; discriminate ].
Qed.

Lemma turn_start_reveal (P : State -> Prop) (now : Q) :
  (forall s, P s ->
     0 <= current_player (ui_state s) < player_count (ui_state s)) ->
  Ensures P (start_reveal now) (fun _ => turn_valid).
Proof.
  intros HP. unfold start_reveal, is_current_imposter. run_to_end;
    specialize (HP s H);
    unfold turn_valid; view_simpl;
    (split; [ intros _; lia | ]);
    (split; [ intros _; exact HP | intros E; discriminate ]).
Qed.

Lemma turn_advance_player (P : State -> Prop) :
  (forall s, P s -> 0 <= current_player (ui_state s) /\ seated s) ->
  Ensures P advance_player (fun _ => turn_valid).
Proof.
  intros HP. unfold advance_player, start_waiting. run_to_end;
    destruct (HP s H) as (Hc & Hs); unfold seated in Hs.
  - apply plain_screen_turn_valid; [ exact Hs | ].
    do 5 right. left. reflexivity.
  - revert Eb. view_simpl. intros Eb.
    rewrite Z.geb_leb in Eb. apply Z.leb_gt in Eb.
    unfold turn_valid. view_simpl.
    split; [ intros _; lia | ].
    split; [ intros _; lia | intros E; discriminate ].
Qed.

Lemma turn_show_mode (index : Z) : Maintains turn_valid (show_mode index).
Proof. maintains. Qed.

Lemma turn_screen_then {B : Type} (P : State -> Prop) (scr : string) (k : M B) :
  (forall s, P s -> seated s) ->
  In scr [ "confirm"; "mode_select"; "word_entry"; "random_pick";
           "random_simple"; "done" ] ->
  Maintains turn_valid k ->
  Ensures P (ui_assign set_screen scr ;; k) (fun _ => turn_valid).
Proof.
  intros HP Hin Hk.
  apply (ensures_bind P (fun _ => turn_valid)).
  - intros s H a s' [= <- <-].
    apply plain_screen_turn_valid; [ exact (HP s H) | exact Hin ].
  - intros _. now apply ensures_maintains.
Qed.

Lemma turn_enter_modes (P : State -> Prop) :
  (forall s, P s -> seated s) ->
  Ensures P enter_modes (fun _ => turn_valid).
Proof.
  intros HP. unfold enter_modes.
  apply turn_screen_then; [ exact HP | right; left; reflexivity | maintains ].
Qed.

Lemma turn_enter_random_pick (P : State -> Prop) :
  (forall s, P s -> seated s) ->
  Ensures P enter_random_pick (fun _ => turn_valid).
Proof.
  intros HP. unfold enter_random_pick.
  apply turn_screen_then; [ exact HP | do 3 right; left; reflexivity | maintains ].
Qed.

Lemma turn_enter_random_simple (P : State -> Prop) (now : option Q) :
  (forall s, P s -> seated s) ->
  Ensures P (enter_random_simple now) (fun _ => turn_valid).
Proof.
  intros HP. unfold enter_random_simple.
  apply (ensures_weaken P seated (fun _ => turn_valid) (fun _ => turn_valid));
    [ exact HP | auto | ].
  apply ensures_after; [ maintains | intros t ].
  apply turn_screen_then; [ auto | do 4 right; left; reflexivity | maintains ].
Qed.

Lemma turn_route_first_turn :
  Ensures (fun s => seated s /\ current_player (ui_state s) = 0)
          route_first_turn (fun _ => turn_valid).
Proof.
  unfold route_first_turn, ui. apply ensures_bind_read. intros u.
  destruct ((word_options_count u >? 1) && (player_count u >? 1)
            && (current_player u =? 0)) eqn:E1.
  - apply ensures_after; [ maintains | intros now ].
    apply turn_start_handoff. intros s ((Hs & Hc) & <-).
    apply andb_true_iff in E1. destruct E1 as [E1 _].
    apply andb_true_iff in E1. destruct E1 as [_ E1].
    apply Z.gtb_lt in E1.
    split; [ exact Hs | left ]. repeat split; lia.
  - destruct (word_options_count u >? 1).
    + apply ensures_after; [ maintains | intros now ].
      apply turn_start_reveal. intros s ((Hs & Hc) & _).
      unfold seated in Hs. lia.
    + apply turn_start_waiting. intros s ((Hs & Hc) & _).
      unfold seated in Hs. lia.
Qed.

Lemma turn_prepare_word_and_start (P : State -> Prop) :
  (forall s, P s ->
     seated s /\ (selected_mode (ui_state s) = None -> turn_valid s)) ->
  Ensures P prepare_word_and_start (fun _ => turn_valid).
Proof.
  intros HP. rewrite prepare_word_and_start_route. unfold ui.
  apply ensures_bind_read. intros u.
  destruct (selected_mode u) as [mode |] eqn:Em.
  - apply (ensures_weaken _ seated (fun _ => turn_valid) (fun _ => turn_valid));
      [ intros s (H & _); exact (proj1 (HP s H)) | auto | ].
    apply ensures_after; [ maintains | intros _ ].
    apply (ensures_bind seated
             (fun _ s => seated s /\ current_player (ui_state s) = 0)).
    { intros s H a s' [= <- <-]. split; [ exact H | reflexivity ]. }
    intros _.
    apply ensures_after; [ maintains | intros _; apply turn_route_first_turn ].
  - intros s (H & <-) a s' [= <- <-]. now apply (HP s H).
Qed.

Lemma turn_select_mode (P : State -> Prop) :
  (forall s, P s -> seated s) ->
  Ensures P select_mode (fun _ => turn_valid).
Proof.
  intros HP. unfold select_mode, ui.
  apply (ensures_weaken P seated (fun _ => turn_valid) (fun _ => turn_valid));
    [ exact HP | auto | ].
  apply ensures_after; [ apply maintains_read | intros u ].
  apply ensures_after; [ maintains | intros current ].
  destruct (source current == "back"); [ apply turn_reset_idle | ].
  apply (ensures_bind seated (fun _ s => seated s /\ mode_chosen s)).
  { intros s H a s' [= <- <-]. split; [ exact H | discriminate ]. }
  intros _.
  apply ensures_after; [ maintains | intros _ ].
  apply (ensures_bind _
           (fun p s => (seated s /\ mode_chosen s) /\ In p pending_actions)).
  { unfold pending_actions.
    destruct (source current == "player");
      [ | destruct (source current == "random");
          [ | destruct (source current == "random_simple") ] ];
      run_to_end; (split; [ exact H | cbn; tauto ]). }
  intros pending.
  apply ensures_after; [ maintains | intros now ].
  apply turn_start_handoff. intros s ((Hs & Hm) & Hin).
  split; [ exact Hs | right; split; assumption ].
Qed.

Lemma may_start_chosen (s : State) : seated s -> mode_chosen s -> may_start s.
Proof. intros H Hm. split; [ exact H | intros E; contradiction ]. Qed.

Lemma may_start_valid (s : State) :
  turn_valid s -> setup_screen (screen (ui_state s)) = false -> may_start s.
Proof. intros H E. split; [ now apply turn_valid_seated | intros _; exact H ]. Qed.

Lemma turn_start_random_flow (P : State -> Prop) :
  (forall s, P s -> seated s /\ mode_chosen s) ->
  Ensures P start_random_flow (fun _ => turn_valid).
Proof.
  intros HP. unfold start_random_flow, ui.
  apply (ensures_weaken P (fun s => seated s /\ mode_chosen s)
           (fun _ => turn_valid) (fun _ => turn_valid)); [ exact HP | auto | ].
  apply ensures_after; [ apply maintains_read | intros u ].
  destruct (word_options_count u <=? 1).
  - do 4 (apply ensures_after; [ maintains | intros ? ]).
    apply turn_prepare_word_and_start. intros s (H & Hm).
    now apply may_start_chosen.
  - do 4 (apply ensures_after; [ maintains | intros ? ]).
    apply turn_enter_random_pick. intros s (H & _). exact H.
Qed.

Lemma turn_start_random_simple (P : State -> Prop) :
  (forall s, P s -> seated s /\ mode_chosen s) ->
  Ensures P start_random_simple (fun _ => turn_valid).
Proof.
  intros HP. unfold start_random_simple, ui.
  apply (ensures_weaken P (fun s => seated s /\ mode_chosen s)
           (fun _ => turn_valid) (fun _ => turn_valid)); [ exact HP | auto | ].
  apply ensures_after; [ apply maintains_read | intros u ].
  destruct (word_options_count u <=? 1).
  - do 4 (apply ensures_after; [ maintains | intros ? ]).
    apply turn_prepare_word_and_start. intros s (H & Hm).
    now apply may_start_chosen.
  - apply ensures_after; [ maintains | intros words ]. cbv zeta.
    do 5 (apply ensures_after; [ maintains | intros ? ]).
    apply turn_enter_random_simple. intros s (H & _). exact H.
Qed.

Lemma turn_lock_random_choice (P : State -> Prop) :
  (forall s, P s -> may_start s) ->
  Ensures P lock_random_choice (fun _ => turn_valid).
Proof.
  intros HP. unfold lock_random_choice.
  apply (ensures_weaken P may_start (fun _ => turn_valid) (fun _ => turn_valid));
    [ exact HP | auto | ].
  do 4 (apply ensures_after; [ unfold may_start; maintains | intros ? ]).
  apply turn_prepare_word_and_start. auto.
Qed.

Lemma turn_lock_random_simple_choice (P : State -> Prop) :
  (forall s, P s -> may_start s) ->
  Ensures P lock_random_simple_choice (fun _ => turn_valid).
Proof.
  intros HP. unfold lock_random_simple_choice, ui.
  apply (ensures_weaken P may_start (fun _ => turn_valid) (fun _ => turn_valid));
    [ exact HP | auto | ].
  apply ensures_after; [ apply maintains_read | intros u ].
  do 3 (apply ensures_after; [ unfold may_start; maintains | intros ? ]).
  apply turn_prepare_word_and_start. auto.
Qed.

Lemma ensures_skip {A : Type} (P Q : State -> Prop) (a : A) :
  (forall s, P s -> Q s) -> Ensures P (ret a) (fun _ => Q).
Proof. intros H s Hs b s' [= <- <-]. now apply H. Qed.

Lemma turn_reveal_over (u : UIState) (now : Q) (k : M unit) :
  screen u = "reveal" ->
  Maintains turn_valid k ->
  Ensures (fun s => turn_valid s /\ ui_state s = u)
          (if current_player u + 1 >=? player_count u
           then advance_player ;; k
           else start_handoff now true "" ;; k)
          (fun _ => turn_valid).
Proof.
  intros Hscr Hk.
  destruct (current_player u + 1 >=? player_count u) eqn:E.
  - apply (ensures_bind _ (fun _ => turn_valid));
      [ | intros _; now apply ensures_maintains ].
    apply turn_advance_player. intros s ((H1 & H2 & H3) & <-).
    split; [ | apply H1; now rewrite Hscr ].
    apply H2. now right.
  - apply (ensures_bind _ (fun _ => turn_valid));
      [ | intros _; now apply ensures_maintains ].
    apply turn_start_handoff. intros s ((H1 & H2 & H3) & <-).
    rewrite Z.geb_leb in E. apply Z.leb_gt in E.
    split; [ apply H1; now rewrite Hscr | left ].
    repeat split; try lia. apply H2. now right.
Qed.

Lemma turn_handoff_over (u : UIState) :
  screen u = "handoff" ->
  Ensures (fun s => turn_valid s /\ ui_state s = u)
          (if Py.truthy (handoff_pending_action u) then
             let action := handoff_pending_action u in
             ui_assign set_handoff_pending_action "" ;;
             if action == "enter_word_entry" then enter_word_entry
             else if action == "start_random_flow" then start_random_flow
             else if action == "start_random_simple" then start_random_simple
             else if action == "prepare_word_and_start" then prepare_word_and_start
             else ret tt
           else if handoff_advance u then advance_player
           else start_waiting)
          (fun _ => turn_valid).
Proof.
  intros Hscr.
  destruct (Py.truthy (handoff_pending_action u)) eqn:Et.
  - cbv zeta.
    apply (ensures_bind _ (fun _ s => (seated s /\ mode_chosen s) /\
                                      In (handoff_pending_action u) pending_actions)).
    { intros s ((H1 & H2 & H3) & <-) a s' [= <- <-].
      destruct (H3 Hscr) as [(E & _) | (Hin & Hm)].
      - rewrite E in Et. discriminate.
      - split; [ split; [ apply H1; now rewrite Hscr | exact Hm ] | exact Hin ]. }
    intros _.
    destruct (String.eqb_spec (handoff_pending_action u) "enter_word_entry").
    { apply turn_enter_word_entry. intros s ((H & _) & _). exact H. }
    destruct (String.eqb_spec (handoff_pending_action u) "start_random_flow").
    { apply turn_start_random_flow. intros s (H & _). exact H. }
    destruct (String.eqb_spec (handoff_pending_action u) "start_random_simple").
    { apply turn_start_random_simple. intros s (H & _). exact H. }
    destruct (String.eqb_spec (handoff_pending_action u) "prepare_word_and_start").
    { apply turn_prepare_word_and_start. intros s ((H & Hm) & _).
      now apply may_start_chosen. }
    intros s (_ & Hin). exfalso. cbn in Hin. intuition congruence.
  - assert (Ep : handoff_pending_action u = "")
      by (destruct (handoff_pending_action u); [ reflexivity | discriminate ]).
    destruct (handoff_advance u) eqn:Ea.
    + apply turn_advance_player. intros s ((H1 & H2 & H3) & <-).
      split; [ | apply H1; now rewrite Hscr ].
      destruct (H3 Hscr) as [(_ & _ & H & _) | (Hin & _)]; [ exact H | ].
      rewrite Ep in Hin. cbn in Hin. intuition discriminate.
    + intros s ((H1 & H2 & H3) & <-). exfalso.
      destruct (H3 Hscr) as [(_ & H & _) | (Hin & _)]; [ congruence | ].
      rewrite Ep in Hin. cbn in Hin. intuition discriminate.
Qed.

Lemma turn_update_timers (now : Q) :
  Ensures turn_valid (update_timers now) (fun _ => turn_valid).
Proof.
  assert (Hblock : forall v, Maintains turn_valid (ui_assign set_scroll_block_until v))
    by (intros v; maintains_leaf).
  unfold update_timers, ui. apply ensures_bind_read. intros u.
  destruct (String.eqb_spec (screen u) "random_simple") as [E1 | E1];
    cbn [andb].
  - destruct (_ && _).
    + apply turn_lock_random_simple_choice. intros s (H & <-).
      apply may_start_valid; [ exact H | now rewrite E1 ].
    + rewrite E1. cbn [String.eqb Ascii.eqb Bool.eqb andb].
      apply ensures_skip. tauto.
  - destruct (String.eqb_spec (screen u) "reveal") as [E2 | E2]; cbn [andb].
    + destruct (Qgeb now (reveal_until u)).
      * apply turn_reveal_over; [ exact E2 | apply Hblock ].
      * rewrite E2. cbn [String.eqb Ascii.eqb Bool.eqb andb].
        apply ensures_skip. tauto.
    + destruct (String.eqb_spec (screen u) "handoff") as [E3 | E3]; cbn [andb].
      * destruct (Qgeb now (handoff_until u)); [ | apply ensures_skip; tauto ].
        apply (ensures_bind _ (fun _ => turn_valid));
          [ now apply turn_handoff_over
          | intros _; apply ensures_maintains; apply Hblock ].
      * apply ensures_skip. tauto.
Qed.

(** Deciding the screen, one name at a time. *)
Ltac on_screen u name E :=
  destruct (String.eqb_spec (screen u) name) as [E | E].

Lemma turn_on_direction (direction : string) :
  Ensures turn_valid (on_direction direction) (fun _ => turn_valid).
Proof.
  unfold on_direction, ui.
  apply ensures_after; [ unfold gesture; maintains_leaf | intros _ ].
  apply ensures_bind_read. intros u.
  assert (Hseat : forall s, turn_valid s /\ ui_state s = u ->
                            setup_screen (screen u) = false -> seated s).
  { intros s (H & <-) E. now apply turn_valid_seated. }
  on_screen u "handoff" E1; [ apply ensures_skip; tauto | ].
  on_screen u "wait_scroll" E2.
  { apply ensures_after; [ maintains | intros now ].
    apply turn_start_reveal. intros s ((_ & H & _) & <-). apply H. now left. }
  on_screen u "reveal" E3.
  { destruct (current_player u + 1 >=? player_count u) eqn:E.
    - apply turn_advance_player. intros s ((H1 & H2 & H3) & <-).
      split; [ | apply H1; now rewrite E3 ].
      apply H2. now right.
    - apply ensures_after; [ maintains | intros now ].
      apply (ensures_bind _ (fun _ => turn_valid));
        [ | intros _; apply ensures_maintains; maintains_leaf ].
      apply turn_start_handoff. intros s ((H1 & H2 & H3) & <-).
      rewrite Z.geb_leb in E. apply Z.leb_gt in E.
      split; [ apply H1; now rewrite E3 | left ].
      repeat split; try lia. apply H2. now right. }
  on_screen u "done" E4.
  { apply turn_enter_modes. intros s H. apply (Hseat s H). now rewrite E4. }
  on_screen u "random_simple" E5.
  { destruct (_ || _); [ | apply ensures_skip; tauto ].
    apply (ensures_weaken _ seated (fun _ => turn_valid) (fun _ => turn_valid));
      [ intros s H; apply (Hseat s H); now rewrite E5 | auto | ].
    apply ensures_after; [ maintains | intros words ]. cbv zeta.
    do 5 (apply ensures_after; [ maintains | intros ? ]).
    apply turn_enter_random_simple. auto. }
  destruct (direction == GO_DIRECTION).
  { on_screen u "idle" F1; [ apply turn_enter_player_input | ].
    on_screen u "player_input" F2.
    { destruct (Py.truthy _);
        [ apply turn_enter_word_count_input | apply ensures_skip; tauto ]. }
    on_screen u "word_count" F3; [ apply turn_enter_imposter_percent_input | ].
    on_screen u "imposter_percent" F4; [ apply turn_enter_confirm | ].
    on_screen u "confirm" F5.
    { apply turn_enter_modes. intros s H. apply (Hseat s H). now rewrite F5. }
    on_screen u "mode_select" F6.
    { apply turn_select_mode. intros s H. apply (Hseat s H). now rewrite F6. }
    on_screen u "word_entry" F7.
    { destruct (Py.truthy _); [ | apply ensures_skip; tauto ].
      apply turn_prepare_word_and_start. intros s (H & <-).
      apply may_start_valid; [ exact H | now rewrite F7 ]. }
    on_screen u "random_pick" F8; [ | apply ensures_skip; tauto ].
    apply turn_lock_random_choice. intros s (H & <-).
    apply may_start_valid; [ exact H | now rewrite F8 ]. }
  destruct (direction == BACK_DIRECTION); [ | apply ensures_skip; tauto ].
  on_screen u "player_input" F1; [ apply turn_reset_idle | ].
  on_screen u "confirm" F2; [ apply turn_enter_imposter_percent_input | ].
  on_screen u "mode_select" F3.
  { apply (ensures_weaken _ turn_valid (fun _ => turn_valid) (fun _ => turn_valid));
      [ tauto | auto | ].
    apply ensures_maintains. apply turn_show_mode. }
  on_screen u "word_entry" F4.
  { apply turn_enter_modes. intros s H. apply (Hseat s H). now rewrite F4. }
  on_screen u "word_count" F5; [ apply turn_enter_player_input | ].
  on_screen u "imposter_percent" F6; [ apply turn_enter_word_count_input | ].
  on_screen u "random_pick" F7; [ | apply ensures_skip; tauto ].
  apply turn_enter_modes. intros s H. apply (Hseat s H). now rewrite F7.
Qed.

Lemma turn_render : Maintains turn_valid render.
Proof. unfold render. maintains. Qed.

Lemma turn_scroll_assign {T : Type} (set : T -> ScrollState -> ScrollState) (v : T) :
  Ensures turn_valid (scroll_assign set v) (fun _ => turn_valid).
Proof. apply ensures_maintains. maintains_leaf. Qed.

Ltac ensures_turn leaf :=
  repeat first
    [ leaf
    | apply turn_scroll_assign
    | apply ensures_ret
    | apply ensures_maintains; apply maintains_read
    | match goal with
      | |- Ensures _ (bind _ _) _ =>
          apply (ensures_bind turn_valid (fun _ => turn_valid)); [ | intros ? ]
      | |- Ensures _ (let _ := _ in _) _ => cbv zeta
      | |- Ensures _ (match ?x with _ => _ end) _ => destruct x eqn:?
      end ].

Lemma turn_handle_scroll (direction : string) (now : Q) :
  Ensures turn_valid (handle_scroll direction now) (fun _ => turn_valid).
Proof.
  unfold handle_scroll, ui.
  ensures_turn ltac:(apply turn_on_direction).
Qed.

Lemma turn_handle_key (ch : Z) (now : Q) :
  Ensures turn_valid (handle_key ch now) (fun _ => turn_valid).
Proof.
  unfold handle_key, ui. apply ensures_bind_read. intros u.
  assert (Hseat : forall s, turn_valid s /\ ui_state s = u ->
                            setup_screen (screen u) = false -> seated s).
  { intros s (H & <-) E. now apply turn_valid_seated. }
  assert (Hdrop : forall m : M unit,
             Ensures turn_valid m (fun _ => turn_valid) ->
             Ensures (fun s => turn_valid s /\ ui_state s = u) m
                     (fun _ => turn_valid)).
  { intros m Hm. eapply ensures_weaken; [ | | exact Hm ]; [ tauto | auto ]. }
  destruct (is_enter ch && enter_scrolls (screen u));
    [ apply Hdrop, turn_handle_scroll | ].
  on_screen u "random_pick" E1; rewrite ?andb_true_r, ?andb_false_r; cbn [andb].
  { assert (Hlock : Ensures (fun s => turn_valid s /\ ui_state s = u)
                            lock_random_choice (fun _ => turn_valid)).
    { apply turn_lock_random_choice. intros s (H & <-).
      apply may_start_valid; [ exact H | now rewrite E1 ]. }
    assert (Hpick : forall v,
               Ensures (fun s => turn_valid s /\ ui_state s = u)
                       (ui_assign set_random_filter v ;; enter_random_pick)
                       (fun _ => turn_valid)).
    { intros v.
      apply (ensures_weaken _ seated (fun _ => turn_valid) (fun _ => turn_valid));
        [ intros s H; apply (Hseat s H); now rewrite E1 | auto | ].
      apply ensures_after; [ maintains | intros _ ].
      apply turn_enter_random_pick. auto. }
    rewrite E1. cbn [String.eqb Ascii.eqb Bool.eqb andb].
    repeat match goal with
           | |- Ensures _ (if ?b then _ else _) _ => destruct b
           end;
      first [ exact Hlock | apply Hpick | apply ensures_skip; tauto ]. }
  on_screen u "word_entry" E2; cbn [andb].
  { assert (Hword : forall v,
               Ensures (fun s => turn_valid s /\ ui_state s = u)
                       (ui_assign set_word_buffer v ;; enter_word_entry)
                       (fun _ => turn_valid)).
    { intros v.
      apply (ensures_weaken _ seated (fun _ => turn_valid) (fun _ => turn_valid));
        [ intros s H; apply (Hseat s H); now rewrite E2 | auto | ].
      apply ensures_after; [ maintains | intros _ ].
      apply turn_enter_word_entry. auto. }
    rewrite E2. cbn [String.eqb Ascii.eqb Bool.eqb andb].
    repeat match goal with
           | |- Ensures _ (if ?b then _ else _) _ => destruct b
           end;
      first [ apply Hword | apply ensures_skip; tauto ]. }
  repeat match goal with
         | |- Ensures _ (if ?b then _ else _) _ => destruct b
         end;
    first
      [ apply ensures_skip; tauto
      | apply (ensures_bind _ (fun _ _ => True));
          [ intros s H a s' E; exact I
          | intros _;
            first [ apply turn_enter_player_input
                  | apply turn_enter_word_count_input
                  | apply turn_enter_imposter_percent_input ] ] ].
Qed.

Lemma turn_update_scroll_state (now : Q) :
  Ensures turn_valid (update_scroll_state now) (fun _ => turn_valid).
Proof. unfold update_scroll_state. ensures_turn fail. Qed.

Lemma turn_run_iteration (now : Q) (ch : Z) (mouse : option (bool * bool)) :
  Ensures turn_valid (run_iteration now ch mouse) (fun _ => turn_valid).
Proof.
  unfold run_iteration.
  ensures_turn ltac:(first [ apply turn_update_scroll_state
                           | apply turn_update_timers
                           | apply ensures_maintains; apply turn_render
                           | apply turn_handle_scroll
                           | apply turn_handle_key ]).
Qed.

Lemma turn_run_iterations (events : list (Q * Z * option (bool * bool))) :
  Ensures turn_valid (run_iterations events) (fun _ => turn_valid).
Proof.
  induction events as [| [[now ch] mouse] rest IH]; cbn [run_iterations].
  - apply ensures_ret.
  - apply (ensures_bind turn_valid (fun _ => turn_valid));
      [ apply turn_run_iteration | intros _; exact IH ].
Qed.

Lemma startup_turn_valid (words : list string) (rand : list N) (mono : list Q) :
  turn_valid (startup_state words rand mono).
Proof. apply on_setup_turn_valid. reflexivity. Qed.


(** ** Wrapping the message *)

Example wrap_text_examples :
  wrap_text "Gebe das Geraet dem naechsten Spieler" 10 =
    ["Gebe das"; "Geraet dem"; "naechsten"; "Spieler"] /\
  wrap_text "abcdefgh ij" 3 = ["abc"; "def"; "gh"; "ij"] /\
  wrap_text "x abcdefgh ij" 3 = ["x"; "abc"; "def"; "gh"; "ij"] /\
  wrap_text "x abcdefg ij" 3 = ["x"; "abc"; "def"; "g"; "ij"] /\
  wrap_text "x abcdefgh" 4 = ["x"; "abcd"; "efgh"] /\
  wrap_text "" 5 = [""] /\
  wrap_text "a  b" 5 = ["a  b"] /\
  wrap_text "a  b" 2 = ["a "; "b"] /\
  wrap_text " a" 3 = ["a"] /\
  wrap_text "  " 1 = [""] /\
  wrap_text "a a a " 1 = ["a"; "a"; "a"] /\
  wrap_text (String "a" (String "013" (String "010" (String "b"
             (String "010" (String "010" (String "c" (String "010" ""))))))))
            3 = ["a"; "b"; "c"] /\
  wrap_text ("ab cdefg" ++ String "011" "h") 2 = ["ab"; "cd"; "ef"; "g"; "h"] /\
  wrap_text "ab" 0 = ["ab"].
Proof. vm_compute. repeat split. Qed.

Lemma substring_length_le (s : string) :
  forall i n, (String.length (substring i n s) <= n)%nat.
Proof.
  induction s as [| c s IH]; intros i n.
  - destruct i, n; cbn; lia.
  - destruct i as [| i].
    + destruct n as [| n]; cbn; [ lia | ]. specialize (IH 0%nat n). lia.
    + cbn. apply IH.
Qed.

Lemma chunks_from_fit (width : nat) (word : string) (turns : nat) :
  forall i, Forall (fun c => (String.length c <= width)%nat)
                   (chunks_from turns word i width).
Proof.
  induction turns as [| t IH]; intros i; cbn [chunks_from].
  - constructor.
  - destruct (i <? String.length word)%nat; constructor.
    + apply substring_length_le.
    + apply IH.
Qed.

Lemma fits_chunks (width : Z) (word : string) :
  0 < width -> fits width (chunks word (Z.to_nat width)).
Proof.
  intros H. unfold fits, chunks.
  eapply Forall_impl; [ | apply chunks_from_fit ].
  intros c Hc. unfold Py.len. cbv beta in Hc. lia.
Qed.

Lemma fits_app (width : Z) (a b : list string) :
  fits width a -> fits width b -> fits width (a ++ b).
Proof. intros Ha Hb. apply Forall_app. now split. Qed.

Lemma fits_snoc (width : Z) (a : list string) (x : string) :
  fits width a -> Py.len x <= width -> fits width (a ++ [x]).
Proof. intros Ha Hx. apply fits_app; [ exact Ha | now constructor ]. Qed.

Lemma place_chunks_fit (width : Z) (cs : list string) :
  0 < width -> fits width cs ->
  forall lines, fits width lines ->
    fits width (fst (place_chunks cs (Z.to_nat width) lines)) /\
    Py.len (snd (place_chunks cs (Z.to_nat width) lines)) <= width.
Proof.
  intros Hw. induction cs as [| c cs IH]; intros Hcs lines Hl; cbn [place_chunks].
  - cbn [fst snd]. split; [ exact Hl | change (Py.len "") with 0; lia ].
  - inversion Hcs as [| ? ? Hc Hrest]; subst.
    destruct (_ =? _)%nat.
    + apply IH; [ exact Hrest | now apply fits_snoc ].
    + split; [ exact Hl | exact Hc ].
Qed.

Lemma len_append (a b : string) : Py.len (a ++ b) = Py.len a + Py.len b.
Proof.
  unfold Py.len. induction a as [| c a IH]; cbn [append String.length].
  - lia.
  - lia.
Qed.

Lemma wrap_word_fit (width : Z) (st : list string * string) (word : string) :
  0 < width ->
  fits width (fst st) -> Py.len (snd st) <= width ->
  fits width (fst (wrap_word width st word)) /\
  Py.len (snd (wrap_word width st word)) <= width.
Proof.
  intros Hw Hl Hc. destruct st as [lines current]. cbn [fst snd] in *.
  unfold wrap_word.
  destruct (negb (Py.truthy current)).
  - destruct (Z.leb_spec (Py.len word) width); cbn [fst snd].
    + split; assumption.
    + split; [ | change (Py.len "") with 0; lia ].
      apply fits_app; [ exact Hl | now apply fits_chunks ].
  - destruct (Z.leb_spec (Py.len current + 1 + Py.len word) width); cbn [fst snd].
    + split; [ exact Hl | ]. rewrite !len_append.
      change (Py.len " ") with 1. lia.
    + cbv zeta. destruct (Z.leb_spec (Py.len word) width); cbn [fst snd].
      * split; [ now apply fits_snoc | assumption ].
      * apply place_chunks_fit;
          [ exact Hw | now apply fits_chunks | now apply fits_snoc ].
Qed.

Lemma wrap_words_fit (width : Z) (words : list string) :
  0 < width ->
  forall st, fits width (fst st) -> Py.len (snd st) <= width ->
    fits width (fst (fold_left (wrap_word width) words st)) /\
    Py.len (snd (fold_left (wrap_word width) words st)) <= width.
Proof.
  intros Hw. induction words as [| w ws IH]; intros st Hl Hc; cbn [fold_left].
  - now split.
  - destruct (wrap_word_fit width st w Hw Hl Hc) as [H1 H2]. now apply IH.
Qed.

Lemma wrap_raw_line_fit (width : Z) (lines : list string) (raw_line : string) :
  0 < width -> fits width lines -> fits width (wrap_raw_line width lines raw_line).
Proof.
  intros Hw Hl. unfold wrap_raw_line.
  destruct (wrap_words_fit width (split_spaces raw_line) Hw (lines, ""))
    as [H1 H2]; [ exact Hl | cbn [snd]; change (Py.len "") with 0; lia | ].
  destruct (fold_left _ _ _) as [lines' current]. cbn [fst snd] in *.
  destruct (Py.truthy current); [ now apply fits_snoc | exact H1 ].
Qed.

Lemma wrap_raw_lines_fit (width : Z) (raws : list string) :
  0 < width ->
  forall lines, fits width lines ->
    fits width (fold_left (wrap_raw_line width) raws lines).
Proof.
  intros Hw. induction raws as [| r rs IH]; intros lines Hl; cbn [fold_left].
  - exact Hl.
  - apply IH. now apply wrap_raw_line_fit.
Qed.


Lemma app_empty_r (s : string) : s ++ "" = s.
Proof. induction s as [| c s IH]; cbn; [ reflexivity | now rewrite IH ]. Qed.

Lemma app_assoc_string (a b c : string) : (a ++ b) ++ c = a ++ (b ++ c).
Proof. induction a as [| x a IH]; cbn; [ reflexivity | now rewrite IH ]. Qed.

Lemma despace_app (a b : string) : despace (a ++ b) = despace a ++ despace b.
Proof.
  induction a as [| c a IH]; cbn [append despace]; [ reflexivity | ].
  destruct (Ascii.eqb c " "); [ exact IH | cbn [append]; now rewrite IH ].
Qed.

Lemma ink_app (a b : list string) : ink (a ++ b) = ink a ++ ink b.
Proof.
  unfold ink. induction a as [| x a IH]; cbn [app fold_right append].
  - reflexivity.
  - rewrite IH. now rewrite app_assoc_string.
Qed.

Lemma ink_snoc (a : list string) (x : string) : ink (a ++ [x]) = ink a ++ despace x.
Proof. rewrite ink_app. cbn [ink fold_right]. now rewrite app_empty_r. Qed.

Lemma ink_split_spaces (s : string) : ink (split_spaces s) = despace s.
Proof.
  induction s as [| c s IH]; [ reflexivity | ].
  cbn [split_spaces despace]. destruct (Ascii.eqb c " ") eqn:E.
  - cbn [ink fold_right despace append]. exact IH.
  - destruct (split_spaces s) as [| w ws].
    + cbn in IH |- *. rewrite E. now rewrite <- IH.
    + cbn [ink fold_right despace] in IH |- *. rewrite E.
      cbn [append]. now rewrite IH.
Qed.

Lemma substring_zero (s : string) : forall i, substring i 0 s = "".
Proof. induction s as [| c s IH]; intros [| i]; cbn; auto. Qed.

Lemma substring_empty (i n : nat) : substring i n "" = "".
Proof. destruct i, n; reflexivity. Qed.

Lemma substring_split (s : string) :
  forall i n m, substring i n s ++ substring (i + n) m s = substring i (n + m) s.
Proof.
  induction s as [| c s IH]; intros i n m.
  - now rewrite !substring_empty.
  - destruct i as [| i].
    + destruct n as [| n]; [ reflexivity | ].
      cbn [Nat.add substring append]. f_equal. apply (IH 0%nat).
    + cbn [Nat.add substring]. apply IH.
Qed.

Lemma substring_beyond (s : string) :
  forall i m, (String.length s - i <= m)%nat ->
              substring i m s = substring i (String.length s - i) s.
Proof.
  induction s as [| c s IH]; intros i m H.
  - now rewrite !substring_empty.
  - destruct i as [| i].
    + cbn [String.length Nat.sub] in *. destruct m as [| m]; [ lia | ].
      cbn [substring]. f_equal.
      rewrite (IH 0%nat m) by lia. now rewrite Nat.sub_0_r.
    + cbn [String.length Nat.sub substring] in *. now apply IH.
Qed.

Lemma substring_all (s : string) : substring 0 (String.length s) s = s.
Proof. induction s as [| c s IH]; cbn; [ reflexivity | now rewrite IH ]. Qed.

Lemma substring_length_exact (s : string) :
  forall i n, (i + n <= String.length s)%nat ->
              String.length (substring i n s) = n.
Proof.
  induction s as [| c s IH]; intros i n H.
  - cbn in H. assert (i = 0%nat) by lia. assert (n = 0%nat) by lia. now subst.
  - destruct i as [| i].
    + destruct n as [| n]; [ reflexivity | ].
      cbn [substring String.length] in *. f_equal. apply (IH 0%nat). lia.
    + cbn [substring String.length] in *. apply IH. lia.
Qed.

(** The rest of the word from index [i] on. *)
Lemma chunk_then_rest (word : string) (i width : nat) :
  substring i width word
  ++ substring (i + width) (String.length word - (i + width)) word
  = substring i (String.length word - i) word.
Proof.
  rewrite substring_split. rewrite substring_beyond by lia. reflexivity.
Qed.

Lemma ink_chunks_from (word : string) (width : nat) (turns : nat) :
  (1 <= width)%nat ->
  forall i, (String.length word - i <= turns)%nat ->
    ink (chunks_from turns word i width) =
    despace (substring i (String.length word - i) word).
Proof.
  intros Hw. induction turns as [| t IH]; intros i H; cbn [chunks_from].
  - replace (String.length word - i)%nat with 0%nat by lia.
    now rewrite substring_zero.
  - destruct (Nat.ltb_spec i (String.length word)).
    + cbn [ink fold_right]. fold (ink (chunks_from t word (i + width) width)).
      rewrite IH by lia. rewrite <- despace_app. now rewrite chunk_then_rest.
    + replace (String.length word - i)%nat with 0%nat by lia.
      now rewrite substring_zero.
Qed.

Lemma ink_chunks (word : string) (width : nat) :
  (1 <= width)%nat -> ink (chunks word width) = despace word.
Proof.
  intros Hw. unfold chunks. rewrite ink_chunks_from by lia.
  now rewrite Nat.sub_0_r, substring_all.
Qed.

(** What the lines and the current line hold between them. *)
Lemma place_chunks_from_ink (word : string) (width : nat) (turns : nat) :
  (1 <= width)%nat ->
  forall i lines, (String.length word - i <= turns)%nat ->
    let r := place_chunks (chunks_from turns word i width) width lines in
    ink (fst r) ++ despace (snd r) =
    ink lines ++ despace (substring i (String.length word - i) word).
Proof.
  intros Hw. induction turns as [| t IH]; intros i lines H; cbv zeta;
    cbn [chunks_from].
  - cbn [place_chunks fst snd].
    replace (String.length word - i)%nat with 0%nat by lia.
    now rewrite substring_zero.
  - destruct (Nat.ltb_spec i (String.length word)).
    + cbn [place_chunks].
      destruct (Nat.eqb_spec (String.length (substring i width word)) width)
        as [E | E].
      * specialize (IH (i + width)%nat (lines ++ [substring i width word])%list).
        cbv zeta in IH. rewrite IH by lia.
        rewrite ink_snoc, app_assoc_string, <- despace_app.
        now rewrite chunk_then_rest.
      * cbn [fst snd]. f_equal. f_equal.
        apply substring_beyond.
        destruct (Nat.le_gt_cases (i + width) (String.length word)) as [Hle | Hgt];
          [ | lia ].
        exfalso. apply E. now apply substring_length_exact.
    + cbn [place_chunks fst snd].
      replace (String.length word - i)%nat with 0%nat by lia.
      now rewrite substring_zero.
Qed.

Lemma truthy_false_empty (s : string) : Py.truthy s = false -> s = "".
Proof. destruct s; [ reflexivity | discriminate ]. Qed.

Lemma wrap_word_ink (width : Z) (st : list string * string) (word : string) :
  0 < width ->
  let r := wrap_word width st word in
  ink (fst r) ++ despace (snd r) =
  (ink (fst st) ++ despace (snd st)) ++ despace word.
Proof.
  intros Hw. cbv zeta. destruct st as [lines current]. cbn [fst snd].
  unfold wrap_word.
  destruct (Py.truthy current) eqn:Et; cbn [negb].
  - destruct (_ <=? _); cbn [fst snd].
    + rewrite !despace_app. cbn [despace Ascii.eqb Bool.eqb append].
      now rewrite app_assoc_string.
    + cbv zeta. destruct (_ <=? _); cbn [fst snd].
      * now rewrite ink_snoc.
      * unfold chunks.
        pose proof (place_chunks_from_ink word (Z.to_nat width)
                      (String.length word) ltac:(lia) 0%nat
                      (lines ++ [current])%list ltac:(lia)) as K.
        cbv zeta in K. rewrite K.
        now rewrite ink_snoc, Nat.sub_0_r, substring_all.
  - apply truthy_false_empty in Et. subst current.
    destruct (_ <=? _); cbn [fst snd despace].
    + now rewrite app_empty_r.
    + rewrite ink_app, ink_chunks by lia. now rewrite !app_empty_r.
Qed.

Lemma wrap_words_ink (width : Z) (words : list string) :
  0 < width ->
  forall st,
    let r := fold_left (wrap_word width) words st in
    ink (fst r) ++ despace (snd r) =
    (ink (fst st) ++ despace (snd st)) ++ ink words.
Proof.
  intros Hw. induction words as [| w ws IH]; intros st; cbv zeta;
    cbn [fold_left].
  - cbn [ink fold_right]. now rewrite app_empty_r.
  - specialize (IH (wrap_word width st w)). cbv zeta in IH. rewrite IH.
    pose proof (wrap_word_ink width st w Hw) as K. cbv zeta in K. rewrite K.
    cbn [ink fold_right]. now rewrite app_assoc_string.
Qed.

Lemma wrap_raw_line_ink (width : Z) (lines : list string) (raw_line : string) :
  0 < width ->
  ink (wrap_raw_line width lines raw_line) = ink lines ++ despace raw_line.
Proof.
  intros Hw. unfold wrap_raw_line.
  pose proof (wrap_words_ink width (split_spaces raw_line) Hw (lines, "")) as K.
  cbv zeta in K. cbn [fst snd despace] in K.
  rewrite app_empty_r, ink_split_spaces in K.
  destruct (fold_left _ _ _) as [lines' current]. cbn [fst snd] in K.
  destruct (Py.truthy current) eqn:Et.
  - now rewrite ink_snoc.
  - apply truthy_false_empty in Et. subst current.
    cbn [despace] in K. now rewrite app_empty_r in K.
Qed.

Lemma wrap_raw_lines_ink (width : Z) (raws : list string) :
  0 < width ->
  forall lines,
    ink (fold_left (wrap_raw_line width) raws lines) = ink lines ++ ink raws.
Proof.
  intros Hw. induction raws as [| r rs IH]; intros lines; cbn [fold_left].
  - cbn [ink fold_right]. now rewrite app_empty_r.
  - rewrite IH, wrap_raw_line_ink by exact Hw.
    cbn [ink fold_right]. now rewrite app_assoc_string.
Qed.


(** ** The secret on the reveal screen *)

Lemma off_reveal_honest (s : State) : off_reveal s -> reveal_honest s.
Proof. intros H E. contradiction. Qed.

Lemma reveal_honest_view (s s' : State) :
  reveal_view s' = reveal_view s -> reveal_honest s -> reveal_honest s'.
Proof.
  unfold reveal_view, reveal_honest. intros [= E1 E2 E3 E4 E5 E6 E7] H Hscr.
  rewrite imposter_at_eq in *. rewrite E1, E2, E3, E4, E5, E6, E7 in *.
  now apply H.
Qed.

Lemma honest_of_view {A : Type} (m : M A) :
  (forall v, Maintains (fun s => reveal_view s = v) m) ->
  Maintains reveal_honest m.
Proof.
  intros H s Hs. apply (reveal_honest_view s); [ | exact Hs ].
  exact (H (reveal_view s) s eq_refl).
Qed.

(** A procedure that leaves alone what the reveal screen shows. *)
Ltac keeps_reveal := apply honest_of_view; intros ?; maintains.

Lemma ensures_any {A : Type} (P : State -> Prop) (m : M A) :
  Ensures P m (fun _ _ => True).
Proof. intros s H a s' E. exact I. Qed.

(** A step whose effect does not matter for what follows. *)
Ltac any_step :=
  apply (ensures_bind _ (fun _ _ => True)); [ apply ensures_any | intros ? ].

(** Every field of an updated session and message, read off. *)
Ltac session_simpl :=
  simp_state;
  cbn [screen input_buffer word_count_buffer imposter_percent_buffer
       player_count word_options_count word_buffer chosen_word mode_index
       selected_mode imposter_index current_player countdown_until
       reveal_until handoff_until handoff_advance handoff_pending_action
       imposter_all_chance all_imposter_except_first random_candidates
       random_filter scroll_block_until simple_candidates simple_index
       simple_hold_started simple_hold_until
       set_screen set_input_buffer set_word_count_buffer
       set_imposter_percent_buffer set_player_count set_word_options_count
       set_word_buffer set_chosen_word set_mode_index set_selected_mode
       set_imposter_index set_current_player set_countdown_until
       set_reveal_until set_handoff_until set_handoff_advance
       set_handoff_pending_action set_imposter_all_chance
       set_all_imposter_except_first set_random_candidates set_random_filter
       set_scroll_block_until set_simple_candidates set_simple_index
       set_simple_hold_started set_simple_hold_until
       title text set_title set_text].

Ltac off_reveal_end :=
  run_to_end; unfold off_reveal; view_simpl; discriminate.

Lemma honest_start_reveal (P : State -> Prop) (now : Q) :
  Ensures P (start_reveal now) (fun _ => reveal_honest).
Proof.
  unfold start_reveal, is_current_imposter. run_to_end;
    intros _; rewrite imposter_at_eq;
    repeat match goal with E : _ = _ |- _ => revert E end;
    session_simpl; intros;
    repeat match goal with E : _ = _ |- _ => rewrite E end;
    reflexivity.
Qed.

Lemma off_reset_idle (P : State -> Prop) :
  Ensures P reset_idle (fun _ => off_reveal).
Proof.
  intros s _ a s' E. rewrite reset_idle_result in E. injection E as _ <-.
  discriminate.
Qed.

Lemma off_enter_player_input (P : State -> Prop) :
  Ensures P enter_player_input (fun _ => off_reveal).
Proof. unfold enter_player_input. off_reveal_end. Qed.

Lemma off_enter_word_count_input (P : State -> Prop) :
  Ensures P enter_word_count_input (fun _ => off_reveal).
Proof. unfold enter_word_count_input. off_reveal_end. Qed.

Lemma off_enter_imposter_percent_input (P : State -> Prop) :
  Ensures P enter_imposter_percent_input (fun _ => off_reveal).
Proof. unfold enter_imposter_percent_input. off_reveal_end. Qed.

Lemma off_enter_confirm (P : State -> Prop) :
  Ensures P enter_confirm (fun _ => off_reveal).
Proof. unfold enter_confirm. off_reveal_end. Qed.

Lemma off_enter_word_entry (P : State -> Prop) :
  Ensures P enter_word_entry (fun _ => off_reveal).
Proof. unfold enter_word_entry. off_reveal_end. Qed.

Lemma off_start_handoff (P : State -> Prop) (now : Q) (adv : bool) (pend : string) :
  Ensures P (start_handoff now adv pend) (fun _ => off_reveal).
Proof. unfold start_handoff. off_reveal_end. Qed.

Lemma off_start_waiting (P : State -> Prop) :
  Ensures P start_waiting (fun _ => off_reveal).
Proof. unfold start_waiting. off_reveal_end. Qed.

Lemma off_advance_player (P : State -> Prop) :
  Ensures P advance_player (fun _ => off_reveal).
Proof. unfold advance_player, start_waiting. off_reveal_end. Qed.

(** The screen is set first; what follows leaves it alone. *)
Lemma off_screen_then {B : Type} (P : State -> Prop) (scr : string) (k : M B) :
  scr <> "reveal" ->
  Maintains off_reveal k ->
  Ensures P (ui_assign set_screen scr ;; k) (fun _ => off_reveal).
Proof.
  intros Hscr Hk.
  apply (ensures_bind P (fun _ => off_reveal)).
  - intros s H a s' [= <- <-]. exact Hscr.
  - intros _. now apply ensures_maintains.
Qed.

Lemma off_enter_modes (P : State -> Prop) :
  Ensures P enter_modes (fun _ => off_reveal).
Proof. unfold enter_modes. apply off_screen_then; [ discriminate | maintains ]. Qed.

Lemma off_enter_random_pick (P : State -> Prop) :
  Ensures P enter_random_pick (fun _ => off_reveal).
Proof.
  unfold enter_random_pick. apply off_screen_then; [ discriminate | maintains ].
Qed.

Lemma off_enter_random_simple (P : State -> Prop) (now : option Q) :
  Ensures P (enter_random_simple now) (fun _ => off_reveal).
Proof.
  unfold enter_random_simple.
  any_step. apply off_screen_then; [ discriminate | maintains ].
Qed.

Lemma off_show_mode (index : Z) : Maintains off_reveal (show_mode index).
Proof. maintains. Qed.

(** Ending off the reveal screen is ending honestly. *)
Lemma honest_of_off {A : Type} (P : State -> Prop) (m : M A) :
  Ensures P m (fun _ => off_reveal) -> Ensures P m (fun _ => reveal_honest).
Proof.
  intros H s Hs a s' E. apply off_reveal_honest. exact (H s Hs a s' E).
Qed.

Lemma honest_route_first_turn (P : State -> Prop) :
  Ensures P route_first_turn (fun _ => reveal_honest).
Proof.
  unfold route_first_turn, ui.
  any_step. destruct (_ && _).
  - any_step. apply honest_of_off, off_start_handoff.
  - destruct (_ >? _).
    + any_step. apply honest_start_reveal.
    + apply honest_of_off, off_start_waiting.
Qed.

Lemma honest_prepare_word_and_start (P : State -> Prop) :
  (forall s, P s -> off_reveal s) ->
  Ensures P prepare_word_and_start (fun _ => reveal_honest).
Proof.
  intros HP. rewrite prepare_word_and_start_route. unfold ui.
  apply ensures_bind_read. intros u.
  destruct (selected_mode u) as [mode |].
  - do 3 any_step. apply honest_route_first_turn.
  - apply ensures_skip. intros s (H & _). apply off_reveal_honest. now apply HP.
Qed.

Lemma off_select_mode (P : State -> Prop) :
  Ensures P select_mode (fun _ => off_reveal).
Proof.
  unfold select_mode, ui.
  do 2 any_step.
  destruct (_ == _); [ apply off_reset_idle | ].
  do 4 any_step. apply off_start_handoff.
Qed.

Lemma honest_start_random_flow (P : State -> Prop) :
  (forall s, P s -> off_reveal s) ->
  Ensures P start_random_flow (fun _ => reveal_honest).
Proof.
  intros HP. unfold start_random_flow, ui.
  apply (ensures_weaken P off_reveal (fun _ => reveal_honest)
                        (fun _ => reveal_honest)); [ exact HP | auto | ].
  apply ensures_after; [ apply maintains_read | intros u ].
  destruct (word_options_count u <=? 1).
  - do 4 (apply ensures_after; [ maintains | intros ? ]).
    apply honest_prepare_word_and_start. auto.
  - do 4 (apply ensures_after; [ maintains | intros ? ]).
    apply honest_of_off, off_enter_random_pick.
Qed.

Lemma honest_start_random_simple (P : State -> Prop) :
  (forall s, P s -> off_reveal s) ->
  Ensures P start_random_simple (fun _ => reveal_honest).
Proof.
  intros HP. unfold start_random_simple, ui.
  apply (ensures_weaken P off_reveal (fun _ => reveal_honest)
                        (fun _ => reveal_honest)); [ exact HP | auto | ].
  apply ensures_after; [ apply maintains_read | intros u ].
  destruct (word_options_count u <=? 1).
  - do 4 (apply ensures_after; [ maintains | intros ? ]).
    apply honest_prepare_word_and_start. auto.
  - apply ensures_after; [ maintains | intros words ]. cbv zeta.
    do 5 (apply ensures_after; [ maintains | intros ? ]).
    apply honest_of_off, off_enter_random_simple.
Qed.

Lemma honest_lock_random_choice (P : State -> Prop) :
  (forall s, P s -> off_reveal s) ->
  Ensures P lock_random_choice (fun _ => reveal_honest).
Proof.
  intros HP. unfold lock_random_choice.
  apply (ensures_weaken P off_reveal (fun _ => reveal_honest)
                        (fun _ => reveal_honest)); [ exact HP | auto | ].
  do 4 (apply ensures_after; [ maintains | intros ? ]).
  apply honest_prepare_word_and_start. auto.
Qed.

Lemma honest_lock_random_simple_choice (P : State -> Prop) :
  (forall s, P s -> off_reveal s) ->
  Ensures P lock_random_simple_choice (fun _ => reveal_honest).
Proof.
  intros HP. unfold lock_random_simple_choice, ui.
  apply (ensures_weaken P off_reveal (fun _ => reveal_honest)
                        (fun _ => reveal_honest)); [ exact HP | auto | ].
  apply ensures_after; [ apply maintains_read | intros u ].
  do 3 (apply ensures_after; [ maintains | intros ? ]).
  apply honest_prepare_word_and_start. auto.
Qed.

(** What follows ends off the reveal screen, and the scroll block is set. *)
Lemma honest_then_block {A : Type} (P : State -> Prop) (m : M A) (v : Q) :
  Ensures P m (fun _ => reveal_honest) ->
  Ensures P (m ;; ui_assign set_scroll_block_until v) (fun _ => reveal_honest).
Proof.
  intros H. apply (ensures_bind P (fun _ => reveal_honest)); [ exact H | ].
  intros _. apply ensures_maintains. keeps_reveal.
Qed.

Lemma honest_update_timers (now : Q) :
  Ensures reveal_honest (update_timers now) (fun _ => reveal_honest).
Proof.
  unfold update_timers, ui. apply ensures_bind_read. intros u.
  on_screen u "random_simple" E1; cbn [andb].
  - destruct (_ && _).
    + apply honest_lock_random_simple_choice. intros s (_ & <-).
      unfold off_reveal. now rewrite E1.
    + rewrite E1. cbn [String.eqb Ascii.eqb Bool.eqb andb].
      apply ensures_skip. tauto.
  - on_screen u "reveal" E2; cbn [andb].
    + destruct (Qgeb now (reveal_until u)).
      * destruct (_ >=? _); apply honest_then_block, honest_of_off;
          [ apply off_advance_player | apply off_start_handoff ].
      * rewrite E2. cbn [String.eqb Ascii.eqb Bool.eqb andb].
        apply ensures_skip. tauto.
    + on_screen u "handoff" E3; cbn [andb]; [ | apply ensures_skip; tauto ].
      destruct (Qgeb now (handoff_until u)); [ | apply ensures_skip; tauto ].
      apply honest_then_block.
      assert (Hoff : forall s, reveal_honest s /\ ui_state s = u -> off_reveal s).
      { intros s (_ & <-). unfold off_reveal. now rewrite E3. }
      destruct (Py.truthy _).
      * cbv zeta.
        apply (ensures_bind _ (fun _ => off_reveal)).
        { intros s H a s' [= <- <-]. exact (Hoff s H). }
        intros _.
        repeat match goal with
               | |- Ensures _ (if ?b then _ else _) _ => destruct b
               end.
        -- apply honest_of_off, off_enter_word_entry.
        -- apply honest_start_random_flow. auto.
        -- apply honest_start_random_simple. auto.
        -- apply honest_prepare_word_and_start. auto.
        -- apply ensures_skip. apply off_reveal_honest.
      * destruct (handoff_advance u); apply honest_of_off;
          [ apply off_advance_player | apply off_start_waiting ].
Qed.

Lemma honest_on_direction (direction : string) :
  Ensures reveal_honest (on_direction direction) (fun _ => reveal_honest).
Proof.
  unfold on_direction, ui.
  apply ensures_after; [ unfold gesture; keeps_reveal | intros _ ].
  apply ensures_bind_read. intros u.
  assert (Hoff : forall s, reveal_honest s /\ ui_state s = u ->
                           screen u <> "reveal" -> off_reveal s).
  { intros s (_ & <-) E. exact E. }
  on_screen u "handoff" E1; [ apply ensures_skip; tauto | ].
  on_screen u "wait_scroll" E2; [ any_step; apply honest_start_reveal | ].
  on_screen u "reveal" E3.
  { destruct (_ >=? _); [ apply honest_of_off, off_advance_player | ].
    any_step. apply honest_then_block, honest_of_off, off_start_handoff. }
  on_screen u "done" E4; [ apply honest_of_off, off_enter_modes | ].
  on_screen u "random_simple" E5.
  { destruct (_ || _); [ | apply ensures_skip; tauto ].
    any_step. cbv zeta. do 5 any_step.
    apply honest_of_off, off_enter_random_simple. }
  assert (Hlock : forall m : M unit,
             (forall P, (forall s, P s -> off_reveal s) ->
                        Ensures P m (fun _ => reveal_honest)) ->
             Ensures (fun s => reveal_honest s /\ ui_state s = u) m
                     (fun _ => reveal_honest)).
  { intros m Hm. apply Hm. intros s H. now apply (Hoff s H). }
  destruct (direction == GO_DIRECTION).
  { repeat match goal with
           | |- Ensures _ (if ?b then _ else _) _ => destruct b
           end;
      first [ apply ensures_skip; tauto
            | apply honest_of_off;
              first [ apply off_enter_player_input
                    | apply off_enter_word_count_input
                    | apply off_enter_imposter_percent_input
                    | apply off_enter_confirm
                    | apply off_enter_modes
                    | apply off_select_mode ]
            | apply Hlock; first [ apply honest_prepare_word_and_start
                                 | apply honest_lock_random_choice ] ]. }
  destruct (direction == BACK_DIRECTION); [ | apply ensures_skip; tauto ].
  on_screen u "player_input" F1; [ apply honest_of_off, off_reset_idle | ].
  on_screen u "confirm" F2;
    [ apply honest_of_off, off_enter_imposter_percent_input | ].
  on_screen u "mode_select" F3.
  { apply honest_of_off.
    apply (ensures_weaken _ off_reveal (fun _ => off_reveal) (fun _ => off_reveal));
      [ intros s H; now apply (Hoff s H) | auto | ].
    apply ensures_maintains, off_show_mode. }
  repeat match goal with
         | |- Ensures _ (if ?b then _ else _) _ => destruct b
         end;
    first [ apply ensures_skip; tauto
          | apply honest_of_off;
            first [ apply off_enter_modes
                  | apply off_enter_player_input
                  | apply off_enter_word_count_input ] ].
Qed.

Lemma honest_render : Ensures reveal_honest render (fun _ => reveal_honest).
Proof.
  unfold render, ui.
  apply ensures_after; [ keeps_reveal | intros now ].
  apply ensures_bind_read. intros u.
  on_screen u "random_simple" E1; cbn [andb].
  - apply honest_of_off.
    apply (ensures_weaken _ off_reveal (fun _ => off_reveal) (fun _ => off_reveal));
      [ intros s (_ & <-); unfold off_reveal; now rewrite E1 | auto | ].
    apply ensures_maintains. maintains.
  - apply (ensures_weaken _ reveal_honest (fun _ => reveal_honest)
                          (fun _ => reveal_honest)); [ tauto | auto | ].
    apply ensures_maintains. keeps_reveal.
Qed.

Ltac ensures_honest leaf :=
  repeat first
    [ leaf
    | apply ensures_ret
    | apply ensures_maintains; solve [ apply maintains_read | keeps_reveal ]
    | match goal with
      | |- Ensures _ (bind _ _) _ =>
          apply (ensures_bind reveal_honest (fun _ => reveal_honest));
            [ | intros ? ]
      | |- Ensures _ (let _ := _ in _) _ => cbv zeta
      | |- Ensures _ (match ?x with _ => _ end) _ => destruct x eqn:?
      end ].

Lemma honest_handle_scroll (direction : string) (now : Q) :
  Ensures reveal_honest (handle_scroll direction now) (fun _ => reveal_honest).
Proof.
  unfold handle_scroll, ui.
  ensures_honest ltac:(apply honest_on_direction).
Qed.

Lemma honest_handle_key (ch : Z) (now : Q) :
  Ensures reveal_honest (handle_key ch now) (fun _ => reveal_honest).
Proof.
  unfold handle_key, ui. apply ensures_bind_read. intros u.
  destruct (is_enter ch && enter_scrolls (screen u)).
  { eapply ensures_weaken; [ | | apply honest_handle_scroll ]; [ tauto | auto ]. }
  on_screen u "random_pick" E1; rewrite ?andb_true_r, ?andb_false_r; cbn [andb].
  { assert (Hoff : forall s, reveal_honest s /\ ui_state s = u -> off_reveal s).
    { intros s (_ & <-). unfold off_reveal. now rewrite E1. }
    rewrite E1. cbn [String.eqb Ascii.eqb Bool.eqb andb].
    repeat match goal with
           | |- Ensures _ (if ?b then _ else _) _ => destruct b
           end;
      first [ apply honest_lock_random_choice; exact Hoff
            | any_step; apply honest_of_off, off_enter_random_pick
            | apply ensures_skip; tauto ]. }
  repeat match goal with
         | |- Ensures _ (if ?b then _ else _) _ => destruct b
         end;
    first [ apply ensures_skip; tauto
          | any_step; apply honest_of_off;
            first [ apply off_enter_player_input
                  | apply off_enter_word_count_input
                  | apply off_enter_imposter_percent_input
                  | apply off_enter_word_entry ] ].
Qed.

Lemma honest_run_iteration (now : Q) (ch : Z) (mouse : option (bool * bool)) :
  Ensures reveal_honest (run_iteration now ch mouse) (fun _ => reveal_honest).
Proof.
  unfold run_iteration, update_scroll_state.
  ensures_honest ltac:(first [ apply honest_update_timers
                             | apply honest_render
                             | apply honest_handle_scroll
                             | apply honest_handle_key ]).
Qed.

Lemma honest_run_iterations (events : list (Q * Z * option (bool * bool))) :
  Ensures reveal_honest (run_iterations events) (fun _ => reveal_honest).
Proof.
  induction events as [| [[now ch] mouse] rest IH]; cbn [run_iterations].
  - apply ensures_ret.
  - apply (ensures_bind reveal_honest (fun _ => reveal_honest));
      [ apply honest_run_iteration | intros _; exact IH ].
Qed.

(** The secret stays with those who may know it.  Whenever a run of the
    loop has returned on the reveal screen, whatever the keys, the clock
    and the generator, the message box holds the imposter notice if
    [is_current_imposter] answers [True] for the current player, and the
    word of the round ("mystery" if there is none) otherwise. *)
Theorem reveal_always_honest
        (words : list string) (rand : list N) (mono : list Q)
        (events : list (Q * Z * option (bool * bool))) :
  let r := run_iterations events (startup_state words rand mono) in
  let u := ui_state (final r) in
  fst r = Done tt ->
  screen u = "reveal" ->
  message_box (final r) =
  if imposter_at (final r) (current_player u)
  then mkMessageBox "Du bist der Imposter" "Lass dir nichts anmerken."
  else mkMessageBox "Dein Wort" (Py.or_else (chosen_word u) "mystery").
Proof.
  cbv zeta. intros E.
  destruct (run_iterations events (startup_state words rand mono))
    as [o s'] eqn:Er.
  cbn [fst] in E. subst o. cbn [final snd].
  change (reveal_honest s').
  refine (honest_run_iterations events (startup_state words rand mono) _ tt s' Er).
  apply off_reveal_honest. discriminate.
Qed.

(** ** The message inside its box *)

Lemma max_len_fold (ls : list string) :
  forall m x, In x ls -> Py.len x <= fold_left (fun m x => Z.max m (Py.len x)) ls m.
Proof.
  assert (Hmono : forall ls m,
            m <= fold_left (fun m x => Z.max m (Py.len x)) ls m).
  { intros l. induction l as [| y l IH]; intros m; cbn [fold_left]; [ lia | ].
    specialize (IH (Z.max m (Py.len y))). lia. }
  induction ls as [| y ls IH]; intros m x Hin; [ contradiction | ].
  cbn [fold_left]. destruct Hin as [-> | Hin].
  - specialize (Hmono ls (Z.max m (Py.len x))). lia.
  - now apply IH.
Qed.

Lemma max_len_bound (ls : list string) (x : string) :
  In x ls -> Py.len x <= max_len ls.
Proof.
  destruct ls as [| l ls]; [ contradiction | ]. unfold max_len.
  intros [-> | Hin].
  - clear. revert x. induction ls as [| y ls IH]; intros x; cbn [fold_left];
      [ lia | ].
    assert (Hmono : forall l m,
              m <= fold_left (fun m x => Z.max m (Py.len x)) l m).
    { intros l0. induction l0 as [| z l0 IH0]; intros m; cbn [fold_left];
        [ lia | ].
      specialize (IH0 (Z.max m (Py.len z))). lia. }
    specialize (Hmono ls (Z.max (Py.len x) (Py.len y))). lia.
  - now apply max_len_fold.
Qed.

Lemma substring_whole (s : string) (n : nat) :
  (String.length s <= n)%nat -> substring 0 n s = s.
Proof.
  revert n. induction s as [| c s IH]; intros n H.
  - now destruct n.
  - destruct n as [| n]; cbn [String.length] in H; [ lia | ].
    cbn [substring]. f_equal. apply IH. lia.
Qed.


(** In a window of 15 columns a line of ten characters is cut. *)
Example narrow_window_cuts_a_line :
  let g := message_box_geometry 24 15 (mkMessageBox "" "abcdefghij") in
  lines g = ["abcdefghij"] /\ box_width g = 11 /\
  slice_to (box_width g - 2) "abcdefghij" = "abcdefghi".
Proof. vm_compute. repeat split. Qed.

(** ** The candidates of a round *)

Lemma remove_at_split {A : Type} (d : A) (xs : list A) :
  forall i, (i < List.length xs)%nat ->
            xs = (firstn i xs ++ nth i xs d :: skipn (S i) xs)%list.
Proof.
  induction xs as [| x xs IH]; intros i Hi; cbn [List.length] in Hi; [ lia | ].
  destruct i as [| i]; [ reflexivity | ].
  cbn [firstn nth skipn app]. f_equal. apply IH. lia.
Qed.

Lemma sample_from_distinct (k : nat) :
  forall pool tape,
    (k <= List.length pool)%nat -> NoDup pool ->
    NoDup (sample_from pool k tape) /\ incl (sample_from pool k tape) pool.
Proof.
  induction k as [| k IH]; intros pool tape Hk Hnd; cbn [sample_from].
  - split; [ constructor | intros x [] ].
  - cbv zeta.
    set (i := (N.to_nat (hd 0%N tape) mod List.length pool)%nat).
    assert (Hi : (i < List.length pool)%nat)
      by (apply Nat.mod_upper_bound; lia).
    pose proof (remove_at_split "" pool i Hi) as Hsplit.
    assert (Hrm : NoDup (remove_at i pool) /\ ~ In (nth i pool "") (remove_at i pool)).
    { unfold remove_at. rewrite Hsplit in Hnd at 1.
      now apply NoDup_remove in Hnd. }
    destruct Hrm as [Hnd' Hnotin].
    assert (Hlen : List.length (remove_at i pool) = (List.length pool - 1)%nat).
    { apply (f_equal (@List.length string)) in Hsplit.
      unfold remove_at. rewrite length_app in *. cbn [List.length] in Hsplit.
      lia. }
    assert (Hincl : incl (remove_at i pool) pool).
    { intros x Hx. rewrite Hsplit. unfold remove_at in Hx.
      apply in_app_or in Hx. apply in_or_app.
      destruct Hx as [Hx | Hx]; [ now left | right; now right ]. }
    destruct (IH (remove_at i pool) (tl tape)) as [H1 H2]; [ lia | exact Hnd' | ].
    split.
    + constructor; [ | exact H1 ]. intros Hin. apply Hnotin. now apply H2.
    + intros x [<- | Hx]; [ now apply nth_In | ]. apply Hincl. now apply H2.
Qed.

Lemma start_random_flow_candidates (s : State) :
  1 < word_options_count (ui_state s) ->
  exists s',
    start_random_flow s = (Done tt, s') /\
    random_candidates (ui_state s') =
    Some (sample_from (WORDS s)
            (Z.to_nat (Z.min (word_options_count (ui_state s))
                             (Z.of_nat (List.length (WORDS s)))))
            (rand_tape s)).
Proof.
  intros H. unfold start_random_flow. exec.
  destruct (Z.leb_spec (word_options_count (ui_state s)) 1); [ lia | ].
  cbv beta. rewrite sample_eq by lia.
  match goal with
  | |- context [enter_random_pick ?s1] =>
      destruct (enter_random_pick_ok s1) as (H1 & _ & H3);
      destruct (enter_random_pick s1) as [[[] | e] s2]
  end; cbn in *; [ | discriminate ].
  eexists. split; [ reflexivity | exact H3 ].
Qed.

Lemma start_random_simple_candidates (s : State) :
  1 < word_options_count (ui_state s) ->
  WORDS s <> [] ->
  exists s',
    start_random_simple s = (Done tt, s') /\
    simple_candidates (ui_state s') =
    Some (sample_from (WORDS s)
            (Z.to_nat (Z.min (word_options_count (ui_state s))
                             (Z.of_nat (List.length (WORDS s)))))
            (rand_tape s)).
Proof.
  intros H Hw. unfold start_random_simple. exec.
  destruct (Z.leb_spec (word_options_count (ui_state s)) 1); [ lia | ].
  cbv beta.
  destruct (Z.gtb_spec (word_options_count (ui_state s)) 0); [ | lia ].
  assert (Hlen : 1 <= Z.of_nat (List.length (WORDS s))).
  { destruct (WORDS s); [ congruence | cbn [List.length]; lia ]. }
  rewrite sample_eq by lia.
  rewrite Z.max_r by lia.
  set (k := Z.to_nat (Z.min (word_options_count (ui_state s))
                            (Z.of_nat (List.length (WORDS s))))).
  assert (Hk : k = S (pred k)) by lia.
  destruct (sample_from (WORDS s) k (rand_tape s)) as [| c cs] eqn:Es.
  { apply (f_equal (@List.length string)) in Es.
    rewrite sample_from_length in Es. cbn in Es. lia. }
  match goal with
  | |- context [enter_random_simple None ?s1] =>
      destruct (enter_random_simple_ok s1 None c cs eq_refl eq_refl)
        as (s2 & -> & _ & H3)
  end.
  eexists. split; [ reflexivity | exact H3 ].
Qed.

(** With a word list free of repetitions, as [load_words] gives it, the
    candidates offered for more than one word option are pairwise
    distinct words of the list, [min(word_options_count, len(WORDS))] of
    them, in the filtered pick and (for a non-empty list) in the browse,
    whatever the generator gives. *)
Theorem sampled_candidates_distinct (s : State) :
  NoDup (WORDS s) ->
  1 < word_options_count (ui_state s) ->
  let n := Z.min (word_options_count (ui_state s))
                 (Z.of_nat (List.length (WORDS s))) in
  (exists cs s',
     start_random_flow s = (Done tt, s') /\
     random_candidates (ui_state s') = Some cs /\
     NoDup cs /\ incl cs (WORDS s) /\ Z.of_nat (List.length cs) = n) /\
  (WORDS s <> [] ->
   exists cs s',
     start_random_simple s = (Done tt, s') /\
     simple_candidates (ui_state s') = Some cs /\
     NoDup cs /\ incl cs (WORDS s) /\ Z.of_nat (List.length cs) = n).
Proof.
  intros Hnd Hwo. cbv zeta.
  set (k := Z.to_nat (Z.min (word_options_count (ui_state s))
                            (Z.of_nat (List.length (WORDS s))))).
  assert (Hk : (k <= List.length (WORDS s))%nat) by (unfold k; lia).
  destruct (sample_from_distinct k (WORDS s) (rand_tape s) Hk Hnd) as [H1 H2].
  assert (Hl : Z.of_nat (List.length (sample_from (WORDS s) k (rand_tape s)))
               = Z.min (word_options_count (ui_state s))
                       (Z.of_nat (List.length (WORDS s))))
    by (rewrite sample_from_length; unfold k; lia).
  split.
  - destruct (start_random_flow_candidates s Hwo) as (s' & E & Hc).
    exists (sample_from (WORDS s) k (rand_tape s)), s'. repeat split; assumption.
  - intros Hw.
    destruct (start_random_simple_candidates s Hwo Hw) as (s' & E & Hc).
    exists (sample_from (WORDS s) k (rand_tape s)), s'. repeat split; assumption.
Qed.

(** ** Playing the turns of a round *)

Lemma reveal_pulse (s : State) :
  screen (ui_state s) = "wait_scroll" ->
  exists s1,
    on_direction GO_DIRECTION s = (Done tt, s1) /\
    screen (ui_state s1) = "reveal" /\
    current_player (ui_state s1) = current_player (ui_state s) /\
    cast s1 = cast s.
Proof.
  intros Hscr. unfold on_direction. exec. rewrite Hscr.
  cbn [String.eqb Ascii.eqb Bool.eqb]. rewrite monotonic_eq. simp_state.
  unfold start_reveal, is_current_imposter. exec.
  repeat match goal with
         | |- context [(if ?b then _ else _) _] => destruct b; simp_state
         end;
    (eexists; split; [ reflexivity | repeat split ]).
Qed.

Lemma reveal_tick (s : State) :
  screen (ui_state s) = "reveal" ->
  exists s2,
    (u <- ui ;; update_timers (reveal_until u)) s = (Done tt, s2) /\
    cast s2 = cast s /\
    (current_player (ui_state s) + 1 < player_count (ui_state s) ->
     screen (ui_state s2) = "handoff" /\
     current_player (ui_state s2) = current_player (ui_state s) /\
     handoff_advance (ui_state s2) = true /\
     handoff_pending_action (ui_state s2) = "") /\
    (player_count (ui_state s) <= current_player (ui_state s) + 1 ->
     screen (ui_state s2) = "done" /\
     current_player (ui_state s2) = current_player (ui_state s) + 1).
Proof.
  intros Hscr. unfold ui, read. unfold bind at 1.
  rewrite (update_timers_reveal s _ Hscr (Qle_refl _)).
  destruct (Z.geb_spec (current_player (ui_state s) + 1)
                       (player_count (ui_state s))) as [H | H].
  - unfold advance_player. exec.
    replace (_ >=? _) with true
      by (symmetry; cbn; apply Z.geb_le; lia).
    simp_state. eexists. split; [ reflexivity | ].
    split; [ reflexivity | split; [ intros; lia | intros _; split; reflexivity ] ].
  - unfold start_handoff. exec. eexists. split; [ reflexivity | ].
    split; [ reflexivity | split; [ intros _; repeat split | intros; lia ] ].
Qed.

Lemma handoff_tick (s : State) :
  screen (ui_state s) = "handoff" ->
  handoff_advance (ui_state s) = true ->
  handoff_pending_action (ui_state s) = "" ->
  current_player (ui_state s) + 1 < player_count (ui_state s) ->
  exists s3,
    (u <- ui ;; update_timers (handoff_until u)) s = (Done tt, s3) /\
    cast s3 = cast s /\
    screen (ui_state s3) = "wait_scroll" /\
    current_player (ui_state s3) = current_player (ui_state s) + 1.
Proof.
  intros Hscr Hadv Hpend Hcp. unfold ui, read. unfold bind at 1.
  rewrite (update_timers_handoff_body s _ Hscr (Qle_refl _)).
  rewrite Hpend, Hadv. cbn [Py.truthy].
  unfold advance_player, start_waiting. exec.
  replace (_ >=? _) with false
    by (symmetry; cbn; rewrite Z.geb_leb; apply Z.leb_gt; lia).
  simp_state. eexists. split; [ reflexivity | repeat split ].
Qed.

Lemma done_tick (s : State) :
  screen (ui_state s) = "done" ->
  (u <- ui ;; update_timers (handoff_until u)) s = (Done tt, s).
Proof.
  intros Hscr. unfold update_timers. exec. rewrite Hscr. reflexivity.
Qed.

Lemma play_turn_step (s : State) :
  screen (ui_state s) = "wait_scroll" ->
  exists s',
    play_turn s = (Done tt, s') /\
    cast s' = cast s /\
    current_player (ui_state s') = current_player (ui_state s) + 1 /\
    (current_player (ui_state s) + 1 < player_count (ui_state s) ->
     screen (ui_state s') = "wait_scroll") /\
    (player_count (ui_state s) <= current_player (ui_state s) + 1 ->
     screen (ui_state s') = "done").
Proof.
  intros Hscr. unfold play_turn.
  destruct (reveal_pulse s Hscr) as (s1 & E1 & Hs1 & Hc1 & Hk1).
  rewrite (final_bind _ _ s s1 tt E1).
  destruct (reveal_tick s1 Hs1) as (s2 & E2 & Hk2 & Hnext & Hlast).
  rewrite (final_bind _ _ s1 s2 tt E2).
  assert (Hpc : player_count (ui_state s1) = player_count (ui_state s))
    by (unfold cast in Hk1; congruence).
  rewrite Hc1, Hpc in Hnext, Hlast.
  destruct (Z_lt_le_dec (current_player (ui_state s) + 1)
                        (player_count (ui_state s))) as [H | H].
  - destruct (Hnext H) as (Hs2 & Hc2 & Ha2 & Hp2).
    assert (Hpc2 : player_count (ui_state s2) = player_count (ui_state s))
      by (unfold cast in Hk1, Hk2; congruence).
    destruct (handoff_tick s2 Hs2 Ha2 Hp2) as (s3 & E3 & Hk3 & Hs3 & Hc3);
      [ rewrite Hc2, Hpc2; exact H | ].
    exists s3. split; [ exact E3 | ].
    split; [ congruence | split; [ congruence | split; [ auto | intros; lia ] ] ].
  - destruct (Hlast H) as (Hs2 & Hc2).
    exists s2. split; [ now apply done_tick | ].
    split; [ congruence | split; [ exact Hc2 | split; [ intros; lia | auto ] ] ].
Qed.

(** A round visits the players in order and ends: from the
    swipe-to-reveal screen of player 0, after [k] turns played to their
    end it is the turn of player [k], for every [k] below the number of
    players, and after as many turns as there are players the screen is
    the done screen; no turn fails, and the players, the word and the
    roles stay what they were. *)
Theorem round_visits_every_player (s : State) (k : nat) :
  screen (ui_state s) = "wait_scroll" ->
  current_player (ui_state s) = 0 ->
  Z.of_nat k <= player_count (ui_state s) ->
  let r := play_turns k s in
  fst r = Done tt /\
  cast (final r) = cast s /\
  current_player (ui_state (final r)) = Z.of_nat k /\
  (Z.of_nat k < player_count (ui_state s) ->
   screen (ui_state (final r)) = "wait_scroll") /\
  (0 < Z.of_nat k -> Z.of_nat k = player_count (ui_state s) ->
   screen (ui_state (final r)) = "done").
Proof.
  intros Hscr Hcp Hk. cbv zeta.
  assert (G : forall n s0,
             screen (ui_state s0) = "wait_scroll" ->
             0 <= current_player (ui_state s0) ->
             current_player (ui_state s0) + Z.of_nat n
             <= player_count (ui_state s0) ->
             exists s',
               play_turns n s0 = (Done tt, s') /\
               cast s' = cast s0 /\
               current_player (ui_state s')
               = current_player (ui_state s0) + Z.of_nat n /\
               (current_player (ui_state s0) + Z.of_nat n
                < player_count (ui_state s0) ->
                screen (ui_state s') = "wait_scroll") /\
               (0 < Z.of_nat n ->
                current_player (ui_state s0) + Z.of_nat n
                = player_count (ui_state s0) ->
                screen (ui_state s') = "done")).
  { induction n as [| n IH]; intros s0 Hs0 Hc0 Hn; cbn [play_turns].
    - exists s0. split; [ reflexivity | ].
      split; [ reflexivity | split; [ cbn; lia | split; [ auto | intros; lia ] ] ].
    - destruct (play_turn_step s0 Hs0) as (s1 & E1 & Hk1 & Hc1 & Hw1 & Hd1).
      rewrite (final_bind _ _ s0 s1 tt E1).
      assert (Hpc : player_count (ui_state s1) = player_count (ui_state s0))
        by (unfold cast in Hk1; congruence).
      destruct n as [| n].
      + cbn [play_turns]. exists s1. split; [ reflexivity | ].
        split; [ exact Hk1 | split; [ lia | split ] ].
        * intros H. apply Hw1. lia.
        * intros _ H. apply Hd1. lia.
      + destruct (IH s1) as (s' & E & Hk' & Hc' & Hw' & Hd');
          [ apply Hw1; lia | lia | lia | ].
        exists s'. split; [ exact E | ].
        split; [ congruence | split; [ lia | split ] ].
        * intros H. apply Hw'. lia.
        * intros _ H. apply Hd'; lia. }
  destruct (G k s Hscr ltac:(lia) ltac:(lia)) as (s' & -> & H1 & H2 & H3 & H4).
  cbn [fst snd final].
  split; [ reflexivity | split; [ exact H1 | split; [ lia | split ] ] ].
  - intros H. apply H3. lia.
  - intros Hpos Heq. apply H4; lia.
Qed.

(** ** The title on the screens of choice *)

Lemma off_choice_true (s : State) : off_choice s -> title_true s.
Proof. intros [H1 H2]. split; intros E; contradiction. Qed.

Lemma pick_cleared_true (s : State) : pick_cleared s -> title_true s.
Proof.
  intros [H1 H2]. split.
  - intros E. rewrite H1 in E. discriminate.
  - intros _ E. contradiction.
Qed.

Lemma title_true_view (s s' : State) :
  choice_view s' = choice_view s -> title_true s -> title_true s'.
Proof.
  unfold choice_view, title_true. intros [= E1 E2 E3 E4 E5 E6] H.
  rewrite E1, E2, E3, E4, E5, E6. exact H.
Qed.

Lemma true_of_view {A : Type} (m : M A) :
  (forall v, Maintains (fun s => choice_view s = v) m) ->
  Maintains title_true m.
Proof.
  intros H s Hs. apply (title_true_view s); [ | exact Hs ].
  exact (H (choice_view s) s eq_refl).
Qed.

(** A procedure that leaves alone what the title depends on. *)
Ltac keeps_choice := apply true_of_view; intros ?; maintains.

Ltac off_choice_end :=
  run_to_end; unfold off_choice; view_simpl; split; discriminate.

Lemma true_of_off {A : Type} (P : State -> Prop) (m : M A) :
  Ensures P m (fun _ => off_choice) -> Ensures P m (fun _ => title_true).
Proof. intros H s Hs a s' E. apply off_choice_true. exact (H s Hs a s' E). Qed.

Lemma choice_reset_idle (P : State -> Prop) :
  Ensures P reset_idle (fun _ => off_choice).
Proof.
  intros s _ a s' E. rewrite reset_idle_result in E. injection E as _ <-.
  split; discriminate.
Qed.

Lemma choice_enter_player_input (P : State -> Prop) :
  Ensures P enter_player_input (fun _ => off_choice).
Proof. unfold enter_player_input. off_choice_end. Qed.

Lemma choice_enter_word_count_input (P : State -> Prop) :
  Ensures P enter_word_count_input (fun _ => off_choice).
Proof. unfold enter_word_count_input. off_choice_end. Qed.

Lemma choice_enter_imposter_percent_input (P : State -> Prop) :
  Ensures P enter_imposter_percent_input (fun _ => off_choice).
Proof. unfold enter_imposter_percent_input. off_choice_end. Qed.

Lemma choice_enter_confirm (P : State -> Prop) :
  Ensures P enter_confirm (fun _ => off_choice).
Proof. unfold enter_confirm. off_choice_end. Qed.

Lemma choice_enter_word_entry (P : State -> Prop) :
  Ensures P enter_word_entry (fun _ => off_choice).
Proof. unfold enter_word_entry. off_choice_end. Qed.

Lemma choice_start_handoff (P : State -> Prop) (now : Q) (adv : bool) (pend : string) :
  Ensures P (start_handoff now adv pend) (fun _ => off_choice).
Proof. unfold start_handoff. off_choice_end. Qed.

Lemma choice_start_waiting (P : State -> Prop) :
  Ensures P start_waiting (fun _ => off_choice).
Proof. unfold start_waiting. off_choice_end. Qed.

Lemma choice_start_reveal (P : State -> Prop) (now : Q) :
  Ensures P (start_reveal now) (fun _ => off_choice).
Proof. unfold start_reveal, is_current_imposter. off_choice_end. Qed.

Lemma choice_advance_player (P : State -> Prop) :
  Ensures P advance_player (fun _ => off_choice).
Proof. unfold advance_player, start_waiting. off_choice_end. Qed.

Lemma choice_enter_modes (P : State -> Prop) :
  Ensures P enter_modes (fun _ => off_choice).
Proof.
  unfold enter_modes.
  apply (ensures_bind P (fun _ => off_choice)).
  - intros s H a s' [= <- <-]. split; discriminate.
  - intros _. apply ensures_maintains. maintains.
Qed.

Lemma choice_show_mode (index : Z) : Maintains off_choice (show_mode index).
Proof. maintains. Qed.

Lemma choice_select_mode (P : State -> Prop) :
  Ensures P select_mode (fun _ => off_choice).
Proof.
  unfold select_mode, ui. do 2 any_step.
  destruct (_ == _); [ apply choice_reset_idle | ].
  do 4 any_step. apply choice_start_handoff.
Qed.

Lemma true_enter_random_pick (P : State -> Prop) :
  Ensures P enter_random_pick (fun _ => title_true).
Proof.
  unfold enter_random_pick, best_random_choice, choose_word_for_source, choice.
  intros s _ a s' E. revert E. exec.
  cbn [random_candidates random_filter set_screen].
  destruct (random_candidates (ui_state s)) as [[| c cs] |] eqn:Ec;
    cbn [or_empty list_truthy]; simp_state;
    try (destruct (WORDS s); simp_state; try rewrite next_rand_eq; simp_state);
    intros [= <- <-]; (split; [ intros E; discriminate | ]);
    intros _ Hf c' cs' Hc; revert Hf Hc; session_simpl; rewrite Ec;
    intros Hf Hc; try discriminate.
  all: injection Hc as <- <-.
  all: destruct (random_filter (ui_state s)); [ contradiction | reflexivity ].
Qed.

Lemma enter_random_simple_now (s : State) :
  enter_random_simple None s =
  enter_random_simple (Some (hd 0%Q (mono_tape s)))
                      (with_mono_tape (tl (mono_tape s)) s).
Proof.
  unfold enter_random_simple. unfold bind at 1. rewrite monotonic_eq.
  reflexivity.
Qed.

Lemma true_enter_random_simple_at (P : State -> Prop) (now : Q) :
  Ensures P (enter_random_simple (Some now)) (fun _ => title_true).
Proof.
  intros s _ a s' E.
  assert (K : Maintains (fun st => simple_candidates (ui_state st)
                                   = simple_candidates (ui_state s) /\
                                   simple_index (ui_state st)
                                   = simple_index (ui_state s))
                        (enter_random_simple (Some now))) by maintains.
  specialize (K s (conj eq_refl eq_refl)). rewrite E in K.
  cbn [final snd] in K. destruct K as [Kc Ki].
  assert (Hscr : screen (ui_state s') = "random_simple").
  { assert (K : Ensures (fun _ => True) (enter_random_simple (Some now))
                        (fun _ st => screen (ui_state st) = "random_simple")).
    { unfold enter_random_simple. any_step.
      apply (ensures_bind _ (fun _ st => screen (ui_state st) = "random_simple")).
      - intros ? _ ? ? [= <- <-]. reflexivity.
      - intros _. apply ensures_maintains. maintains. }
    exact (K s I a s' E). }
  split; [ | intros E'; rewrite Hscr in E'; discriminate ].
  intros _ cs Hc Hi. rewrite Kc in Hc. rewrite Ki in Hi |- *.
  destruct (enter_random_simple_result s now cs Hc Hi) as (s2 & E2 & _ & Ht & _).
  rewrite E in E2. injection E2 as _ <-. exact Ht.
Qed.

Lemma true_enter_random_simple (P : State -> Prop) (now : option Q) :
  Ensures P (enter_random_simple now) (fun _ => title_true).
Proof.
  destruct now as [t |]; [ apply true_enter_random_simple_at | ].
  intros s _ a s' E. rewrite enter_random_simple_now in E.
  exact (true_enter_random_simple_at (fun _ => True) _ _ I a s' E).
Qed.

Lemma choice_route_first_turn (P : State -> Prop) :
  Ensures P route_first_turn (fun _ => off_choice).
Proof.
  unfold route_first_turn, ui. any_step. destruct (_ && _).
  - any_step. apply choice_start_handoff.
  - destruct (_ >? _).
    + any_step. apply choice_start_reveal.
    + apply choice_start_waiting.
Qed.

Lemma true_prepare_word_and_start (P : State -> Prop) :
  (forall s, P s -> title_true s) ->
  Ensures P prepare_word_and_start (fun _ => title_true).
Proof.
  intros HP. rewrite prepare_word_and_start_route. unfold ui.
  apply ensures_bind_read. intros u.
  destruct (selected_mode u) as [mode |].
  - do 3 any_step. apply true_of_off, choice_route_first_turn.
  - apply ensures_skip. intros s (H & _). now apply HP.
Qed.

Lemma true_start_random_flow (P : State -> Prop) :
  (forall s, P s -> off_choice s) ->
  Ensures P start_random_flow (fun _ => title_true).
Proof.
  intros HP. unfold start_random_flow, ui.
  apply (ensures_weaken P off_choice (fun _ => title_true)
                        (fun _ => title_true)); [ exact HP | auto | ].
  apply ensures_after; [ apply maintains_read | intros u ].
  destruct (word_options_count u <=? 1).
  - do 4 (apply ensures_after; [ maintains | intros ? ]).
    apply true_prepare_word_and_start. apply off_choice_true.
  - do 4 any_step. apply true_enter_random_pick.
Qed.

Lemma true_start_random_simple (P : State -> Prop) :
  (forall s, P s -> off_choice s) ->
  Ensures P start_random_simple (fun _ => title_true).
Proof.
  intros HP. unfold start_random_simple, ui.
  apply (ensures_weaken P off_choice (fun _ => title_true)
                        (fun _ => title_true)); [ exact HP | auto | ].
  apply ensures_after; [ apply maintains_read | intros u ].
  destruct (word_options_count u <=? 1).
  - do 4 (apply ensures_after; [ maintains | intros ? ]).
    apply true_prepare_word_and_start. apply off_choice_true.
  - any_step. cbv zeta. do 5 any_step. apply true_enter_random_simple.
Qed.

Lemma true_lock_random_choice (P : State -> Prop) :
  (forall s, P s -> screen (ui_state s) = "random_pick") ->
  Ensures P lock_random_choice (fun _ => title_true).
Proof.
  intros HP. unfold lock_random_choice.
  apply (ensures_weaken P (fun s => screen (ui_state s) = "random_pick")
                        (fun _ => title_true) (fun _ => title_true));
    [ exact HP | auto | ].
  do 2 (apply ensures_after; [ maintains | intros ? ]).
  apply (ensures_bind _ (fun _ => pick_cleared)).
  { intros s H ? ? [= <- <-]. split; [ exact H | reflexivity ]. }
  intros _.
  apply ensures_after; [ unfold pick_cleared; maintains | intros _ ].
  apply true_prepare_word_and_start. apply pick_cleared_true.
Qed.

Lemma true_lock_random_simple_choice :
  Ensures title_true lock_random_simple_choice (fun _ => title_true).
Proof.
  unfold lock_random_simple_choice, ui.
  apply ensures_after; [ apply maintains_read | intros u ].
  do 3 (apply ensures_after; [ keeps_choice | intros ? ]).
  apply true_prepare_word_and_start. auto.
Qed.

Lemma true_then_block {A : Type} (P : State -> Prop) (m : M A) (v : Q) :
  Ensures P m (fun _ => title_true) ->
  Ensures P (m ;; ui_assign set_scroll_block_until v) (fun _ => title_true).
Proof.
  intros H. apply (ensures_bind P (fun _ => title_true)); [ exact H | ].
  intros _. apply ensures_maintains. keeps_choice.
Qed.

Lemma true_update_timers (now : Q) :
  Ensures title_true (update_timers now) (fun _ => title_true).
Proof.
  unfold update_timers, ui. apply ensures_bind_read. intros u.
  on_screen u "random_simple" E1; cbn [andb].
  - destruct (_ && _).
    + eapply ensures_weaken; [ | | apply true_lock_random_simple_choice ];
        [ tauto | auto ].
    + rewrite E1. cbn [String.eqb Ascii.eqb Bool.eqb andb].
      apply ensures_skip. tauto.
  - on_screen u "reveal" E2; cbn [andb].
    + destruct (Qgeb now (reveal_until u)).
      * destruct (_ >=? _); apply true_then_block, true_of_off;
          [ apply choice_advance_player | apply choice_start_handoff ].
      * rewrite E2. cbn [String.eqb Ascii.eqb Bool.eqb andb].
        apply ensures_skip. tauto.
    + on_screen u "handoff" E3; cbn [andb]; [ | apply ensures_skip; tauto ].
      destruct (Qgeb now (handoff_until u)); [ | apply ensures_skip; tauto ].
      apply true_then_block.
      assert (Hoff : forall s, title_true s /\ ui_state s = u -> off_choice s).
      { intros s (_ & <-). unfold off_choice. rewrite E3. split; discriminate. }
      destruct (Py.truthy _).
      * cbv zeta.
        apply (ensures_bind _ (fun _ => off_choice)).
        { intros s H a s' [= <- <-]. exact (Hoff s H). }
        intros _.
        repeat match goal with
               | |- Ensures _ (if ?b then _ else _) _ => destruct b
               end.
        -- apply true_of_off, choice_enter_word_entry.
        -- apply true_start_random_flow. auto.
        -- apply true_start_random_simple. auto.
        -- apply true_prepare_word_and_start. apply off_choice_true.
        -- apply ensures_skip. apply off_choice_true.
      * destruct (handoff_advance u); apply true_of_off;
          [ apply choice_advance_player | apply choice_start_waiting ].
Qed.

Lemma true_on_direction (direction : string) :
  Ensures title_true (on_direction direction) (fun _ => title_true).
Proof.
  unfold on_direction, ui.
  apply ensures_after; [ unfold gesture; keeps_choice | intros _ ].
  apply ensures_bind_read. intros u.
  on_screen u "handoff" E1; [ apply ensures_skip; tauto | ].
  on_screen u "wait_scroll" E2;
    [ any_step; apply true_of_off, choice_start_reveal | ].
  on_screen u "reveal" E3.
  { destruct (_ >=? _); [ apply true_of_off, choice_advance_player | ].
    any_step. apply true_then_block, true_of_off, choice_start_handoff. }
  on_screen u "done" E4; [ apply true_of_off, choice_enter_modes | ].
  on_screen u "random_simple" E5.
  { destruct (_ || _); [ | apply ensures_skip; tauto ].
    any_step. cbv zeta. do 5 any_step. apply true_enter_random_simple. }
  destruct (direction == GO_DIRECTION).
  { on_screen u "idle" F1; [ apply true_of_off, choice_enter_player_input | ].
    on_screen u "player_input" F2.
    { destruct (Py.truthy _);
        [ apply true_of_off, choice_enter_word_count_input
        | apply ensures_skip; tauto ]. }
    on_screen u "word_count" F3;
      [ apply true_of_off, choice_enter_imposter_percent_input | ].
    on_screen u "imposter_percent" F4; [ apply true_of_off, choice_enter_confirm | ].
    on_screen u "confirm" F5; [ apply true_of_off, choice_enter_modes | ].
    on_screen u "mode_select" F6; [ apply true_of_off, choice_select_mode | ].
    on_screen u "word_entry" F7.
    { destruct (Py.truthy _); [ | apply ensures_skip; tauto ].
      apply true_prepare_word_and_start. tauto. }
    on_screen u "random_pick" F8; [ | apply ensures_skip; tauto ].
    apply true_lock_random_choice. intros s (_ & <-). exact F8. }
  destruct (direction == BACK_DIRECTION); [ | apply ensures_skip; tauto ].
  on_screen u "player_input" F1; [ apply true_of_off, choice_reset_idle | ].
  on_screen u "confirm" F2;
    [ apply true_of_off, choice_enter_imposter_percent_input | ].
  on_screen u "mode_select" F3.
  { apply true_of_off.
    apply (ensures_weaken _ off_choice (fun _ => off_choice) (fun _ => off_choice));
      [ intros s (_ & <-); unfold off_choice; rewrite F3; split; discriminate
      | auto | ].
    apply ensures_maintains, choice_show_mode. }
  repeat match goal with
         | |- Ensures _ (if ?b then _ else _) _ => destruct b
         end;
    first [ apply ensures_skip; tauto
          | apply true_of_off;
            first [ apply choice_enter_modes
                  | apply choice_enter_player_input
                  | apply choice_enter_word_count_input ] ].
Qed.

Lemma true_render : Ensures title_true render (fun _ => title_true).
Proof. apply ensures_maintains. unfold render. keeps_choice. Qed.

Ltac ensures_true leaf :=
  repeat first
    [ leaf
    | apply ensures_ret
    | apply ensures_maintains; solve [ apply maintains_read | keeps_choice ]
    | match goal with
      | |- Ensures _ (bind _ _) _ =>
          apply (ensures_bind title_true (fun _ => title_true)); [ | intros ? ]
      | |- Ensures _ (let _ := _ in _) _ => cbv zeta
      | |- Ensures _ (match ?x with _ => _ end) _ => destruct x eqn:?
      end ].

Lemma true_handle_scroll (direction : string) (now : Q) :
  Ensures title_true (handle_scroll direction now) (fun _ => title_true).
Proof.
  unfold handle_scroll, ui.
  ensures_true ltac:(apply true_on_direction).
Qed.

Lemma true_handle_key (ch : Z) (now : Q) :
  Ensures title_true (handle_key ch now) (fun _ => title_true).
Proof.
  unfold handle_key, ui. apply ensures_bind_read. intros u.
  destruct (is_enter ch && enter_scrolls (screen u)).
  { eapply ensures_weaken; [ | | apply true_handle_scroll ]; [ tauto | auto ]. }
  on_screen u "random_pick" E1; rewrite ?andb_true_r, ?andb_false_r; cbn [andb].
  { rewrite E1. cbn [String.eqb Ascii.eqb Bool.eqb andb].
    repeat match goal with
           | |- Ensures _ (if ?b then _ else _) _ => destruct b
           end;
      first [ apply true_lock_random_choice; intros s (_ & <-); exact E1
            | any_step; apply true_enter_random_pick
            | apply ensures_skip; tauto ]. }
  repeat match goal with
         | |- Ensures _ (if ?b then _ else _) _ => destruct b
         end;
    first [ apply ensures_skip; tauto
          | any_step; apply true_of_off;
            first [ apply choice_enter_player_input
                  | apply choice_enter_word_count_input
                  | apply choice_enter_imposter_percent_input
                  | apply choice_enter_word_entry ] ].
Qed.

Lemma true_run_iteration (now : Q) (ch : Z) (mouse : option (bool * bool)) :
  Ensures title_true (run_iteration now ch mouse) (fun _ => title_true).
Proof.
  unfold run_iteration, update_scroll_state.
  ensures_true ltac:(first [ apply true_update_timers
                           | apply true_render
                           | apply true_handle_scroll
                           | apply true_handle_key ]).
Qed.

Lemma true_run_iterations (events : list (Q * Z * option (bool * bool))) :
  Ensures title_true (run_iterations events) (fun _ => title_true).
Proof.
  induction events as [| [[now ch] mouse] rest IH]; cbn [run_iterations].
  - apply ensures_ret.
  - apply (ensures_bind title_true (fun _ => title_true));
      [ apply true_run_iteration | intros _; exact IH ].
Qed.


(** ** Typing and set-up navigation *)


Lemma substring_prefix (s t : string) :
  substring 0 (String.length s) (s ++ t) = s.
Proof.
  induction s as [| c s IH]; cbn [append String.length substring].
  - now destruct t.
  - now rewrite IH.
Qed.

(** [(s + chr(ch))[:-1]] is [s]. *)
Lemma drop_last_typed (s : string) (ch : Z) : drop_last (s ++ chr ch) = s.
Proof.
  unfold drop_last, chr.
  assert (H : forall c : ascii,
            String.length (s ++ String c "") = S (String.length s)).
  { intros c. induction s as [| x s IH]; cbn [append String.length];
      [ reflexivity | now rewrite IH ]. }
  rewrite H. cbn [Nat.sub]. rewrite Nat.sub_0_r. apply substring_prefix.
Qed.

Lemma or_else_empty (b : string) : Py.or_else b "" = b.
Proof. now destruct b. Qed.

Lemma set_input_buffer_same (u : UIState) :
  set_input_buffer (input_buffer u) u = u.
Proof. now destruct u. Qed.

Lemma set_word_count_buffer_same (u : UIState) :
  set_word_count_buffer (word_count_buffer u) u = u.
Proof. now destruct u. Qed.

Lemma set_imposter_percent_buffer_same (u : UIState) :
  set_imposter_percent_buffer (imposter_percent_buffer u) u = u.
Proof. now destruct u. Qed.

Lemma set_word_buffer_same (u : UIState) : set_word_buffer (word_buffer u) u = u.
Proof. now destruct u. Qed.

Lemma set_random_filter_same (u : UIState) :
  set_random_filter (random_filter u) u = u.
Proof. now destruct u. Qed.

Lemma takes_not_special (scr : string) (ch : Z) :
  takes scr ch = true -> is_enter ch = false /\ is_backspace ch = false.
Proof.
  unfold takes, is_digit, is_printable, is_enter, is_backspace, KEY_BACKSPACE.
  intros H.
  assert (R : 32 <= ch <= 126).
  { destruct (_ || _); apply andb_true_iff in H; destruct H as [H1 H2];
      apply Z.leb_le in H1; apply Z.leb_le in H2; lia. }
  repeat match goal with
         | |- context [?a =? ?b] => destruct (Z.eqb_spec a b); [ lia | ]
         end.
  split; reflexivity.
Qed.

Lemma backspace_not_typed (back : Z) :
  is_backspace back = true ->
  is_enter back = false /\ is_digit back = false /\ is_printable back = false.
Proof.
  unfold is_backspace, KEY_BACKSPACE. intros H.
  assert (R : back = 263 \/ back = 127 \/ back = 8).
  { destruct (Z.eqb_spec back 263); [ tauto | ].
    destruct (Z.eqb_spec back 127); [ tauto | ].
    destruct (Z.eqb_spec back 8); [ tauto | discriminate ]. }
  destruct R as [-> | [-> | ->]]; repeat split.
Qed.

(** Entering a typing screen changes nothing of the session but the
    screen. *)
Lemma enter_typing_screen (scr : string) (s : State) :
  In scr typing_screens ->
  exists s',
    enter_of scr s = (Done tt, s') /\
    ui_state s' = set_screen scr (ui_state s).
Proof.
  intros Hin. cbn in Hin. unfold enter_of.
  destruct Hin as [<- | [<- | [<- | [<- | [<- | []]]]]];
    cbn [String.eqb Ascii.eqb Bool.eqb].
  - unfold enter_player_input. exec. eexists. split; reflexivity.
  - unfold enter_word_count_input. exec. eexists. split; [ reflexivity | ].
    simp_state.
    cbn [imposter_percent_buffer set_screen]. rewrite or_else_empty.
    match goal with
    | |- set_imposter_percent_buffer _ ?u = _ =>
        exact (set_imposter_percent_buffer_same u)
    end.
  - unfold enter_imposter_percent_input. exec. eexists. split; reflexivity.
  - unfold enter_word_entry. exec. eexists. split; reflexivity.
  - unfold enter_random_pick, best_random_choice, choose_word_for_source, choice.
    exec. cbn [random_candidates set_screen].
    destruct (or_empty (random_candidates (ui_state s))); simp_state;
      [ destruct (WORDS s); simp_state; [ | rewrite next_rand_eq; simp_state ]
      | ];
      (eexists; split; reflexivity).
Qed.

Lemma handle_key_types (s : State) (scr : string) (ch : Z) (now : Q) :
  In scr typing_screens ->
  screen (ui_state s) = scr ->
  takes scr ch = true ->
  handle_key ch now s =
  (ui_assign (set_buffer_of scr) (buffer_of scr (ui_state s) ++ chr ch) ;;
   enter_of scr) s.
Proof.
  intros Hin Hscr Ht. destruct (takes_not_special scr ch Ht) as [He Hb].
  unfold handle_key, ui, read. unfold bind at 1. rewrite Hscr, He, Hb.
  cbn in Hin.
  destruct Hin as [<- | [<- | [<- | [<- | [<- | []]]]]];
    cbn [takes String.eqb Ascii.eqb Bool.eqb orb] in Ht; rewrite Ht;
    reflexivity.
Qed.

Lemma handle_key_erases (s : State) (scr : string) (back : Z) (now : Q) :
  In scr typing_screens ->
  screen (ui_state s) = scr ->
  is_backspace back = true ->
  handle_key back now s =
  (ui_assign (set_buffer_of scr) (drop_last (buffer_of scr (ui_state s))) ;;
   enter_of scr) s.
Proof.
  intros Hin Hscr Hb. destruct (backspace_not_typed back Hb) as (He & Hd & Hp).
  unfold handle_key, ui, read. unfold bind at 1. rewrite Hscr, He, Hb, Hd, Hp.
  cbn in Hin.
  destruct Hin as [<- | [<- | [<- | [<- | [<- | []]]]]]; reflexivity.
Qed.

Lemma buffer_of_set (scr v : string) (u : UIState) :
  buffer_of scr (set_buffer_of scr v u) = v.
Proof.
  unfold buffer_of, set_buffer_of.
  repeat match goal with
         | |- context [if ?b then _ else _] => destruct b
         end; reflexivity.
Qed.

(** Typing over what was typed, on the screen itself, is putting the
    buffer back. *)
Lemma set_buffer_of_back (scr v : string) (u : UIState) :
  In scr typing_screens ->
  screen u = scr ->
  set_screen scr
    (set_buffer_of scr (buffer_of scr u)
       (set_screen scr (set_buffer_of scr v u))) = u.
Proof.
  intros Hin Hscr. cbn in Hin. destruct u.
  simpl in Hscr. subst.
  destruct Hin as [<- | [<- | [<- | [<- | [<- | []]]]]]; reflexivity.
Qed.

(** A typed character can be taken back.  On each of the five screens
    with a buffer, a character the screen takes is appended to the buffer
    of the screen, and a backspace after it (KEY_BACKSPACE, DEL or BS)
    puts the whole session back as it was; both keys return. *)
Theorem typed_character_can_be_erased
        (s : State) (scr : string) (ch back : Z) (now now' : Q) :
  In scr typing_screens ->
  screen (ui_state s) = scr ->
  takes scr ch = true ->
  is_backspace back = true ->
  exists s1 s2,
    handle_key ch now s = (Done tt, s1) /\
    buffer_of scr (ui_state s1) = buffer_of scr (ui_state s) ++ chr ch /\
    handle_key back now' s1 = (Done tt, s2) /\
    ui_state s2 = ui_state s.
Proof.
  intros Hin Hscr Ht Hb.
  rewrite (handle_key_types s scr ch now Hin Hscr Ht).
  unfold bind at 1. cbn [ui_assign update].
  match goal with
  | |- context [enter_of scr ?s0] =>
      destruct (enter_typing_screen scr s0 Hin) as (s1 & E1 & Hu1)
  end.
  cbn [ui_state with_ui_state] in Hu1.
  exists s1.
  assert (Hs1 : screen (ui_state s1) = scr) by (rewrite Hu1; reflexivity).
  assert (Hb1 : buffer_of scr (ui_state s1) = buffer_of scr (ui_state s) ++ chr ch).
  { rewrite Hu1. unfold buffer_of.
    cbn [input_buffer word_count_buffer imposter_percent_buffer word_buffer
         random_filter set_screen].
    change (buffer_of scr (set_buffer_of scr
              (buffer_of scr (ui_state s) ++ chr ch) (ui_state s))
            = buffer_of scr (ui_state s) ++ chr ch).
    apply buffer_of_set. }
  rewrite (handle_key_erases s1 scr back now' Hin Hs1 Hb).
  unfold bind at 1. cbn [ui_assign update].
  destruct (enter_typing_screen scr
              (with_ui_state
                 (set_buffer_of scr (drop_last (buffer_of scr (ui_state s1)))
                    (ui_state s1)) s1) Hin) as (s2 & E2 & Hu2).
  cbn [ui_state with_ui_state] in Hu2.
  exists s2. split; [ exact E1 | split; [ exact Hb1 | split; [ exact E2 | ] ] ].
  rewrite Hu2, Hb1, drop_last_typed, Hu1.
  apply set_buffer_of_back; assumption.
Qed.

Lemma truthy_nonempty (b : string) : b <> "" -> Py.truthy b = true.
Proof. destruct b; [ congruence | reflexivity ]. Qed.

Lemma set_screen_there (u : UIState) (scr : string) :
  screen u = scr -> set_screen scr u = u.
Proof. intros <-. now destruct u. Qed.

(** Going on and back in the set-up loses nothing that was typed.  From
    the player-count screen (only left with something typed), the
    word-count screen and the percent screen, a GO gesture followed by a
    BACK gesture returns, shows the same screen again and leaves the three
    buffers as they were; from the first two the whole [ui_state] is as
    before (from the percent screen the confirm screen has parsed the
    three numbers in between). *)
Theorem setup_go_back_keeps_typed (s : State) (scr : string) :
  In scr [ "player_input"; "word_count"; "imposter_percent" ] ->
  screen (ui_state s) = scr ->
  (scr = "player_input" -> input_buffer (ui_state s) <> "") ->
  exists s',
    (on_direction GO_DIRECTION ;; on_direction BACK_DIRECTION) s = (Done tt, s') /\
    screen (ui_state s') = scr /\
    setup_buffers s' = setup_buffers s /\
    (scr <> "imposter_percent" -> ui_state s' = ui_state s).
Proof.
  intros Hin Hscr Hne. cbn in Hin.
  destruct Hin as [<- | [<- | [<- | []]]].
  - pose proof (truthy_nonempty _ (Hne eq_refl)) as Ht.
    unfold on_direction. exec. rewrite Hscr, Ht.
    cbn [String.eqb Ascii.eqb Bool.eqb BACK_DIRECTION GO_DIRECTION].
    unfold enter_word_count_input. exec. session_simpl.
    cbn [String.eqb Ascii.eqb Bool.eqb].
    unfold enter_player_input. exec. session_simpl.
    eexists. split; [ reflexivity | ]. session_simpl.
    rewrite or_else_empty.
    split; [ reflexivity | split; [ reflexivity | intros _ ] ].
    destruct (ui_state s); simpl in Hscr; subst; reflexivity.
  - unfold on_direction. exec. rewrite Hscr.
    cbn [String.eqb Ascii.eqb Bool.eqb BACK_DIRECTION GO_DIRECTION].
    unfold enter_imposter_percent_input. exec. session_simpl.
    cbn [String.eqb Ascii.eqb Bool.eqb].
    unfold enter_word_count_input. exec. session_simpl.
    eexists. split; [ reflexivity | ]. session_simpl.
    rewrite or_else_empty.
    split; [ reflexivity | split; [ reflexivity | intros _ ] ].
    destruct (ui_state s); simpl in Hscr; subst; reflexivity.
  - unfold on_direction. exec. rewrite Hscr.
    cbn [String.eqb Ascii.eqb Bool.eqb BACK_DIRECTION GO_DIRECTION].
    unfold enter_confirm. exec. session_simpl.
    cbn [String.eqb Ascii.eqb Bool.eqb].
    unfold enter_imposter_percent_input. exec. session_simpl.
    eexists. split; [ reflexivity | ]. session_simpl.
    split; [ reflexivity | split; [ | congruence ] ].
    unfold setup_buffers. session_simpl. reflexivity.
Qed.

(** ** The further properties on the scenarios *)


Lemma choose_word_never_fails_witness :
  WORDS one_word <> [] /\
  exists w s',
    choose_word_for_source "random" one_word = (Done w, s') /\
    In w (WORDS one_word) /\
    s' = with_rand_tape (tl (rand_tape one_word)) one_word.
Proof.
  assert (H : WORDS one_word <> []) by discriminate.
  destruct (choose_word_never_fails one_word "random") as (w & s' & E & _ & K).
  exact (conj H (ex_intro _ w (ex_intro _ s' (conj E (K H))))).
Defined.

Lemma mode_select_retreat_cycles_witness :
  screen (ui_state mid_round) = "mode_select" /\
  exists mode s',
    on_direction BACK_DIRECTION mid_round = (Done tt, s') /\
    ui_state s' =
      set_mode_index ((mode_index (ui_state mid_round) - 1) mod 4)
                     (ui_state mid_round) /\
    nth_error GAME_MODES
              (Z.to_nat ((mode_index (ui_state mid_round) - 1) mod 4))
    = Some mode /\
    message_box s' = mkMessageBox (name mode) (description mode) /\
    box_style s' = style mode.
Proof.
  assert (H : screen (ui_state mid_round) = "mode_select") by reflexivity.
  exact (conj H (mode_select_retreat_cycles mid_round H)).
Defined.

Lemma select_mode_outcomes_witness :
  mode_index (ui_state mid_round) = 2 /\
  exists mode s',
    nth_error GAME_MODES (Z.to_nat 2) = Some mode /\
    select_mode mid_round = (Done tt, s') /\
    screen (ui_state s') = "handoff" /\
    selected_mode (ui_state s') = Some mode /\
    handoff_pending_action (ui_state s') = "start_random_flow" /\
    handoff_advance (ui_state s') = false /\
    handoff_until (ui_state s') = (hd 0%Q (mono_tape mid_round) + 3)%Q /\
    (2 = 1 -> word_buffer (ui_state s') = "").
Proof.
  assert (H : mode_index (ui_state mid_round) = 2) by reflexivity.
  exact (conj H
           (proj1 (proj2 (select_mode_outcomes mid_round))
                  2 "start_random_flow" (or_intror (or_introl eq_refl)) H)).
Defined.

Lemma handoff_tick_clears_pending_witness :
  screen (ui_state empty_pool_handoff) = "handoff" /\
  (handoff_until (ui_state empty_pool_handoff) <= 21)%Q /\
  handoff_pending_action (ui_state empty_pool_handoff) = "start_random_simple" /\
  fst (update_timers 21 empty_pool_handoff) = Raised ValueError /\
  handoff_pending_action (ui_state (final (update_timers 21 empty_pool_handoff)))
  = "".
Proof.
  assert (Hs : screen (ui_state empty_pool_handoff) = "handoff") by reflexivity.
  assert (Hd : (handoff_until (ui_state empty_pool_handoff) <= 21)%Q)
    by (vm_compute; discriminate).
  split; [ exact Hs | split; [ exact Hd | split; [ reflexivity | split ] ] ].
  - reflexivity.
  - exact (handoff_tick_clears_pending empty_pool_handoff 21 Hs Hd).
Defined.

Lemma assign_imposter_roles_witness :
  1 < player_count (ui_state four_players) /\
  first_player_spared (ui_state four_players) = true /\
  (exists p, 0 <= p < player_count (ui_state four_players) /\
             imposter_at (final (assign_imposter four_players)) p = true) /\
  imposter_at (final (assign_imposter four_players)) 0 = false.
Proof.
  assert (Hp : 1 < player_count (ui_state four_players)) by reflexivity.
  assert (Hf : first_player_spared (ui_state four_players) = true) by reflexivity.
  destruct (assign_imposter_roles four_players) as (_ & H1 & H2 & _).
  exact (conj Hp (conj Hf (conj (H1 Hp) (H2 Hp Hf)))).
Defined.

Lemma prepare_word_and_start_routes_witness :
  selected_mode (ui_state four_players) = nth_error GAME_MODES 1 /\
  word_options_count (ui_state four_players) <= 1 /\
  chosen_word (ui_state (final (prepare_word_and_start four_players)))
  = "mystery" /\
  screen (ui_state (final (prepare_word_and_start four_players)))
  = "wait_scroll".
Proof.
  assert (Hm : selected_mode (ui_state four_players) = nth_error GAME_MODES 1)
    by reflexivity.
  assert (Hw : word_options_count (ui_state four_players) <= 1)
    by (vm_compute; discriminate).
  destruct (prepare_word_and_start_routes four_players) as (_ & _ & H).
  destruct (H _ Hm) as (_ & _ & _ & H1 & _ & _ & _ & H2).
  exact (conj Hm (conj Hw (conj (H1 eq_refl) (H2 Hw)))).
Defined.


Lemma accepted_pulse_after_gap_emits_witness :
  times_agree after_first_pulse /\
  ~ rejected after_first_pulse 11 /\
  (SCROLL_GAP_SECONDS < 11 - trigger_time after_first_pulse)%Q /\
  gestures (final (handle_scroll "down" 11 after_first_pulse))
  = ["down"; "down"].
Proof.
  assert (Ht : times_agree after_first_pulse) by reflexivity.
  assert (Ha : ~ rejected after_first_pulse 11)
    by (intros [H | H]; vm_compute in H; discriminate).
  assert (Hg : (SCROLL_GAP_SECONDS < 11 - trigger_time after_first_pulse)%Q)
    by (vm_compute; reflexivity).
  exact (conj Ht (conj Ha (conj Hg
           (proj1 (accepted_pulse_after_gap_emits
                     after_first_pulse "down" 11 Ht Ha) Hg)))).
Defined.



Lemma hold_expiry_locks_shown_word_witness :
  screen (ui_state browsing) = "random_simple" /\
  simple_hold_started (ui_state browsing) = true /\
  (0 < simple_hold_until (ui_state browsing))%Q /\
  (simple_hold_until (ui_state browsing) <= 15)%Q /\
  fst (update_timers 15 browsing) = Done tt /\
  chosen_word (ui_state (final (update_timers 15 browsing))) = "plum" /\
  simple_hold_started (ui_state (final (update_timers 15 browsing))) = false /\
  simple_hold_until (ui_state (final (update_timers 15 browsing))) = 0%Q /\
  current_player (ui_state (final (update_timers 15 browsing))) = 0 /\
  In (screen (ui_state (final (update_timers 15 browsing))))
     ["handoff"; "reveal"; "wait_scroll"].
Proof.
  assert (Hs : screen (ui_state browsing) = "random_simple") by reflexivity.
  assert (Hh : simple_hold_started (ui_state browsing) = true) by reflexivity.
  assert (Hp : (0 < simple_hold_until (ui_state browsing))%Q)
    by (vm_compute; reflexivity).
  assert (Hd : (simple_hold_until (ui_state browsing) <= 15)%Q)
    by (vm_compute; discriminate).
  assert (Hc : simple_candidates (ui_state browsing)
               = Some ["apple"; "pear"; "plum"]) by reflexivity.
  assert (Hi : 0 <= simple_index (ui_state browsing)
               < Z.of_nat (List.length ["apple"; "pear"; "plum"]))
    by (vm_compute; split; [ discriminate | reflexivity ]).
  assert (Hm : selected_mode (ui_state browsing)
               = Some (mkGameMode "Random Simple"
                         "Wörter durchscrollen, unten wählen."
                         DEFAULT_STYLE "random_simple")) by reflexivity.
  assert (Hw : nth (Z.to_nat (simple_index (ui_state browsing)))
                   ["apple"; "pear"; "plum"] "" <> "") by discriminate.
  exact (conj Hs (conj Hh (conj Hp (conj Hd
           (hold_expiry_locks_shown_word browsing 15 _ _
              Hs Hh Hp Hd Hc Hi Hm eq_refl Hw))))).
Defined.





Lemma reveal_always_honest_witness :
  fst (run_iterations second_reveal_keys
                      (startup_state ["apple"] [] second_reveal_clock))
  = Done tt /\
  screen (ui_state second_reveal) = "reveal" /\
  current_player (ui_state second_reveal) = 1 /\
  imposter_at second_reveal 1 = true /\
  message_box second_reveal =
  mkMessageBox "Du bist der Imposter" "Lass dir nichts anmerken.".
Proof.
  unfold second_reveal.
  pose proof (reveal_always_honest ["apple"] [] second_reveal_clock
                                   second_reveal_keys) as K.
  cbv zeta in K.
  match type of K with
  | ?A -> ?B -> _ =>
      assert (H1 : A) by (vm_compute; reflexivity);
      assert (H2 : B) by (vm_compute; reflexivity)
  end.
  specialize (K H1 H2).
  match type of K with
  | _ = if imposter_at ?s ?p then _ else _ =>
      assert (Hc : p = 1) by (vm_compute; reflexivity);
      assert (Hi : imposter_at s 1 = true) by (vm_compute; reflexivity)
  end.
  rewrite Hc, Hi in K.
  exact (conj H1 (conj H2 (conj Hc (conj Hi K)))).
Defined.


Lemma sampled_candidates_distinct_witness :
  NoDup (WORDS two_options) /\
  1 < word_options_count (ui_state two_options) /\
  exists cs s',
    start_random_flow two_options = (Done tt, s') /\
    random_candidates (ui_state s') = Some cs /\
    NoDup cs /\ incl cs (WORDS two_options) /\
    Z.of_nat (List.length cs)
    = Z.min (word_options_count (ui_state two_options))
            (Z.of_nat (List.length (WORDS two_options))).
Proof.
  assert (Hn : NoDup (WORDS two_options)).
  { repeat constructor; cbn; intuition discriminate. }
  assert (Hw : 1 < word_options_count (ui_state two_options)) by reflexivity.
  exact (conj Hn (conj Hw (proj1 (sampled_candidates_distinct two_options Hn Hw)))).
Defined.

Lemma round_visits_every_player_witness :
  screen (ui_state first_turn) = "wait_scroll" /\
  current_player (ui_state first_turn) = 0 /\
  player_count (ui_state first_turn) = 3 /\
  fst (play_turns 3 first_turn) = Done tt /\
  current_player (ui_state (final (play_turns 3 first_turn))) = 3 /\
  screen (ui_state (final (play_turns 3 first_turn))) = "done".
Proof.
  assert (Hs : screen (ui_state first_turn) = "wait_scroll") by reflexivity.
  assert (Hc : current_player (ui_state first_turn) = 0) by reflexivity.
  assert (Hp : player_count (ui_state first_turn) = 3) by reflexivity.
  assert (Hk : Z.of_nat 3 <= player_count (ui_state first_turn))
    by (vm_compute; discriminate).
  destruct (round_visits_every_player first_turn 3 Hs Hc Hk)
    as (H1 & _ & H2 & _ & H3).
  exact (conj Hs (conj Hc (conj Hp (conj H1 (conj H2
           (H3 eq_refl eq_refl)))))).
Defined.


Lemma typed_character_can_be_erased_witness :
  screen (ui_state counting) = "player_input" /\
  takes "player_input" 50 = true /\
  is_backspace 127 = true /\
  exists s1 s2,
    handle_key 50 10 counting = (Done tt, s1) /\
    buffer_of "player_input" (ui_state s1) = "12" /\
    handle_key 127 11 s1 = (Done tt, s2) /\
    ui_state s2 = ui_state counting.
Proof.
  assert (Hin : In "player_input" typing_screens) by (left; reflexivity).
  assert (Hs : screen (ui_state counting) = "player_input") by reflexivity.
  assert (Ht : takes "player_input" 50 = true) by reflexivity.
  assert (Hb : is_backspace 127 = true) by reflexivity.
  exact (conj Hs (conj Ht (conj Hb
           (typed_character_can_be_erased counting "player_input" 50 127 10 11
              Hin Hs Ht Hb)))).
Defined.

Lemma setup_go_back_keeps_typed_witness :
  screen (ui_state counting) = "player_input" /\
  input_buffer (ui_state counting) <> "" /\
  exists s',
    (on_direction GO_DIRECTION ;; on_direction BACK_DIRECTION) counting
    = (Done tt, s') /\
    screen (ui_state s') = "player_input" /\
    setup_buffers s' = ("1", "", "") /\
    ("player_input" <> "imposter_percent" -> ui_state s' = ui_state counting).
Proof.
  assert (Hin : In "player_input" [ "player_input"; "word_count"; "imposter_percent" ])
    by (left; reflexivity).
  assert (Hs : screen (ui_state counting) = "player_input") by reflexivity.
  assert (Hn : input_buffer (ui_state counting) <> "") by discriminate.
  exact (conj Hs (conj Hn
           (setup_go_back_keeps_typed counting "player_input" Hin Hs
              (fun _ => Hn)))).
Defined.
